(** * highlevel-backend: the document-ingestion pipeline

    A shallow embedding of the NestJS services of the repository
    (S3Service, DocumentParserService, EmbeddingService, PineconeService and
    KnowledgeIngestionService) with the properties the specification states
    about them, followed by the controller, the configuration and the earlier
    revisions of the parser and of the orchestrator, with further properties
    of the code.

    Conventions.
    - A JavaScript string is a [string]: one [ascii] per UTF-16 code unit, so
      the development covers strings whose code units are below 256.
    - An [async] method that can reject is a function into [Res]; a method
      that also touches the process state (the random source, the vector
      index) is a computation in the monad [M].
    - Calls to the logger have no effect on any result and are left out. *)

From Stdlib Require Import ZArith QArith Ascii String List Bool Lia.
From Stdlib Require Import DecimalString DecimalN DecimalPos.
From stdpp Require Import base strings gmap list.

Local Open Scope string_scope.
Local Open Scope Z_scope.

(** ** Exceptions and results *)

Module Js.

(** A thrown value: the constructor is the error class, the argument its
    [message]. *)
Inductive exn : Type :=
  | Error (message : string)
  | TypeError (message : string)
  | SyntaxError (message : string).

Definition message (e : exn) : string :=
  match e with
  | Error m | TypeError m | SyntaxError m => m
  end.

(** The outcome of a call that may throw. *)
Inductive Res (A : Type) : Type :=
  | Ok (a : A)
  | Throw (e : exn).
Arguments Ok {A} a.
Arguments Throw {A} e.

Definition isOk {A} (r : Res A) : bool :=
  match r with Ok _ => true | Throw _ => false end.

(** ** String.prototype *)

Definition code (c : ascii) : Z := Z.of_nat (nat_of_ascii c).

(** [s.startsWith(p)] *)
Fixpoint startsWith (p s : string) : bool :=
  match p, s with
  | EmptyString, _ => true
  | String a p', String b s' => if Ascii.eqb a b then startsWith p' s' else false
  | String _ _, EmptyString => false
  end.

(** [s.includes(p)] *)
Fixpoint includes (p s : string) : bool :=
  startsWith p s ||
  match s with
  | EmptyString => false
  | String _ s' => includes p s'
  end.

(** [s.endsWith(p)] *)
Fixpoint endsWith (p s : string) : bool :=
  String.eqb p s ||
  match s with
  | EmptyString => false
  | String _ s' => endsWith p s'
  end.

(** [s.substring(1)] *)
Definition substring1 (s : string) : string :=
  match s with
  | EmptyString => EmptyString
  | String _ s' => s'
  end.

Definition lowerChar (c : ascii) : ascii :=
  let n := code c in
  if ((65 <=? n) && (n <=? 90)) || ((192 <=? n) && (n <=? 222) && negb (n =? 215))
  then ascii_of_nat (Z.to_nat (n + 32))
  else c.

(** [s.toLowerCase()] *)
Fixpoint toLowerCase (s : string) : string :=
  match s with
  | EmptyString => EmptyString
  | String c s' => String (lowerChar c) (toLowerCase s')
  end.

(** White space and line terminators, as [trim] strips them. *)
Definition isWhiteSpace (c : ascii) : bool :=
  let n := code c in
  ((9 <=? n) && (n <=? 13)) || (n =? 32) || (n =? 160).

Fixpoint trimStart (s : string) : string :=
  match s with
  | EmptyString => EmptyString
  | String c s' => if isWhiteSpace c then trimStart s' else s
  end.

Fixpoint trimEnd (s : string) : string :=
  match s with
  | EmptyString => EmptyString
  | String c s' =>
      match trimEnd s' with
      | EmptyString => if isWhiteSpace c then EmptyString else String c EmptyString
      | t => String c t
      end
  end.

(** [s.trim()] *)
Definition trim (s : string) : string := trimEnd (trimStart s).

(** [!s]: the empty string is the only falsy string. *)
Definition falsy (s : string) : bool :=
  match s with EmptyString => true | _ => false end.

(** [s.substring(0, n)] and [s.substring(n)] *)
Fixpoint takeS (n : nat) (s : string) : string :=
  match n, s with
  | S m, String c r => String c (takeS m r)
  | _, _ => EmptyString
  end.

Fixpoint dropS (n : nat) (s : string) : string :=
  match n, s with
  | S m, String _ r => dropS m r
  | _, _ => s
  end.

(** [l.join(sep)] *)
Fixpoint join (sep : string) (l : list string) : string :=
  match l with
  | [] => ""
  | [x] => x
  | x :: rest => x ++ sep ++ join sep rest
  end.

End Js.

(** ** Node's [path] module (POSIX flavour) *)

Module path.
Import Js.

(** [s.charCodeAt(i)] for [i] inside the string. *)
Definition charCodeAt (s : string) (i : nat) : Z :=
  match String.get i s with
  | Some c => code c
  | None => -1
  end.

(** [s.slice(a, b)] for [0 <= a <= b <= s.length]. *)
Definition slice (s : string) (a b : Z) : string :=
  String.substring (Z.to_nat a) (Z.to_nat (b - a)) s.

Definition CHAR_FORWARD_SLASH : Z := 47.
Definition CHAR_DOT : Z := 46.

(** The local variables of [extname]. *)
Record ExtState : Type := mkExt {
  startDot : Z;
  startPart : Z;
  end_ : Z;
  matchedSlash : bool;
  preDotState : Z
}.

(** The loop [for (let i = path.length - 1; i >= 0; --i)], with [n] the
    number of characters not yet visited. *)
Fixpoint extname_loop (p : string) (n : nat) (st : ExtState) : ExtState :=
  match n with
  | O => st
  | S i =>
      let c := charCodeAt p i in
      if c =? CHAR_FORWARD_SLASH then
        if negb (matchedSlash st)
        then mkExt (startDot st) (Z.of_nat i + 1) (end_ st) (matchedSlash st) (preDotState st)
        else extname_loop p i st
      else
        let st1 :=
          if end_ st =? -1
          then mkExt (startDot st) (startPart st) (Z.of_nat i + 1) false (preDotState st)
          else st in
        let st2 :=
          if c =? CHAR_DOT then
            if startDot st1 =? -1
            then mkExt (Z.of_nat i) (startPart st1) (end_ st1) (matchedSlash st1) (preDotState st1)
            else if negb (preDotState st1 =? 1)
            then mkExt (startDot st1) (startPart st1) (end_ st1) (matchedSlash st1) 1
            else st1
          else if negb (startDot st1 =? -1)
          then mkExt (startDot st1) (startPart st1) (end_ st1) (matchedSlash st1) (-1)
          else st1 in
        extname_loop p i st2
  end.

(** [path.extname(p)] *)
Definition extname (p : string) : string :=
  let st := extname_loop p (String.length p) (mkExt (-1) 0 (-1) true 0) in
  if (startDot st =? -1) || (end_ st =? -1) || (preDotState st =? 0) ||
     ((preDotState st =? 1) && (startDot st =? end_ st - 1)
      && (startDot st =? startPart st + 1))
  then ""
  else slice p (startDot st) (end_ st).

(** The local variables of [basename]: [start], [end], [matchedSlash]. *)
Fixpoint basename_loop (p : string) (n : nat) (st : Z * Z * bool) : Z * Z * bool :=
  match n with
  | O => st
  | S i =>
      let '(start, e, matched) := st in
      if charCodeAt p i =? CHAR_FORWARD_SLASH then
        if negb matched then (Z.of_nat i + 1, e, matched)
        else basename_loop p i st
      else if e =? -1 then basename_loop p i (start, Z.of_nat i + 1, false)
      else basename_loop p i st
  end.

(** [path.basename(p)] *)
Definition basename (p : string) : string :=
  let '(start, e, _) := basename_loop p (String.length p) (0, -1, true) in
  if e =? -1 then "" else slice p start e.

End path.


(** ** The built-in [JSON] object and the values it handles *)

Module JSON.
Import Js.

Definition dquote : ascii := "034"%char.
Definition backslash : ascii := "092"%char.

Definition isDigit (c : ascii) : bool := (48 <=? code c) && (code c <=? 57).

(** The decimal digits at the head of [s], and what follows them. *)
Fixpoint spanDigits (s : string) : string * string :=
  match s with
  | EmptyString => ("", "")
  | String c r =>
      if isDigit c then let (d, r') := spanDigits r in (String c d, r') else ("", s)
  end.

(** The value of a run of decimal digits. *)
Fixpoint digitsValue (acc : Z) (s : string) : Z :=
  match s with
  | EmptyString => acc
  | String c r => digitsValue (10 * acc + (code c - 48)) r
  end.

(** The decimal digits of a natural number. *)
Definition digitsOf (n : Z) : string :=
  DecimalString.NilZero.string_of_uint (N.to_uint (Z.to_N n)).

Fixpoint zeros (n : nat) : string :=
  match n with
  | O => ""
  | S m => String "0" (zeros m)
  end.

(** Leading zeros removed, and how many there were. *)
Fixpoint stripLeadingZeros (s : string) : Z * string :=
  match s with
  | String c r =>
      if Ascii.eqb c "0" then let (z, t) := stripLeadingZeros r in (z + 1, t) else (0, s)
  | EmptyString => (0, s)
  end.

Fixpoint stripTrailingZeros (s : string) : string :=
  match s with
  | EmptyString => ""
  | String c r =>
      match stripTrailingZeros r with
      | EmptyString => if Ascii.eqb c "0" then "" else String c ""
      | t => String c t
      end
  end.

(** A Number value as [JSON.parse] can produce one. [Dec neg s n] is the
    number whose decimal digits are [s] (no zero at either end) and whose
    decimal point stands [n] places right of the first digit's left side:
    [0.s * 10^n], the [s] and [n] of Number::toString. Binary rounding is left
    out and the sign of zero is dropped; overflow to Infinity and underflow
    to zero are kept. A literal of more than 15 significant digits, or one
    in the range of the subnormal doubles, can therefore print differently
    here than on the platform: [exact] and [covered] below name the values
    and the texts on which the two agree. *)
Inductive number : Type :=
  | Zero
  | Dec (neg : bool) (s : string) (n : Z)
  | Infinity (neg : bool).

(** [0.s * 10^n] lies at or above [2^1024 - 2^970], where a double rounds to
    Infinity. *)
Definition overflows (s : string) (n : Z) : bool :=
  (309 <? n) ||
  ((n =? 309) &&
   ((2 ^ 1024 - 2 ^ 970) * 10 ^ Z.of_nat (String.length s) <=? digitsValue 0 s * 10 ^ 309)).

(** [0.s * 10^n] lies at or below [2^-1075], where a double rounds to zero. *)
Definition underflows (s : string) (n : Z) : bool :=
  (n <? -323) ||
  ((n =? -323) &&
   (digitsValue 0 s * 2 ^ 1075 <=? 10 ^ (323 + Z.of_nat (String.length s)))).

(** The Number denoted by the literal with integer digits [int], fraction
    digits [frac] and exponent [e]. *)
Definition mkNumber (neg : bool) (int frac : string) (e : Z) : number :=
  let (z, d) := stripLeadingZeros (int ++ frac) in
  match stripTrailingZeros d with
  | EmptyString => Zero
  | s =>
      let n := Z.of_nat (String.length int) + e - z in
      if overflows s n then Infinity neg
      else if underflows s n then Zero
      else Dec neg s n
  end.

(** The Number of an integer, as for [data.length]. *)
Definition ofZ (z : Z) : number :=
  mkNumber (z <? 0) (digitsOf (Z.abs z)) "" 0.

(** Number::toString *)
Definition numberToString (x : number) : string :=
  match x with
  | Zero => "0"
  | Infinity neg => if neg then "-Infinity" else "Infinity"
  | Dec neg s n =>
      let k := Z.of_nat (String.length s) in
      let body :=
        if (k <=? n) && (n <=? 21) then s ++ zeros (Z.to_nat (n - k))
        else if (0 <? n) && (n <=? 21) then
          takeS (Z.to_nat n) s ++ "." ++ dropS (Z.to_nat n) s
        else if (-6 <? n) && (n <=? 0) then "0." ++ zeros (Z.to_nat (- n)) ++ s
        else
          let e := n - 1 in
          let es := (if e <? 0 then "-" else "+") ++ digitsOf (Z.abs e) in
          if k =? 1 then s ++ "e" ++ es
          else takeS 1 s ++ "." ++ dropS 1 s ++ "e" ++ es in
      (if neg then "-" else "") ++ body
  end.

(** A JSON value. An object lists its own properties in property order. *)
Unset Elimination Schemes.
Inductive value : Type :=
  | JNull
  | JBool (b : bool)
  | JNumber (x : number)
  | JString (s : string)
  | JArray (elements : list value)
  | JObject (members : list (string * value)).
Set Elimination Schemes.

(** *** Property order of ordinary objects *)

(** An array index: the canonical decimal text of an integer below
    [2^32 - 1]. *)
Definition arrayIndex (k : string) : option Z :=
  let (d, r) := spanDigits k in
  match d, r with
  | String c t, EmptyString =>
      if Ascii.eqb c "0" && negb (falsy t) then None
      else if digitsValue 0 d <? 2 ^ 32 - 1 then Some (digitsValue 0 d) else None
  | _, _ => None
  end.

Fixpoint hasProperty (k : string) (o : list (string * value)) : bool :=
  match o with
  | [] => false
  | (k', _) :: o' => String.eqb k k' || hasProperty k o'
  end.

Fixpoint replaceProperty (k : string) (v : value) (o : list (string * value))
  : list (string * value) :=
  match o with
  | [] => []
  | (k', v') :: o' =>
      if String.eqb k k' then (k', v) :: o' else (k', v') :: replaceProperty k v o'
  end.

(** A new array-index key goes before the first key that is not a smaller
    array index. *)
Fixpoint insertIndex (i : Z) (k : string) (v : value) (o : list (string * value))
  : list (string * value) :=
  match o with
  | [] => [(k, v)]
  | (k', v') :: o' =>
      match arrayIndex k' with
      | Some j => if j <? i then (k', v') :: insertIndex i k v o' else (k, v) :: o
      | None => (k, v) :: o
      end
  end.

(** CreateDataProperty: an existing key keeps its place and takes the new
    value; a new array index is placed in ascending order before the other
    keys; any other new key comes last. *)
Definition setProperty (k : string) (v : value) (o : list (string * value))
  : list (string * value) :=
  if hasProperty k o then replaceProperty k v o
  else match arrayIndex k with
       | Some i => insertIndex i k v o
       | None => o ++ [(k, v)]
       end.

Definition objectOf (members : list (string * value)) : list (string * value) :=
  fold_left (fun o kv => setProperty (fst kv) (snd kv) o) members [].

(** *** [JSON.stringify] *)

Definition hexDigit (n : Z) : ascii :=
  if n <? 10 then ascii_of_nat (Z.to_nat (48 + n)) else ascii_of_nat (Z.to_nat (87 + n)).

(** QuoteJSONString, one code unit. *)
Definition quoteChar (c : ascii) : string :=
  let n := code c in
  if n =? 8 then String backslash "b"
  else if n =? 9 then String backslash "t"
  else if n =? 10 then String backslash "n"
  else if n =? 12 then String backslash "f"
  else if n =? 13 then String backslash "r"
  else if n =? 34 then String backslash (String dquote "")
  else if n =? 92 then String backslash (String backslash "")
  else if n <? 32 then
    String backslash (String "u" (String "0" (String "0"
      (String (hexDigit (n / 16)) (String (hexDigit (n mod 16)) "")))))
  else String c "".

Fixpoint quoteChars (s : string) : string :=
  match s with
  | EmptyString => ""
  | String c r => quoteChar c ++ quoteChars r
  end.

Definition quote (s : string) : string :=
  String dquote (quoteChars s ++ String dquote "").

(** [JSON.stringify(v)] for a value [JSON.parse] or the CSV reader built. *)
Fixpoint stringify (v : value) : string :=
  match v with
  | JNull => "null"
  | JBool b => if b then "true" else "false"
  | JNumber x =>
      match x with
      | Infinity _ => "null"
      | _ => numberToString x
      end
  | JString s => quote s
  | JArray l => "[" ++ join "," (map stringify l) ++ "]"
  | JObject m =>
      "{" ++ join "," (map (fun kv => quote (fst kv) ++ ":" ++ stringify (snd kv)) m) ++ "}"
  end.

(** *** [JSON.parse] *)

Definition isJsonWs (c : ascii) : bool :=
  let n := code c in (n =? 32) || (n =? 9) || (n =? 10) || (n =? 13).

Fixpoint skipWs (s : string) : string :=
  match s with
  | EmptyString => ""
  | String c r => if isJsonWs c then skipWs r else s
  end.

Definition hexValue (c : ascii) : option Z :=
  let n := code c in
  if (48 <=? n) && (n <=? 57) then Some (n - 48)
  else if (97 <=? n) && (n <=? 102) then Some (n - 87)
  else if (65 <=? n) && (n <=? 70) then Some (n - 55)
  else None.

(** The code unit of the escape [\uXXXX]. *)
Definition hex4 (a b c d : ascii) : option Z :=
  match hexValue a, hexValue b, hexValue c, hexValue d with
  | Some x, Some y, Some z, Some w => Some (((x * 16 + y) * 16 + z) * 16 + w)
  | _, _, _, _ => None
  end.

(** The character an escape letter stands for. *)
Definition simpleEscape (e : ascii) : option ascii :=
  let n := code e in
  if n =? 34 then Some dquote
  else if n =? 92 then Some backslash
  else if n =? 47 then Some "/"%char
  else if n =? 98 then Some "008"%char
  else if n =? 102 then Some "012"%char
  else if n =? 110 then Some "010"%char
  else if n =? 114 then Some "013"%char
  else if n =? 116 then Some "009"%char
  else None.

(** A string literal after its opening quote: the string, and what follows
    the closing quote. An escape naming a code unit of 256 or more has no
    counterpart in [string] and is refused, where the platform reads it:
    [escapesBelow256] below names the texts without such an escape. *)
Fixpoint parseChars (s : string) : option (string * string) :=
  match s with
  | EmptyString => None
  | String c r =>
      if Ascii.eqb c dquote then Some ("", r)
      else if Ascii.eqb c backslash then
        match r with
        | String e r' =>
            if Ascii.eqb e "u" then
              match r' with
              | String h1 (String h2 (String h3 (String h4 r''))) =>
                  match hex4 h1 h2 h3 h4 with
                  | Some n =>
                      if n <? 256 then
                        match parseChars r'' with
                        | Some (t, rest) => Some (String (ascii_of_nat (Z.to_nat n)) t, rest)
                        | None => None
                        end
                      else None
                  | None => None
                  end
              | _ => None
              end
            else
              match simpleEscape e with
              | Some x =>
                  match parseChars r' with
                  | Some (t, rest) => Some (String x t, rest)
                  | None => None
                  end
              | None => None
              end
        | EmptyString => None
        end
      else if code c <? 32 then None
      else
        match parseChars r with
        | Some (t, rest) => Some (String c t, rest)
        | None => None
        end
  end.

(** The sign of a number literal. *)
Definition takeSign (s : string) : bool * string :=
  match s with
  | String c r => if Ascii.eqb c "-" then (true, r) else (false, s)
  | EmptyString => (false, s)
  end.

(** The fraction of a number literal: a point and digits, or nothing. *)
Definition takeFraction (s : string) : option (string * string) :=
  match s with
  | String c r =>
      if Ascii.eqb c "." then
        let (f, rest) := spanDigits r in if falsy f then None else Some (f, rest)
      else Some ("", s)
  | EmptyString => Some ("", s)
  end.

(** The exponent of a number literal: [e] or [E], a sign and digits, or
    nothing. *)
Definition takeExponent (s : string) : option (Z * string) :=
  match s with
  | String c r =>
      if Ascii.eqb c "e" || Ascii.eqb c "E" then
        let (eneg, r1) :=
          match r with
          | String x r' =>
              if Ascii.eqb x "-" then (true, r')
              else if Ascii.eqb x "+" then (false, r')
              else (false, r)
          | EmptyString => (false, r)
          end in
        let (ds, rest) := spanDigits r1 in
        if falsy ds then None
        else Some (if eneg then - digitsValue 0 ds else digitsValue 0 ds, rest)
      else Some (0, s)
  | EmptyString => Some (0, s)
  end.

(** A number literal: [-? int frac? exp?], the integer part without a
    leading zero unless it is [0]. *)
Definition parseNumber (s : string) : option (number * string) :=
  let (neg, s1) := takeSign s in
  let (int, s2) := spanDigits s1 in
  if falsy int || (startsWith "0" int && negb (String.eqb int "0")) then None
  else
    match takeFraction s2 with
    | None => None
    | Some (f, s3) =>
        match takeExponent s3 with
        | None => None
        | Some (e, rest) => Some (mkNumber neg int f e, rest)
        end
    end.

(** [s] with the literal [lit] taken off its head. *)
Definition literal {A} (lit : string) (a : A) (s : string) : option (A * string) :=
  if startsWith lit s then Some (a, dropS (String.length lit) s) else None.

(** The recursive descent over values, array elements and object members.
    [fuel] bounds the depth of the calls: one for a value, one more for each
    element or member before it in its array or object. [parse] starts with
    more than the length of the text, and a value takes at least as many
    characters as calls. *)
Fixpoint parseValue (fuel : nat) (s : string) : option (value * string) :=
  match fuel with
  | O => None
  | S f =>
      match skipWs s with
      | EmptyString => None
      | String c r =>
          if Ascii.eqb c "n" then literal "null" JNull (String c r)
          else if Ascii.eqb c "t" then literal "true" (JBool true) (String c r)
          else if Ascii.eqb c "f" then literal "false" (JBool false) (String c r)
          else if Ascii.eqb c dquote then
            match parseChars r with
            | Some (t, rest) => Some (JString t, rest)
            | None => None
            end
          else if Ascii.eqb c "[" then
            if startsWith "]" (skipWs r) then Some (JArray [], substring1 (skipWs r))
            else
              match parseElements f r with
              | Some (l, rest) => Some (JArray l, rest)
              | None => None
              end
          else if Ascii.eqb c "{" then
            if startsWith "}" (skipWs r) then Some (JObject [], substring1 (skipWs r))
            else
              match parseMembers f r with
              | Some (m, rest) => Some (JObject (objectOf m), rest)
              | None => None
              end
          else if Ascii.eqb c "-" || isDigit c then
            match parseNumber (String c r) with
            | Some (x, rest) => Some (JNumber x, rest)
            | None => None
            end
          else None
      end
  end

with parseElements (fuel : nat) (s : string) : option (list value * string) :=
  match fuel with
  | O => None
  | S f =>
      match parseValue f s with
      | Some (v, r) =>
          if startsWith "," (skipWs r) then
            match parseElements f (substring1 (skipWs r)) with
            | Some (l, rest) => Some (v :: l, rest)
            | None => None
            end
          else if startsWith "]" (skipWs r) then Some ([v], substring1 (skipWs r))
          else None
      | None => None
      end
  end

with parseMembers (fuel : nat) (s : string) : option (list (string * value) * string) :=
  match fuel with
  | O => None
  | S f =>
      match skipWs s with
      | String c r =>
          if Ascii.eqb c dquote then
            match parseChars r with
            | Some (k, r1) =>
                if startsWith ":" (skipWs r1) then
                  match parseValue f (substring1 (skipWs r1)) with
                  | Some (v, r3) =>
                      if startsWith "," (skipWs r3) then
                        match parseMembers f (substring1 (skipWs r3)) with
                        | Some (m, rest) => Some ((k, v) :: m, rest)
                        | None => None
                        end
                      else if startsWith "}" (skipWs r3) then
                        Some ([(k, v)], substring1 (skipWs r3))
                      else None
                  | None => None
                  end
                else None
            | None => None
            end
          else None
      | EmptyString => None
      end
  end.

(** [JSON.parse(text)]: one value, white space around it, nothing else. *)
Definition parse (text : string) : Res value :=
  match parseValue (S (String.length text)) text with
  | Some (v, rest) =>
      match skipWs rest with
      | EmptyString => Ok v
      | _ => Throw (SyntaxError "Unexpected non-whitespace character after JSON")
      end
  | None => Throw (SyntaxError "Unexpected token in JSON")
  end.

(** *** The values [parse] returns *)

Fixpoint allDigits (s : string) : bool :=
  match s with
  | EmptyString => true
  | String c r => isDigit c && allDigits r
  end.

(** A [Dec] in normal form: digits only, at least one, no zero at either
    end, and within the range of the doubles. *)
Definition wfNumber (x : number) : Prop :=
  match x with
  | Dec _ s n =>
      allDigits s = true /\ s <> "" /\ startsWith "0" s = false /\
      stripTrailingZeros s = s /\ overflows s n = false /\ underflows s n = false
  | _ => True
  end.

(** Every number in normal form, every object in property order. *)
Fixpoint wf (v : value) : Prop :=
  match v with
  | JNumber x => wfNumber x
  | JArray l => fold_right (fun e P => wf e /\ P) True l
  | JObject m => objectOf m = m /\ fold_right (fun kv P => wf (snd kv) /\ P) True m
  | _ => True
  end.

Definition finiteNumber (x : number) : bool :=
  match x with
  | Infinity _ => false
  | _ => true
  end.

(** No number of the value is an infinity. *)
Fixpoint finite (v : value) : bool :=
  match v with
  | JNumber x => finiteNumber x
  | JArray l => forallb finite l
  | JObject m => forallb (fun kv => finite (snd kv)) m
  | _ => true
  end.

(** The depth of calls [parseValue] makes on the text of a value. *)
Fixpoint need (v : value) : nat :=
  match v with
  | JArray l => S (fold_right (fun e n => S (Nat.max (need e) n)) O l)
  | JObject m => S (fold_right (fun kv n => S (Nat.max (need (snd kv)) n)) O m)
  | _ => 1
  end.

(** *** Notions the properties of [parse] and [stringify] are stated with *)

(** The next character cannot continue a number literal. *)
Definition numEnd (rest : string) : bool :=
  match rest with
  | EmptyString => true
  | String c _ =>
      negb (isDigit c || Ascii.eqb c "." || Ascii.eqb c "e" || Ascii.eqb c "E")
  end.

(** The three parts of a number literal after its integer digits and sign. *)
Definition fracText (frac : string) : string :=
  if falsy frac then "" else "." ++ frac.

Definition expText (expo : option Z) : string :=
  match expo with
  | None => ""
  | Some e => "e" ++ (if e <? 0 then "-" else "+") ++ digitsOf (Z.abs e)
  end.

Definition signText (neg : bool) : string := if neg then "-" else "".

(** The characters a value's text can start with. *)
Definition isValueStart (c : ascii) : bool :=
  Ascii.eqb c "n" || Ascii.eqb c "t" || Ascii.eqb c "f" || Ascii.eqb c dquote
  || Ascii.eqb c "[" || Ascii.eqb c "{" || Ascii.eqb c "-" || isDigit c.

(** The text of [v], read with enough fuel and followed by something that
    cannot continue a number, gives [v] back. *)
Definition roundtrips (v : value) : Prop :=
  forall fuel rest,
    (need v <= fuel)%nat -> numEnd rest = true ->
    parseValue fuel (stringify v ++ rest) = Some (v, rest).

(** The depth of calls on the elements of an array and on the members of an
    object. *)
Definition needElements (l : list value) : nat :=
  fold_right (fun e n => S (Nat.max (need e) n)) O l.

Definition needMembers (m : list (string * value)) : nat :=
  fold_right (fun kv n => S (Nat.max (need (snd kv)) n)) O m.

(** The text of one member of an object. *)
Definition memberText (kv : string * value) : string :=
  quote (fst kv) ++ ":" ++ stringify (snd kv).





(** *** The texts this model reads and writes as the platform does *)

(** A number the platform holds and prints digit for digit as [number] does:
    zero, or at most 15 significant digits and a magnitude from [1e-307] up
    to [1e308]. There the nearest double is a normal one, no other decimal of
    15 digits or fewer rounds to it, and Number::toString prints the
    shortest decimal that does. *)
Definition exactNumber (x : number) : bool :=
  match x with
  | Zero => true
  | Dec _ s n => (String.length s <=? 15)%nat && (-306 <=? n) && (n <=? 308)
  | Infinity _ => false
  end.

(** Every number of the value is an [exactNumber]. *)
Fixpoint exact (v : value) : bool :=
  match v with
  | JNumber x => exactNumber x
  | JArray l => forallb exact l
  | JObject m => forallb (fun kv => exact (snd kv)) m
  | _ => true
  end.




End JSON.

(** ** The papaparse library *)

Module Papa.
Import Js JSON.

(** The options the service passes. *)
Record ParseConfig : Type := mkConfig {
  header : bool;
  skipEmptyLines : bool
}.

Record ParseMeta : Type := mkMeta {
  delimiter : string;
  linebreak : string;
  fields : list string
}.

(** What [Papa.parse] returns: with [header] each row is an object keyed by
    the header names, without it an array of its fields; each error is an
    object with [type], [code], [message] and, for a row error, [row]. *)
Record ParseResult : Type := mkResult {
  data : list value;
  errors : list value;
  meta : ParseMeta
}.

(** [s.split(sep)] for a separator of one character. *)
Fixpoint split (sep : ascii) (s : string) : list string :=
  match s with
  | EmptyString => [""]
  | String c r =>
      if Ascii.eqb c sep then "" :: split sep r
      else match split sep r with
           | x :: l => String c x :: l
           | [] => [String c ""]
           end
  end.

Definition newline : ascii := "010"%char.
Definition DefaultDelimiter : ascii := ","%char.
Definition delimitersToGuess : list ascii :=
  [","%char; "009"%char; "|"%char; ";"%char; "030"%char; "031"%char].

(** The reader's fast path, taken when the input has no quote character:
    split into lines, split each line at the delimiter. [preview] bounds the
    number of rows. *)
Definition fastParse (delim : ascii) (preview : option nat) (input : string)
  : list (list string) :=
  if falsy input then []
  else
    let rows := map (split delim) (split newline input) in
    match preview with
    | Some n => firstn n rows
    | None => rows
    end.

(** [testEmptyLine]: a row of one empty field. *)
Definition testEmptyLine (r : list string) : bool :=
  match r with
  | [f] => falsy f
  | _ => false
  end.

(** The counters of one pass of [guessDelimiter] over the preview rows:
    [delta], the sum of the field counts, the number of empty lines and the
    field count of the previous row. *)
Fixpoint guessCounters (skip : bool) (rows : list (list string))
  (acc : Z * Z * Z * option Z) : Z * Z * Z * option Z :=
  match rows with
  | [] => acc
  | r :: rest =>
      let '(delta, total, empties, prev) := acc in
      if skip && testEmptyLine r then guessCounters skip rest (delta, total, empties + 1, prev)
      else
        let fieldCount := Z.of_nat (length r) in
        match prev with
        | None => guessCounters skip rest (delta, total + fieldCount, empties, Some fieldCount)
        | Some p =>
            if 0 <? fieldCount
            then guessCounters skip rest
                   (delta + Z.abs (fieldCount - p), total + fieldCount, empties, Some fieldCount)
            else guessCounters skip rest (delta, total + fieldCount, empties, prev)
        end
  end.

(** The best candidate so far: the delimiter, its [delta] and its average
    field count as a fraction. *)
Definition Best : Type := option (ascii * Z * (Z * Z)).

Definition guessStep (skip : bool) (input : string) (best : Best) (delim : ascii) : Best :=
  let rows := fastParse delim (Some 10%nat) input in
  let '(delta, total, empties, _) := guessCounters skip rows (0, 0, 0, None) in
  let count := Z.of_nat (length rows) - empties in
  (* avgFieldCount = total / count; no row at all leaves it 0, only empty
     rows make it NaN, and neither passes the test below *)
  if (0 <? count)
     && match best with
        | None => true
        | Some (_, bestDelta, (bt, bc)) => (delta <=? bestDelta) && (bt * count <? total * bc)
        end
     && (199 * count <? 100 * total)
  then Some (delim, delta, (total, count))
  else best.

Definition guessDelimiter (skip : bool) (input : string) : option ascii :=
  match fold_left (guessStep skip input) delimitersToGuess None with
  | Some (d, _, _) => Some d
  | None => None
  end.

(** [addError(type, code, msg, row)] *)
Definition mkError (type code msg : string) (row : option Z) : value :=
  JObject ([("type", JString type); ("code", JString code); ("message", JString msg)]
           ++ match row with
              | Some i => [("row", JNumber (ofZ i))]
              | None => []
              end).

(** The object of one data row: the field of column [j] is [fields[j]], or
    [__parsed_extra] past the header, where the values pile up in an
    array. *)
Fixpoint rowObject (flds : list string) (cells : list string) (row : list (string * value))
  : list (string * value) :=
  match cells with
  | [] => row
  | c :: cells' =>
      match flds with
      | f :: flds' => rowObject flds' cells' (setProperty f (JString c) row)
      | [] =>
          let extra :=
            match find (fun kv => String.eqb (fst kv) "__parsed_extra") row with
            | Some (_, JArray l) => l
            | _ => []
            end in
          rowObject [] cells' (setProperty "__parsed_extra" (JArray (extra ++ [JString c])) row)
      end
  end.

(** The FieldMismatch error of row [i], if its length is not the header's. *)
Definition rowError (flds : list string) (i : Z) (cells : list string) : list value :=
  let expected := Z.of_nat (length flds) in
  let parsed := Z.of_nat (length cells) in
  if expected <? parsed then
    [mkError "FieldMismatch" "TooManyFields"
       ("Too many fields: expected " ++ digitsOf expected ++ " fields but parsed "
        ++ digitsOf parsed) (Some i)]
  else if parsed <? expected then
    [mkError "FieldMismatch" "TooFewFields"
       ("Too few fields: expected " ++ digitsOf expected ++ " fields but parsed "
        ++ digitsOf parsed) (Some i)]
  else [].

Fixpoint rowErrors (flds : list string) (i : Z) (rows : list (list string)) : list value :=
  match rows with
  | [] => []
  | r :: rest => rowError flds i r ++ rowErrors flds (i + 1) rest
  end.


(** [Papa.parse(input, config)] for a string input: guess the delimiter,
    read the rows, drop the empty lines, take the first row as the header and
    turn every other row into an object. The library reports what is wrong
    with the input in [errors]; it does not throw. The model follows the
    library where [modelled input] holds and the header names are distinct
    ordinary keys. *)
Definition parse (input : string) (config : ParseConfig) : Res ParseResult :=
  let guess := guessDelimiter (skipEmptyLines config) input in
  let delim := match guess with Some d => d | None => DefaultDelimiter end in
  let delimiterError :=
    match guess with
    | Some _ => []
    | None =>
        [mkError "Delimiter" "UndetectableDelimiter"
           "Unable to auto-detect delimiting character; defaulted to ','" None]
    end in
  let rows := fastParse delim None input in
  let rows := if skipEmptyLines config
              then List.filter (fun r => negb (testEmptyLine r)) rows else rows in
  if header config then
    let flds := match rows with r :: _ => r | [] => [] end in
    let body := match rows with _ :: rest => rest | [] => [] end in
    Ok (mkResult (map (fun r => JObject (rowObject flds r [])) body)
                 (delimiterError ++ rowErrors flds 0 body)
                 (mkMeta (String delim "") (String newline "") flds))
  else
    Ok (mkResult (map (fun r => JArray (map JString r)) rows)
                 delimiterError
                 (mkMeta (String delim "") (String newline "") [])).

End Papa.

(** ** DocumentParserService: format detection and text extraction *)

Module DocumentParserService.
Import Js JSON.

Inductive Encoding : Type := utf8 | base64.

(** What [pdfParse] resolves to, as far as the service reads it. *)
Record PdfData : Type := mkPdf {
  text : string;
  numpages : Z;
  info : value
}.

(** [{ content, metadata }] *)
Record ParsedDocument : Type := mkParsed {
  content : string;
  metadata : gmap string value
}.

(** The class [\w+/=] of the base64 heuristic. *)
Definition base64Char (c : ascii) : bool :=
  let n := code c in
  ((48 <=? n) && (n <=? 57)) || ((65 <=? n) && (n <=? 90)) || ((97 <=? n) && (n <=? 122))
  || (n =? 95) || (n =? 43) || (n =? 47) || (n =? 61).

Fixpoint allChars (p : ascii -> bool) (s : string) : bool :=
  match s with
  | EmptyString => true
  | String c r => p c && allChars p r
  end.

(** [content.match(/^[\w+/=]+$/)] is not null. *)
Definition looksBase64 (content : string) : bool :=
  negb (falsy content) && allChars base64Char content.

Definition lf : string := String "010" "".

(** The extensions with a case of their own in the [switch]. *)
Definition supportedExtensions : list string := [".pdf"; ".csv"; ".txt"; ".json"].

(** [new Error(`Unsupported file type: ${fileExtension}`)] *)
Definition UnsupportedFormat (fileExtension : string) : exn :=
  Error ("Unsupported file type: " ++ fileExtension).

(** [{ id, content, metadata }], an element of the array [processDirectory]
    returns. *)
Module Processed.
Record t : Type := mk {
  id : string;
  content : string;
  metadata : gmap string value
}.
End Processed.

(** [fs.Stats], as far as the service reads it. *)
Record Stats : Type := mkStats {
  isFile : bool
}.

Section Service.

(** Node's [Buffer], the pdf-parse and papaparse libraries, and
    [fs.readFile]: the platform the service runs on. *)
Context {Buffer : Type}.
Variable Buffer_from : string -> Encoding -> Buffer.
Variable Buffer_toString : Buffer -> string.
Variable pdfParse : Buffer -> Res PdfData.
Variable Papa_parse : string -> Papa.ParseConfig -> Res Papa.ParseResult.
Variable readFile : string -> Res Buffer.

(** The buffer [parseContentFromString] hands to [pdfParse]: the content
    decoded as base64 if it looks like base64, else its bytes. *)
Definition pdfBuffer (content : string) : Buffer :=
  if looksBase64 content then Buffer_from content base64
  else Buffer_from content utf8.

(** The [.csv] case of both entry points, after [Papa.parse] returned. *)
Definition csvDocument (csvData : Papa.ParseResult) (metadata : gmap string value)
  : ParsedDocument :=
  let textContent := join lf (map stringify (Papa.data csvData)) in
  let metadata := <["rowCount" := JNumber (ofZ (Z.of_nat (length (Papa.data csvData))))]> metadata in
  let metadata := <["fields" := JArray (map JString (Papa.fields (Papa.meta csvData)))]> metadata in
  let metadata := <["delimiter" := JString (Papa.delimiter (Papa.meta csvData))]> metadata in
  let metadata :=
    if (0 <? length (Papa.errors csvData))%nat
    then <["parseErrors" := JArray (Papa.errors csvData)]> metadata
    else metadata in
  mkParsed textContent metadata.

(** [parseContentFromString(content, fileName)] *)
Definition parseContentFromString (content fileName : string) : Res ParsedDocument :=
  let fileExtension := toLowerCase (path.extname fileName) in
  let metadata : gmap string value := {[ "source" := JString fileName ]} in
  if String.eqb fileExtension ".pdf" then
    match pdfParse (pdfBuffer content) with
    | Ok pdfData =>
        Ok (mkParsed (text pdfData)
              (<["info" := info pdfData]>
                 (<["pageCount" := JNumber (ofZ (numpages pdfData))]> metadata)))
    | Throw pdfError =>
        Ok (mkParsed ("Failed to parse PDF content. Error: " ++ message pdfError) metadata)
    end
  else if String.eqb fileExtension ".csv" then
    match Papa_parse content (Papa.mkConfig true true) with
    | Ok csvData => Ok (csvDocument csvData metadata)
    | Throw csvError =>
        Ok (mkParsed ("Failed to parse CSV content. Error: " ++ message csvError) metadata)
    end
  else if String.eqb fileExtension ".txt" then Ok (mkParsed content metadata)
  else if String.eqb fileExtension ".json" then
    match JSON.parse content with
    | Ok jsonData => Ok (mkParsed (stringify jsonData) metadata)
    | Throw jsonError => Ok (mkParsed content metadata)
    end
  else Ok (mkParsed content metadata).

(** [parseDocument(filePath)] *)
Definition parseDocument (filePath : string) : Res ParsedDocument :=
  let fileExtension := toLowerCase (path.extname filePath) in
  let fileName := path.basename filePath in
  let metadata : gmap string value := {[ "source" := JString fileName ]} in
  match readFile filePath with
  | Throw error => Throw error
  | Ok fileBuffer =>
      if String.eqb fileExtension ".pdf" then
        match pdfParse fileBuffer with
        | Ok data =>
            Ok (mkParsed (text data)
                  (<["info" := info data]>
                     (<["pageCount" := JNumber (ofZ (numpages data))]> metadata)))
        | Throw pdfError =>
            Ok (mkParsed ("Failed to parse PDF file. Error: " ++ message pdfError) metadata)
        end
      else if String.eqb fileExtension ".csv" then
        match Papa_parse (Buffer_toString fileBuffer) (Papa.mkConfig true true) with
        | Ok csvData => Ok (csvDocument csvData metadata)
        | Throw csvError =>
            Ok (mkParsed ("Failed to parse CSV file. Error: " ++ message csvError) metadata)
        end
      else if String.eqb fileExtension ".txt" then
        Ok (mkParsed (Buffer_toString fileBuffer) metadata)
      else if String.eqb fileExtension ".json" then
        match JSON.parse (Buffer_toString fileBuffer) with
        | Ok jsonData => Ok (mkParsed (stringify jsonData) metadata)
        | Throw error => Throw error
        end
      else Throw (UnsupportedFormat fileExtension)
  end.

(** [fs.readdir], [fs.stat] and [path.join(directoryPath, file)]. *)
Variable readdir : string -> Res (list string).
Variable stat : string -> Res Stats.
Variable path_join : string -> string -> string.

(** The [for (const file of files)] loop of [processDirectory],
    [processedDocs] being the entries pushed so far. The [try] block holds
    [fs.stat] and [parseDocument]; its [catch] logs and goes on. *)
Fixpoint processFiles (directoryPath : string) (files : list string)
  (processedDocs : list Processed.t) : list Processed.t :=
  match files with
  | [] => processedDocs
  | file :: rest =>
      let filePath := path_join directoryPath file in
      let processedDocs :=
        match stat filePath with
        | Ok st =>
            if isFile st then
              match parseDocument filePath with
              | Ok doc =>
                  (processedDocs ++ [Processed.mk filePath (content doc) (metadata doc)])%list
              | Throw error => processedDocs
              end
            else processedDocs
        | Throw error => processedDocs
        end in
      processFiles directoryPath rest processedDocs
  end.

(** [processDirectory(directoryPath)] *)
Definition processDirectory (directoryPath : string) : Res (list Processed.t) :=
  match readdir directoryPath with
  | Throw error => Throw error
  | Ok files => Ok (processFiles directoryPath files [])
  end.

(** *** Notions the properties of [processDirectory] are stated with *)

(** The path is that of a regular file which [parseDocument] reads. *)
Definition accepted (filePath : string) : bool :=
  match stat filePath with
  | Ok st => isFile st && isOk (parseDocument filePath)
  | Throw _ => false
  end.

(** The entry one turn of the loop pushes, if it pushes one. *)
Definition entryOf (filePath : string) : list Processed.t :=
  match stat filePath with
  | Ok st =>
      if isFile st then
        match parseDocument filePath with
        | Ok doc => [Processed.mk filePath (content doc) (metadata doc)]
        | Throw _ => []
        end
      else []
  | Throw _ => []
  end.

End Service.
End DocumentParserService.

(** ** Asynchronous methods over the process state *)

(** [{ id, content, metadata }], the input of the embedding service. *)
Module Document.
Record t : Type := mk {
  id : string;
  content : string;
  metadata : gmap string JSON.value
}.
End Document.

(** [PineconeRecord<DocumentMetadata>]: [{ id, values, metadata }]. *)
Module PineconeRecord.
Record t : Type := mk {
  id : string;
  values : list Q;
  metadata : gmap string JSON.value
}.
End PineconeRecord.

Module Async.
Import Js.

(** What the services share at run time: how many numbers [Math.random]
    has handed out, the [index] field of the Pinecone service, and the
    records the remote index holds. *)
Record World : Type := mkWorld {
  draws : nat;
  index : option string;
  vectors : gmap string PineconeRecord.t
}.

(** An awaited call: it resolves or rejects, and leaves a new state. *)
Definition M (A : Type) : Type := World -> Res A * World.

Definition ret {A} (a : A) : M A := fun w => (Ok a, w).

Definition throw {A} (e : exn) : M A := fun w => (Throw e, w).

Definition bind {A B} (c : M A) (k : A -> M B) : M B :=
  fun w =>
    match c w with
    | (Ok a, w') => k a w'
    | (Throw e, w') => (Throw e, w')
    end.

(** [try { c } catch (error) { handler(error) }] *)
Definition tryCatch {A} (c : M A) (handler : exn -> M A) : M A :=
  fun w =>
    match c w with
    | (Ok a, w') => (Ok a, w')
    | (Throw e, w') => handler e w'
    end.

(** A call that does not touch the state. *)
Definition lift {A} (r : Res A) : M A := fun w => (r, w).

End Async.

Notation "x <- c ;; k" := (Async.bind c (fun x => k))
  (at level 100, c at next level, right associativity).

(** ** EmbeddingService: the embedding batch builder *)

Module EmbeddingService.
Import Js Async.

Definition placeholderDimension : nat := 1536.

(** [!text || text.trim().length === 0] *)
Definition isBlank (text : string) : bool :=
  falsy text || (String.length (trim text) =? 0)%nat.

(** A document whose content [getEmbedding] sends to the model. *)
Definition nonBlank (doc : Document.t) : bool := negb (isBlank (Document.content doc)).

(** [{ id: doc.id, values: embedding, metadata: doc.metadata }] *)
Definition recordOf (doc : Document.t) (embedding : list Q) : PineconeRecord.t :=
  PineconeRecord.mk (Document.id doc) embedding (Document.metadata doc).

Section Service.

(** [Math.random()]: the number it returns at its [n]-th call. *)
Variable random : nat -> Q.

(** The placeholder body of [getEmbedding]:
    [Array(placeholderDimension).fill(0).map(() => Math.random())]. *)
Definition placeholderEmbedding (text : string) : M (list Q) :=
  fun w =>
    (Ok (map random (seq (draws w) placeholderDimension)),
     mkWorld (draws w + placeholderDimension) (index w) (vectors w)).

(** The call to the embedding model, which the [try] block of
    [getEmbedding] wraps; the repository ships [placeholderEmbedding]. *)
Variable embeddingModel : string -> M (list Q).

(** [getEmbedding(text)] *)
Definition getEmbedding (text : string) : M (list Q) :=
  if isBlank text then ret []
  else tryCatch (embeddingModel text) (fun error => throw error).

(** The [for (const doc of documents)] loop of [getEmbeddingsForDocuments],
    [embeddedDocs] being the records pushed so far. *)
Fixpoint embedLoop (documents : list Document.t) (embeddedDocs : list PineconeRecord.t)
  : M (list PineconeRecord.t) :=
  match documents with
  | [] => ret embeddedDocs
  | doc :: rest =>
      embedding <- getEmbedding (Document.content doc) ;;
      if (0 <? length embedding)%nat
      then embedLoop rest (embeddedDocs ++ [recordOf doc embedding])
      else embedLoop rest embeddedDocs
  end.

(** [getEmbeddingsForDocuments(documents)] *)
Definition getEmbeddingsForDocuments (documents : list Document.t)
  : M (list PineconeRecord.t) :=
  embedLoop documents [].

End Service.
End EmbeddingService.

(** ** PineconeService: the vector index *)

Module PineconeService.
Import Js Async.

(** The argument of [createIndex]. *)
Record CreateIndexOptions : Type := mkCreate {
  name : string;
  dimension : nat;
  metric : string;
  cloud : string;
  region : string
}.

(** The argument of the [query] of an index handle. *)
Module QueryRequest.
Record t : Type := mk {
  vector : list Q;
  topK : Z;
  filter : option (gmap string JSON.value);
  includeMetadata : bool;
  includeValues : bool
}.
End QueryRequest.

Section Service.

(** [pineconeConfig] *)
Variable apiKey : string.
Variable indexName : string.

(** The Pinecone client: [describeIndex], [createIndex] and the [upsert] of
    an index handle. *)
Variable describeIndex : string -> M unit.
Variable createIndex : CreateIndexOptions -> M unit.
Variable Index_upsert : string -> list PineconeRecord.t -> M unit.

Definition createIndexOptions : CreateIndexOptions :=
  mkCreate indexName 1536 "cosine" "aws" "us-east-1".

(** [this.index = this.pinecone.index(indexName)] *)
Definition setIndex : M unit :=
  fun w => (Ok tt, mkWorld (draws w) (Some indexName) (vectors w)).

(** [onModuleInit()] *)
Definition onModuleInit : M unit :=
  if falsy apiKey then ret tt
  else
    _ <- tryCatch (describeIndex indexName)
           (fun error =>
              tryCatch (createIndex createIndexOptions)
                (fun createError => throw createError)) ;;
    setIndex.

(** [upsertVectors(vectors)] *)
Definition upsertVectors (records : list PineconeRecord.t) : M unit :=
  fun w =>
    match index w with
    | None => (Ok tt, w)
    | Some handle =>
        tryCatch (Index_upsert handle records) (fun error => throw error) w
    end.

(** The [query] of an index handle, and what it resolves to. *)
Context {QueryResponse : Type}.
Variable Index_query : string -> QueryRequest.t -> M QueryResponse.

(** [queryVectors(vector, topK, filter)]; [None] is the [undefined] of the
    bare [return]. *)
Definition queryVectors (vector : list Q) (topK : Z)
  (filter : option (gmap string JSON.value)) : M (option QueryResponse) :=
  fun w =>
    match index w with
    | None => (Ok None, w)
    | Some handle =>
        tryCatch
          (queryResponse <-
             Index_query handle (QueryRequest.mk vector topK filter true false) ;;
           ret (Some queryResponse))
          (fun error => throw error) w
    end.

End Service.
End PineconeService.

(** ** The platform's [URL] *)

Module URL.
Import Js.

(** The components the service reads. *)
Record t : Type := mk {
  protocol : string;
  hostname : string;
  pathname : string
}.

Definition isAlpha (c : ascii) : bool :=
  let n := code c in ((65 <=? n) && (n <=? 90)) || ((97 <=? n) && (n <=? 122)).

Definition isSchemeChar (c : ascii) : bool :=
  let n := code c in
  isAlpha c || ((48 <=? n) && (n <=? 57)) || (n =? 43) || (n =? 45) || (n =? 46).

(** The scheme characters before the first colon, and what follows it. *)
Fixpoint spanScheme (s : string) : option (string * string) :=
  match s with
  | EmptyString => None
  | String c r =>
      if Ascii.eqb c ":" then Some ("", r)
      else if isSchemeChar c then
        match spanScheme r with
        | Some (sch, rest) => Some (String c sch, rest)
        | None => None
        end
      else None
  end.

(** The text before the first character satisfying [stop], and the rest. *)
Fixpoint spanUntil (stop : ascii -> bool) (s : string) : string * string :=
  match s with
  | EmptyString => ("", "")
  | String c r =>
      if stop c then ("", s)
      else let (a, b) := spanUntil stop r in (String c a, b)
  end.

(** The text after the last [sep], or all of it. *)
Fixpoint afterLast (sep : ascii) (s : string) : string :=
  match s with
  | EmptyString => ""
  | String c r =>
      if Ascii.eqb c sep && negb (includes (String sep "") r) then r
      else if includes (String sep "") (String c r) then afterLast sep r
      else String c r
  end.

Definition isSpecial (scheme : string) : bool :=
  String.eqb scheme "http" || String.eqb scheme "https" || String.eqb scheme "ws"
  || String.eqb scheme "wss" || String.eqb scheme "ftp".

(** [new URL(input)] for a locator of the shape
    [scheme://authority/path?query#fragment], the shape of the S3 locators
    this service documents ([s3://bucket/key], [https://host/key]). The
    scheme is lower-cased, and so is the host of a special scheme; user
    information and port are not part of [hostname]; the empty path of a
    special scheme is [/]. The path is kept as written: percent-encoding and
    the removal of dot segments are not modelled. A string without a scheme is
    rejected with a TypeError, as the platform does; so is, in this model,
    every other shape. *)
Definition new (input : string) : Res t :=
  match input with
  | EmptyString => Throw (TypeError "Invalid URL")
  | String c _ =>
      if isAlpha c then
        match spanScheme input with
        | Some (sch, rest) =>
            let scheme := toLowerCase sch in
            if startsWith "//" rest then
              let afterSlashes := substring1 (substring1 rest) in
              let (authority, tail) :=
                spanUntil (fun x => Ascii.eqb x "/" || Ascii.eqb x "?" || Ascii.eqb x "#")
                  afterSlashes in
              let (host, _) := spanUntil (fun x => Ascii.eqb x ":") (afterLast "@" authority) in
              let (path, _) := spanUntil (fun x => Ascii.eqb x "?" || Ascii.eqb x "#") tail in
              if isSpecial scheme then
                if falsy host then Throw (TypeError "Invalid URL")
                else Ok (mk (scheme ++ ":") (toLowerCase host)
                            (if falsy path then "/" else path))
              else Ok (mk (scheme ++ ":") host path)
            else Throw (TypeError "Invalid URL")
        | None => Throw (TypeError "Invalid URL")
        end
      else Throw (TypeError "Invalid URL")
  end.

End URL.

(** ** S3Service: object storage *)

Module S3Service.
Import Js.

(** [AWS.S3.GetObjectOutput], as far as the service reads it. *)
Record GetObjectOutput (Buffer : Type) : Type := mkOutput {
  Body : option Buffer
}.
Arguments mkOutput {Buffer} Body.
Arguments Body {Buffer} g.

(** [{ content, s3Key, originalFileName }] *)
Record Download : Type := mkDownload {
  content : string;
  s3Key : string;
  originalFileName : string
}.

(** [new Error('Could not determine S3 key from URL.')] *)
Definition InvalidLocator : exn := Error "Could not determine S3 key from URL.".

(** The [params] of [getSignedUrlPromise]. *)
Record PresignParams : Type := mkParams {
  Bucket : string;
  Key : string;
  Expires : Z;
  ContentType : string
}.

Section Service.

Context {Buffer : Type}.
Variable Buffer_toString : Buffer -> string.

(** [awsConfig.s3BucketName] and the SDK call
    [s3.getObject({ Bucket, Key }).promise()]. *)
Variable s3BucketName : string.
Variable s3_getObject : string -> string -> Res (GetObjectOutput Buffer).

(** [getObject(key)] *)
Definition getObject (key : string) : Res (GetObjectOutput Buffer) :=
  if falsy s3BucketName || String.eqb s3BucketName "your-s3-bucket-name"
  then Throw (Error "S3 service not configured for getObject operation.")
  else
    match s3_getObject s3BucketName key with
    | Ok out => Ok out
    | Throw error => Throw error
    end.

(** [getFileContentAsString(key)] *)
Definition getFileContentAsString (key : string) : Res string :=
  match getObject key with
  | Throw e => Throw e
  | Ok s3Object =>
      match Body s3Object with
      | None => Throw (Error ("S3 object Body is empty for key: " ++ key))
      | Some body => Ok (Buffer_toString body)
      end
  end.

(** The key [downloadFileContentFromUrl] assigns to [s3Key]: each of the
    three branches takes the pathname without its leading slash. *)
Definition keyOfUrl (parsedUrl : URL.t) : string :=
  let stripped :=
    if startsWith "/" (URL.pathname parsedUrl)
    then substring1 (URL.pathname parsedUrl)
    else URL.pathname parsedUrl in
  if endsWith ".s3.amazonaws.com" (URL.hostname parsedUrl)
     || includes ".s3-website" (URL.hostname parsedUrl)
  then stripped
  else if String.eqb (URL.protocol parsedUrl) "s3:" then stripped
  else stripped.

(** [downloadFileContentFromUrl(s3Url)] *)
Definition downloadFileContentFromUrl (s3Url : string) : Res Download :=
  match URL.new s3Url with
  | Throw e => Throw e
  | Ok parsedUrl =>
      let s3Key := keyOfUrl parsedUrl in
      if falsy s3Key then Throw InvalidLocator
      else
        match getFileContentAsString s3Key with
        | Throw e => Throw e
        | Ok content => Ok (mkDownload content s3Key (path.basename s3Key))
        end
  end.

(** The SDK call [s3.getSignedUrlPromise(operation, params)]. *)
Variable s3_getSignedUrlPromise : string -> PresignParams -> Res string.

(** [getPresignedUrl(fileName, fileType)] *)
Definition getPresignedUrl (fileName fileType : string) : Res string :=
  if falsy s3BucketName || String.eqb s3BucketName "your-s3-bucket-name"
  then Throw (Error "S3 service not configured for pre-signed URL generation.")
  else
    let params := mkParams s3BucketName fileName (60 * 5) fileType in
    match s3_getSignedUrlPromise "putObject" params with
    | Ok url => Ok url
    | Throw error => Throw error
    end.

End Service.
End S3Service.

(** ** KnowledgeIngestionService: the ingestion orchestrator *)

Module KnowledgeIngestionService.
Import Js Async.

(** [new Error(`Failed to generate embeddings for document: ${documentId}`)] *)
Definition EmbeddingFailed (documentId : string) : exn :=
  Error ("Failed to generate embeddings for document: " ++ documentId).

(** The error the temp-file revision of the orchestrator raised on empty
    content with empty metadata. *)
Definition EmptyDocument : exn := Error "Parsed content and metadata are empty.".

Section Service.

(** The methods of the four injected services the orchestrator calls. *)
Variable downloadFileContentFromUrl : string -> M S3Service.Download.
Variable parseContentFromString :
  string -> string -> M DocumentParserService.ParsedDocument.
Variable getEmbeddingsForDocuments : list Document.t -> M (list PineconeRecord.t).
Variable upsertVectors : list PineconeRecord.t -> M unit.

(** [parseDocumentContent(content, fileName)] *)
Definition parseDocumentContent (content fileName : string)
  : M DocumentParserService.ParsedDocument :=
  tryCatch (parseContentFromString content fileName) (fun error => throw error).

(** [generateAndStoreEmbeddings(content, metadata, documentId, s3ObjectUrl,
    originalFileName)] *)
Definition generateAndStoreEmbeddings (content : string)
  (metadata : gmap string JSON.value) (documentId s3ObjectUrl originalFileName : string)
  : M string :=
  tryCatch
    (let documentForEmbedding :=
       Document.mk documentId content
         (<["original_filename" := JSON.JString originalFileName]>
            (<["s3_url" := JSON.JString s3ObjectUrl]> metadata)) in
     vectorsToUpsert <- getEmbeddingsForDocuments [documentForEmbedding] ;;
     if (length vectorsToUpsert =? 0)%nat then throw (EmbeddingFailed documentId)
     else
       _ <- upsertVectors vectorsToUpsert ;;
       ret documentId)
    (fun error => throw error).

(** [processDocumentFromS3(s3ObjectUrl)], resolving to the [documentId]. *)
Definition processDocumentFromS3 (s3ObjectUrl : string) : M string :=
  tryCatch
    (download <- downloadFileContentFromUrl s3ObjectUrl ;;
     parsedDocument <-
       parseDocumentContent (S3Service.content download)
         (S3Service.originalFileName download) ;;
     documentId <-
       generateAndStoreEmbeddings
         (DocumentParserService.content parsedDocument)
         (DocumentParserService.metadata parsedDocument)
         (S3Service.s3Key download) s3ObjectUrl
         (S3Service.originalFileName download) ;;
     ret documentId)
    (fun error => throw error).

(** [s3Service.getPresignedUrl], and the number [Date.now()] returns at the
    one call [generatePresignedUrl] makes. *)
Variable getPresignedUrl : string -> string -> M string.
Variable Date_now : Z.

(** [generatePresignedUrl(fileName, fileType)] *)
Definition generatePresignedUrl (fileName fileType : string) : M string :=
  let s3Key :=
    "uploads/" ++ JSON.numberToString (JSON.ofZ Date_now) ++ "-" ++ fileName
    ++ "." ++ fileType in
  getPresignedUrl s3Key fileType.

End Service.
End KnowledgeIngestionService.

(** ** KnowledgeIngestionController: the two endpoints *)

Module KnowledgeIngestionController.
Import Js Async.

(** [{ message, documentId? }] *)
Module ProcessResponse.
Record t : Type := mk {
  message : string;
  documentId : option string
}.
End ProcessResponse.

Section Controller.

(** The two methods of the injected ingestion service. *)
Variable generatePresignedUrl : string -> string -> M string.
Variable processDocumentFromS3 : string -> M string.

(** [getPresignedUploadUrl({ fileName, fileType })], resolving to the [url]
    of its answer. *)
Definition getPresignedUploadUrl (fileName fileType : string) : M string :=
  url <- generatePresignedUrl fileName fileType ;;
  ret url.

(** [processS3Document({ s3ObjectUrl })] *)
Definition processS3Document (s3ObjectUrl : string) : M ProcessResponse.t :=
  tryCatch
    (documentId <- processDocumentFromS3 s3ObjectUrl ;;
     ret (ProcessResponse.mk "Document processing started." (Some documentId)))
    (fun error => ret (ProcessResponse.mk "Failed to start document processing." None)).

End Controller.
End KnowledgeIngestionController.

(** ** The application: the services wired as the modules wire them *)

Module App.
Import Js Async.

Section Wiring.

(** The platform and the remote services. *)
Context {Buffer : Type}.
Variable Buffer_from : string -> DocumentParserService.Encoding -> Buffer.
Variable Buffer_toString : Buffer -> string.
Variable pdfParse : Buffer -> Res DocumentParserService.PdfData.
Variable Papa_parse : string -> Papa.ParseConfig -> Res Papa.ParseResult.
Variable s3BucketName : string.
Variable s3_getObject : string -> string -> Res (S3Service.GetObjectOutput Buffer).
Variable random : nat -> Q.
Variable Index_upsert : string -> list PineconeRecord.t -> M unit.

(** The embedding service as shipped, on its placeholder model. *)
Definition getEmbeddingsForDocuments : list Document.t -> M (list PineconeRecord.t) :=
  EmbeddingService.getEmbeddingsForDocuments (EmbeddingService.placeholderEmbedding random).

(** [ingestionService.processDocumentFromS3(s3ObjectUrl)] *)
Definition processDocumentFromS3 (s3ObjectUrl : string) : M string :=
  KnowledgeIngestionService.processDocumentFromS3
    (fun url => lift (S3Service.downloadFileContentFromUrl Buffer_toString s3BucketName
                        s3_getObject url))
    (fun content fileName =>
       lift (DocumentParserService.parseContentFromString Buffer_from pdfParse Papa_parse
               content fileName))
    getEmbeddingsForDocuments
    (PineconeService.upsertVectors Index_upsert)
    s3ObjectUrl.

Variable s3_getSignedUrlPromise : string -> S3Service.PresignParams -> Res string.
Variable Date_now : Z.

(** [ingestionService.generatePresignedUrl(fileName, fileType)] *)
Definition generatePresignedUrl (fileName fileType : string) : M string :=
  KnowledgeIngestionService.generatePresignedUrl
    (fun key type => lift (S3Service.getPresignedUrl s3BucketName s3_getSignedUrlPromise
                             key type))
    Date_now fileName fileType.

(** The endpoint [POST knowledge-ingestion/process-document]. *)
Definition processS3Document (s3ObjectUrl : string)
  : M KnowledgeIngestionController.ProcessResponse.t :=
  KnowledgeIngestionController.processS3Document processDocumentFromS3 s3ObjectUrl.

End Wiring.
End App.

(** ** The configuration read from the environment *)

Module Config.
Import Js.

(** [process.env[name] || fallback], [env] being [process.env]. *)
Definition envOr (env : string -> option string) (name fallback : string) : string :=
  match env name with
  | Some v => if falsy v then fallback else v
  | None => fallback
  end.

Record PineconeConfig : Type := mkPinecone {
  apiKey : string;
  environment : string;
  indexName : string
}.

(** [pineconeConfig] *)
Definition pineconeConfig (env : string -> option string) : PineconeConfig :=
  mkPinecone (envOr env "PINECONE_API_KEY" "YOUR_API_KEY")
             (envOr env "PINECONE_ENVIRONMENT" "YOUR_ENVIRONMENT")
             (envOr env "PINECONE_INDEX_NAME" "your-index-name").

Record AwsConfig : Type := mkAws {
  accessKeyId : string;
  secretAccessKey : string;
  region : string;
  s3BucketName : string
}.

(** [awsConfig] *)
Definition awsConfig (env : string -> option string) : AwsConfig :=
  mkAws (envOr env "AWS_ACCESS_KEY_ID" "YOUR_AWS_ACCESS_KEY_ID")
        (envOr env "AWS_SECRET_ACCESS_KEY" "YOUR_AWS_SECRET_ACCESS_KEY")
        (envOr env "AWS_REGION" "YOUR_AWS_REGION")
        (envOr env "S3_BUCKET_NAME" "your-s3-bucket-name").

End Config.

(** ** Character classes the properties are stated with *)

Module Charset.
Import Js.

(** The characters Number::toString writes. *)
Definition numberChar (c : ascii) : bool :=
  JSON.isDigit c || includes (String c "") "-+.eInfity".

(** Any character but [x]. *)
Definition notChar (x c : ascii) : bool := negb (Ascii.eqb c x).

End Charset.

(** ** The earlier revisions the repository keeps

    [document-parser.service.ts] holds the parser from before the PDF and CSV
    libraries were installed, and [knowledge-ingestion.module.ts] the
    orchestrator that went through a temporary file. *)

Module DocumentParserServiceV1.
Import Js JSON DocumentParserService.

Section Service.

Context {Buffer : Type}.
Variable Buffer_toString : Buffer -> string.
Variable readFile : string -> Res Buffer.

(** [parseDocument(filePath)] *)
Definition parseDocument (filePath : string) : Res ParsedDocument :=
  let fileExtension := toLowerCase (path.extname filePath) in
  let fileName := path.basename filePath in
  let metadata : gmap string value := {[ "source" := JString fileName ]} in
  match readFile filePath with
  | Throw error => Throw error
  | Ok fileBuffer =>
      if String.eqb fileExtension ".pdf" then
        Ok (mkParsed "PDF parsing not implemented yet. Requires pdf-parse library." metadata)
      else if String.eqb fileExtension ".csv" then
        Ok (mkParsed "CSV parsing not implemented yet. Requires papaparse library." metadata)
      else if String.eqb fileExtension ".txt" then
        Ok (mkParsed (Buffer_toString fileBuffer) metadata)
      else if String.eqb fileExtension ".json" then
        match JSON.parse (Buffer_toString fileBuffer) with
        | Ok jsonData => Ok (mkParsed (stringify jsonData) metadata)
        | Throw error => Throw error
        end
      else Throw (UnsupportedFormat fileExtension)
  end.

End Service.
End DocumentParserServiceV1.

Module KnowledgeIngestionServiceV1.
Import Js.

(** The process state together with the files of the local disk, each with
    the text written to it. *)
Record State : Type := mkState {
  world : Async.World;
  files : gmap string string
}.

(** An awaited call over that state. *)
Definition M (A : Type) : Type := State -> Res A * State.

Definition ret {A} (a : A) : M A := fun s => (Ok a, s).

Definition throw {A} (e : exn) : M A := fun s => (Throw e, s).

Definition bind {A B} (c : M A) (k : A -> M B) : M B :=
  fun s =>
    match c s with
    | (Ok a, s') => k a s'
    | (Throw e, s') => (Throw e, s')
    end.

(** [try { c } catch (error) { handler(error) }] *)
Definition tryCatch {A} (c : M A) (handler : exn -> M A) : M A :=
  fun s =>
    match c s with
    | (Ok a, s') => (Ok a, s')
    | (Throw e, s') => handler e s'
    end.

(** [try { c } finally { finalizer }]: the outcome is that of [c], unless
    the finalizer itself throws. *)
Definition tryFinally {A} (c : M A) (finalizer : M unit) : M A :=
  fun s =>
    match c s with
    | (r, s') =>
        match finalizer s' with
        | (Ok _, s'') => (r, s'')
        | (Throw e, s'') => (Throw e, s'')
        end
    end.

(** A call that leaves the state alone, and a call of a service that works
    on the process state. *)
Definition lift {A} (r : Res A) : M A := fun s => (r, s).

Definition liftWorld {A} (c : Async.M A) : M A :=
  fun s =>
    match c (world s) with
    | (r, w') => (r, mkState w' (files s))
    end.

Local Notation "x <~ c ;; k" := (bind c (fun x => k))
  (at level 100, c at next level, right associativity).

(** What [fs] rejects with when the file is not there. *)
Definition ENOENT (syscall p : string) : exn :=
  Error ("ENOENT: no such file or directory, " ++ syscall ++ " '" ++ p ++ "'").

Section Service.

Context {Buffer : Type}.
Variable Buffer_from : string -> DocumentParserService.Encoding -> Buffer.
Variable Buffer_toString : Buffer -> string.

(** The platform: the error, if any, with which the disk refuses to write
    or to delete a path; [os.tmpdir()]; [path.join] of two segments; and the
    number [Date.now()] returns at the one call a method makes. *)
Variable writeFault : string -> option exn.
Variable unlinkFault : string -> option exn.
Variable tmpdir : string.
Variable path_join : string -> string -> string.
Variable Date_now : Z.

(** The methods of the injected services: [getObject] of the storage,
    [parseDocument] of the parser, which reads through [fs.readFile], the
    batch builder and the index. *)
Variable getObject : string -> Res (S3Service.GetObjectOutput Buffer).
Variable parseDocument :
  (string -> Res Buffer) -> string -> Res DocumentParserService.ParsedDocument.
Variable getEmbeddingsForDocuments : list Document.t -> Async.M (list PineconeRecord.t).
Variable upsertVectors : list PineconeRecord.t -> Async.M unit.
Variable getPresignedUrl : string -> string -> Async.M string.

(** [fs.writeFile(p, data)] *)
Definition writeFile (p data : string) : M unit :=
  fun s =>
    match writeFault p with
    | Some e => (Throw e, s)
    | None => (Ok tt, mkState (world s) (<[p := data]> (files s)))
    end.

(** [fs.unlink(p)] *)
Definition unlink (p : string) : M unit :=
  fun s =>
    match unlinkFault p with
    | Some e => (Throw e, s)
    | None =>
        match files s !! p with
        | Some _ => (Ok tt, mkState (world s) (delete p (files s)))
        | None => (Throw (ENOENT "unlink" p), s)
        end
    end.

(** [fs.readFile(p)] on the files [fs] *)
Definition readFile (fs : gmap string string) (p : string) : Res Buffer :=
  match fs !! p with
  | Some data => Ok (Buffer_from data DocumentParserService.utf8)
  | None => Throw (ENOENT "open" p)
  end.

(** [generatePresignedUrl(fileName, fileType)] *)
Definition generatePresignedUrl (fileName fileType : string) : Async.M string :=
  let s3Key :=
    "uploads/" ++ JSON.numberToString (JSON.ofZ Date_now) ++ "-" ++ path.basename fileName in
  getPresignedUrl s3Key fileType.

(** The key the method assigns to [s3Key]: each of the three branches takes
    the pathname without its leading slash ([bucketName] is not read
    again). *)
Definition keyOfUrl (parsedUrl : URL.t) : string :=
  let stripped :=
    if startsWith "/" (URL.pathname parsedUrl)
    then substring1 (URL.pathname parsedUrl)
    else URL.pathname parsedUrl in
  if endsWith ".s3.amazonaws.com" (URL.hostname parsedUrl)
     || includes ".s3-website" (URL.hostname parsedUrl)
  then stripped
  else if String.eqb (URL.protocol parsedUrl) "s3:" then stripped
  else stripped.

(** The path assigned to [tempFilePath]. *)
Definition tempFilePathOf (originalFileName : string) : string :=
  path_join tmpdir
    ("doc-" ++ JSON.numberToString (JSON.ofZ Date_now) ++ "-" ++ originalFileName).

(** Steps 1 and 2 of [processDocumentFromS3] up to the assignment of
    [tempFilePath]: the key and the body of the object. *)
Definition locate (s3ObjectUrl : string) : M (string * Buffer) :=
  parsedUrl <~ lift (URL.new s3ObjectUrl) ;;
  let s3Key := keyOfUrl parsedUrl in
  if falsy s3Key then throw S3Service.InvalidLocator
  else
    s3Object <~ lift (getObject s3Key) ;;
    match S3Service.Body s3Object with
    | None => throw (Error ("S3 object Body is empty for key: " ++ s3Key))
    | Some body => ret (s3Key, body)
    end.

(** The rest of the [try] block, from [fs.writeFile] on. *)
Definition parseEmbedStore (s3ObjectUrl s3Key : string) (body : Buffer)
  (originalFileName tempFilePath : string) : M string :=
  _ <~ writeFile tempFilePath (Buffer_toString body) ;;
  parsed <~ (fun s => lift (parseDocument (readFile (files s)) tempFilePath) s) ;;
  let content := DocumentParserService.content parsed in
  let metadata := DocumentParserService.metadata parsed in
  _ <~ (if falsy content || (String.length (trim content) =? 0)%nat
        then if (size metadata =? 0)%nat
             then throw KnowledgeIngestionService.EmptyDocument
             else ret tt
        else ret tt) ;;
  let documentForEmbedding :=
    Document.mk s3Key content
      (<["original_filename" := JSON.JString originalFileName]>
         (<["s3_url" := JSON.JString s3ObjectUrl]> metadata)) in
  vectorsToUpsert <~ liftWorld (getEmbeddingsForDocuments [documentForEmbedding]) ;;
  if (length vectorsToUpsert =? 0)%nat
  then throw (KnowledgeIngestionService.EmbeddingFailed s3Key)
  else
    _ <~ liftWorld (upsertVectors vectorsToUpsert) ;;
    ret s3Key.

(** The [finally] block, once [tempFilePath] is assigned. *)
Definition cleanup (tempFilePath : string) : M unit :=
  if falsy tempFilePath then ret tt
  else tryCatch (unlink tempFilePath) (fun cleanupError => ret tt).

(** [processDocumentFromS3(s3ObjectUrl)], resolving to the [documentId].
    [tempFilePath] is [null] until [locate] has returned, so a failure in
    [locate] leaves the [finally] block nothing to do. *)
Definition processDocumentFromS3 (s3ObjectUrl : string) : M string :=
  fun s =>
    match tryCatch (locate s3ObjectUrl) (fun error => throw error) s with
    | (Throw error, s') => (Throw error, s')
    | (Ok (s3Key, body), s') =>
        let originalFileName := path.basename s3Key in
        let tempFilePath := tempFilePathOf originalFileName in
        tryFinally
          (tryCatch
             (parseEmbedStore s3ObjectUrl s3Key body originalFileName tempFilePath)
             (fun error => throw error))
          (cleanup tempFilePath) s'
    end.

End Service.
End KnowledgeIngestionServiceV1.

(** ** A sample platform, on which the statements below are run *)

Module Sample.
Import Js Async.

(** Buffers that hold their text as it is. *)
Definition Buffer_from (s : string) (e : DocumentParserService.Encoding) : string := s.
Definition Buffer_toString (b : string) : string := b.

(** A PDF reader that accepts the text [%PDF] and nothing else. *)
Definition pdfParse (b : string) : Res DocumentParserService.PdfData :=
  if String.eqb b "%PDF" then Ok (DocumentParserService.mkPdf "" 0 JSON.JNull)
  else Throw (Error "Invalid PDF structure").


(** A file system with the one file [/data/notes.md]. *)
Definition readFile (p : string) : Res string :=
  if String.eqb p "/data/notes.md" then Ok "# notes"
  else Throw (Error ("ENOENT: no such file or directory, open '" ++ p ++ "'")).

(** A bucket with an empty text file and a CSV file. *)
Definition s3_getObject (bucket key : string) : Res (S3Service.GetObjectOutput string) :=
  if String.eqb key "path/to/empty.txt" then Ok (S3Service.mkOutput (Some ""))
  else if String.eqb key "path/to/file.pdf" then Ok (S3Service.mkOutput (Some "%PDF"))
  else Throw (Error "NoSuchKey").

Definition random (n : nat) : Q := 1 # 2.

(** An embedding model that rejects the text [too long]. *)
Definition embeddingModel (text : string) : M (list Q) :=
  if String.eqb text "too long" then throw (Error "maximum context length exceeded")
  else EmbeddingService.placeholderEmbedding random text.

(** A remote index that accepts every batch and stores each record under
    its id. *)
Definition Index_upsert (handle : string) (records : list PineconeRecord.t) : M unit :=
  fun w =>
    (Ok tt,
     mkWorld (draws w) (index w)
       (fold_left (fun m r => <[PineconeRecord.id r := r]> m) records (vectors w))).

(** The state after start-up: nothing drawn, the index handle set, the
    remote index empty. *)
Definition world : World := mkWorld 0 (Some "knowledge") ∅.

(** A directory [/data] with a text file, a Markdown file, a folder and a
    name that is gone when it is looked at. *)
Definition path_join (directoryPath file : string) : string := directoryPath ++ "/" ++ file.

Definition readdir (p : string) : Res (list string) :=
  if String.eqb p "/data" then Ok ["a.txt"; "notes.md"; "sub"; "gone.txt"]
  else Throw (Error ("ENOENT: no such file or directory, scandir '" ++ p ++ "'")).

Definition stat (p : string) : Res DocumentParserService.Stats :=
  if String.eqb p "/data/a.txt" || String.eqb p "/data/notes.md"
  then Ok (DocumentParserService.mkStats true)
  else if String.eqb p "/data/sub" then Ok (DocumentParserService.mkStats false)
  else Throw (Error ("ENOENT: no such file or directory, stat '" ++ p ++ "'")).

(** A disk that never refuses, and the clock at a fixed time. *)
Definition noFault (p : string) : option exn := None.

Definition Date_now : Z := 1700000000000.

(** A bucket with the one text file [notes/a.txt]. *)
Definition s3_getText (bucket key : string) : Res (S3Service.GetObjectOutput string) :=
  if String.eqb key "notes/a.txt" then Ok (S3Service.mkOutput (Some "alpha"))
  else Throw (Error "NoSuchKey").

Definition readData (p : string) : Res string :=
  if String.eqb p "/data/a.txt" then Ok "alpha"
  else if String.eqb p "/data/notes.md" then Ok "# notes"
  else Throw (Error ("ENOENT: no such file or directory, open '" ++ p ++ "'")).

End Sample.

(** * Properties *)

(** ** Strings *)

Module StringFacts.
Import Js.


Lemma eqb_false_of_neq (a b : string) : a <> b -> String.eqb a b = false.
Proof. intros H. now apply String.eqb_neq. Qed.


End StringFacts.

(** ** JSON: what is written is read back *)

Module JsonFacts.
Import Js JSON.
#[local] Arguments String.append !s1 s2 : simpl nomatch.

Lemma append_assoc (a b c : string) : (a ++ b) ++ c = a ++ (b ++ c).
Proof. induction a as [|x a IH]; simpl; [reflexivity | now rewrite IH]. Qed.

Lemma append_nil_r (a : string) : a ++ "" = a.
Proof. induction a as [|x a IH]; simpl; [reflexivity | now rewrite IH]. Qed.

Lemma length_append (a b : string) :
  String.length (a ++ b) = (String.length a + String.length b)%nat.
Proof. induction a as [|x a IH]; simpl; [reflexivity | now rewrite IH]. Qed.

Lemma numEnd_no_digit (rest : string) :
  numEnd rest = true -> spanDigits rest = ("", rest).
Proof.
  destruct rest as [|c r]; [reflexivity|]. simpl. intros H.
  apply negb_true_iff in H. repeat (apply orb_false_iff in H as [H _]).
  now rewrite H.
Qed.

Lemma spanDigits_app (d rest : string) :
  allDigits d = true -> spanDigits rest = ("", rest) ->
  spanDigits (d ++ rest) = (d, rest).
Proof.
  intros Hd Hr. induction d as [|c d IH]; simpl in *; [exact Hr|].
  apply andb_true_iff in Hd as [Hc Hd]. rewrite Hc, (IH Hd). reflexivity.
Qed.

Lemma allDigits_app (a b : string) :
  allDigits (a ++ b) = allDigits a && allDigits b.
Proof.
  induction a as [|c a IH]; simpl; [reflexivity|]. now rewrite IH, andb_assoc.
Qed.

Lemma allDigits_uint (d : Decimal.uint) : allDigits (NilEmpty.string_of_uint d) = true.
Proof. induction d; simpl; auto. Qed.

Ltac eval_code :=
  repeat match goal with
         | |- context [code ?c] =>
             let v := eval vm_compute in (code c) in change (code c) with v
         end.

Lemma digitsValue_uint_acc (d : Decimal.uint) (acc : positive) :
  digitsValue (Z.pos acc) (NilEmpty.string_of_uint d) = Z.pos (Pos.of_uint_acc d acc).
Proof.
  revert acc. induction d; intros acc;
    cbn [NilEmpty.string_of_uint digitsValue Pos.of_uint_acc]; try reflexivity;
    rewrite <- IHd; f_equal; eval_code; lia.
Qed.

Lemma digitsValue_uint (d : Decimal.uint) :
  digitsValue 0 (NilEmpty.string_of_uint d) = Z.of_N (Pos.of_uint d).
Proof.
  induction d; cbn [NilEmpty.string_of_uint digitsValue Pos.of_uint]; try reflexivity;
    eval_code; try exact IHd;
    cbn [N.of_nat Z.of_N]; rewrite <- digitsValue_uint_acc; f_equal.
Qed.

Lemma digitsOf_eq (n : Z) :
  digitsOf n = NilEmpty.string_of_uint (N.to_uint (Z.to_N n)).
Proof.
  unfold digitsOf, NilZero.string_of_uint.
  destruct (N.to_uint (Z.to_N n)) eqn:E; try reflexivity.
  destruct (Z.to_N n); simpl in E; [discriminate|].
  now apply DecimalPos.Unsigned.to_uint_nonnil in E.
Qed.

Lemma digitsOf_digits (n : Z) : allDigits (digitsOf n) = true.
Proof. rewrite digitsOf_eq. apply allDigits_uint. Qed.

Lemma digitsOf_value (n : Z) : 0 <= n -> digitsValue 0 (digitsOf n) = n.
Proof.
  intros H. rewrite digitsOf_eq, digitsValue_uint.
  change (Pos.of_uint (N.to_uint (Z.to_N n))) with (N.of_uint (N.to_uint (Z.to_N n))).
  rewrite DecimalN.Unsigned.of_to. lia.
Qed.

Lemma digitsOf_nonempty (n : Z) : falsy (digitsOf n) = false.
Proof.
  unfold digitsOf, NilZero.string_of_uint.
  destruct (N.to_uint (Z.to_N n)); reflexivity.
Qed.

(** ** Number literals *)

Lemma isDigit_not (c : ascii) (x : ascii) :
  isDigit c = true -> isDigit x = false -> Ascii.eqb c x = false.
Proof.
  intros Hc Hx. destruct (Ascii.eqb_spec c x) as [->|]; [congruence | reflexivity].
Qed.

Lemma numEnd_cases (rest : string) :
  numEnd rest = true ->
  rest = "" \/
  exists c r, rest = String c r /\ isDigit c = false /\ Ascii.eqb c "." = false /\
              Ascii.eqb c "e" = false /\ Ascii.eqb c "E" = false.
Proof.
  destruct rest as [|c r]; [now left|]. simpl. intros H. right.
  apply negb_true_iff in H.
  apply orb_false_iff in H as [H H4]. apply orb_false_iff in H as [H H3].
  apply orb_false_iff in H as [H1 H2]. eauto 10.
Qed.

Lemma spanDigits_expText (expo : option Z) (rest : string) :
  numEnd rest = true ->
  spanDigits (expText expo ++ rest) = ("", expText expo ++ rest).
Proof.
  intros H. destruct expo as [e|]; [reflexivity|]. simpl. now apply numEnd_no_digit.
Qed.

Lemma spanDigits_tail (frac : string) (expo : option Z) (rest : string) :
  numEnd rest = true ->
  spanDigits (fracText frac ++ expText expo ++ rest)
  = ("", fracText frac ++ expText expo ++ rest).
Proof.
  intros H. unfold fracText. destruct (falsy frac); [|reflexivity].
  simpl. now apply spanDigits_expText.
Qed.

Lemma takeSign_literal (neg : bool) (int tail : string) :
  allDigits int = true -> falsy int = false ->
  takeSign (signText neg ++ int ++ tail) = (neg, int ++ tail).
Proof.
  intros Hint Hne. destruct neg; [reflexivity|].
  destruct int as [|c t]; [discriminate|]. simpl in *.
  apply andb_true_iff in Hint as [Hc _].
  now rewrite (isDigit_not c "-" Hc).
Qed.

Lemma takeExponent_literal (expo : option Z) (rest : string) :
  numEnd rest = true ->
  takeExponent (expText expo ++ rest)
  = Some (match expo with Some e => e | None => 0 end, rest).
Proof.
  intros H. destruct expo as [e|].
  - cbn [expText]. destruct (e <? 0) eqn:E; simpl;
      rewrite spanDigits_app by (auto using digitsOf_digits, numEnd_no_digit);
      rewrite digitsOf_nonempty, digitsOf_value by lia; do 2 f_equal.
    + apply Z.ltb_lt in E. lia.
    + apply Z.ltb_ge in E. lia.
  - simpl.
    destruct (numEnd_cases rest H) as [->|(c & r & -> & _ & _ & He & HE)]; [reflexivity|].
    simpl. rewrite He, HE. reflexivity.
Qed.

Lemma takeFraction_literal (frac : string) (expo : option Z) (rest : string) :
  allDigits frac = true -> numEnd rest = true ->
  takeFraction (fracText frac ++ expText expo ++ rest) = Some (frac, expText expo ++ rest).
Proof.
  intros Hf H. unfold fracText. destruct (falsy frac) eqn:Ef.
  - destruct frac; [|discriminate]. simpl.
    destruct (expText expo ++ rest) as [|c r] eqn:Et; [reflexivity|].
    assert (Hdot : Ascii.eqb c "." = false).
    { destruct expo as [e|]; [injection Et as <- _; reflexivity|].
      simpl in Et. subst rest.
      destruct (numEnd_cases _ H) as [?|(c' & r' & [= <- <-] & _ & Hd & _)];
        [discriminate | exact Hd]. }
    simpl. now rewrite Hdot.
  - simpl. rewrite spanDigits_app by (auto using spanDigits_expText).
    now rewrite Ef.
Qed.

Lemma parseNumber_literal (neg : bool) (int frac : string) (expo : option Z) (rest : string) :
  allDigits int = true -> falsy int = false ->
  startsWith "0" int && negb (String.eqb int "0") = false ->
  allDigits frac = true ->
  numEnd rest = true ->
  parseNumber (signText neg ++ int ++ fracText frac ++ expText expo ++ rest)
  = Some (mkNumber neg int frac (match expo with Some e => e | None => 0 end), rest).
Proof.
  intros Hint Hne Hzero Hfrac Hrest. unfold parseNumber.
  rewrite takeSign_literal by assumption.
  rewrite spanDigits_app by (auto using spanDigits_tail).
  rewrite Hne, Hzero. cbn [orb].
  rewrite takeFraction_literal, takeExponent_literal by assumption.
  reflexivity.
Qed.

(** ** Printing a number and reading it back *)

Lemma take_drop (n : nat) (s : string) : takeS n s ++ dropS n s = s.
Proof.
  revert s. induction n as [|n IH]; intros [|c s]; simpl; try reflexivity.
  now rewrite IH.
Qed.

Lemma length_takeS (n : nat) (s : string) :
  (n <= String.length s)%nat -> String.length (takeS n s) = n.
Proof.
  revert s. induction n as [|n IH]; intros [|c s]; simpl; intros H; try reflexivity; try lia.
  rewrite IH; lia.
Qed.

Lemma allDigits_takeS (n : nat) (s : string) : allDigits s = true -> allDigits (takeS n s) = true.
Proof.
  revert s. induction n as [|n IH]; intros [|c s]; simpl; auto.
  intros H. apply andb_true_iff in H as [-> H]. now apply IH.
Qed.

Lemma allDigits_dropS (n : nat) (s : string) : allDigits s = true -> allDigits (dropS n s) = true.
Proof.
  revert s. induction n as [|n IH]; intros [|c s]; simpl; auto.
  intros H. apply andb_true_iff in H as [_ H]. now apply IH.
Qed.

Lemma allDigits_zeros (j : nat) : allDigits (zeros j) = true.
Proof. induction j; simpl; auto. Qed.

Lemma length_zeros (j : nat) : String.length (zeros j) = j.
Proof. induction j; simpl; auto. Qed.

Lemma stripLeading_none (s : string) :
  startsWith "0" s = false -> stripLeadingZeros s = (0, s).
Proof.
  destruct s as [|c s]; [reflexivity|]. cbn [startsWith stripLeadingZeros].
  rewrite (Ascii.eqb_sym c "0"). destruct (Ascii.eqb "0" c); [|reflexivity].
  destruct s; discriminate.
Qed.

Lemma stripLeading_zeros (j : nat) (s : string) :
  startsWith "0" s = false -> stripLeadingZeros (zeros j ++ s) = (Z.of_nat j, s).
Proof.
  intros H. induction j as [|j IH]; [now apply stripLeading_none|].
  cbn [zeros]. change (String "0" (zeros j) ++ s) with (String "0" (zeros j ++ s)).
  cbn [stripLeadingZeros]. rewrite IH. cbn [Ascii.eqb Bool.eqb]. f_equal. lia.
Qed.

Lemma stripTrailing_zeros (j : nat) : stripTrailingZeros (zeros j) = "".
Proof. induction j as [|j IH]; [reflexivity|]. cbn [zeros stripTrailingZeros]. now rewrite IH. Qed.

Lemma stripTrailing_app (a b : string) :
  stripTrailingZeros (a ++ b)
  = match stripTrailingZeros b with
    | EmptyString => stripTrailingZeros a
    | t => a ++ t
    end.
Proof.
  induction a as [|c a IH]; simpl.
  - destruct (stripTrailingZeros b); reflexivity.
  - rewrite IH. destruct (stripTrailingZeros b) as [|x t]; [reflexivity|].
    destruct a; reflexivity.
Qed.

Lemma startsWith0_app (s t : string) :
  falsy s = false -> startsWith "0" (s ++ t) = startsWith "0" s.
Proof. destruct s; [discriminate | reflexivity]. Qed.

Lemma startsWith0_takeS (n : nat) (s : string) :
  (0 < n)%nat -> startsWith "0" (takeS n s) = startsWith "0" s.
Proof. destruct n; [lia|]. destruct s; reflexivity. Qed.

Lemma falsy_length (s : string) : falsy s = false <-> (0 < String.length s)%nat.
Proof. destruct s; simpl; split; intros; try discriminate; try lia; reflexivity. Qed.

Lemma mkNumber_dec (neg : bool) (int frac : string) (e z : Z) (d s : string) :
  stripLeadingZeros (int ++ frac) = (z, d) ->
  stripTrailingZeros d = s -> falsy s = false ->
  overflows s (Z.of_nat (String.length int) + e - z) = false ->
  underflows s (Z.of_nat (String.length int) + e - z) = false ->
  mkNumber neg int frac e = Dec neg s (Z.of_nat (String.length int) + e - z).
Proof.
  intros Hl Ht Hs Ho Hu. unfold mkNumber. rewrite Hl, Ht.
  destruct s; [discriminate|]. now rewrite Ho, Hu.
Qed.

Lemma parseNumber_parts (text : string) (neg : bool) (int frac : string) (expo : option Z)
  (rest : string) (x : number) :
  text = signText neg ++ int ++ fracText frac ++ expText expo ->
  allDigits int = true -> falsy int = false ->
  startsWith "0" int && negb (String.eqb int "0") = false ->
  allDigits frac = true ->
  numEnd rest = true ->
  mkNumber neg int frac (match expo with Some e => e | None => 0 end) = x ->
  parseNumber (text ++ rest) = Some (x, rest).
Proof.
  intros -> Hint Hne Hzero Hfrac Hrest <-. rewrite !append_assoc.
  now apply parseNumber_literal.
Qed.

Lemma falsy_dropS (n : nat) (s : string) :
  (n < String.length s)%nat -> falsy (dropS n s) = false.
Proof.
  intros H. apply falsy_length.
  assert (L := f_equal String.length (take_drop n s)).
  rewrite length_append, length_takeS in L by lia. lia.
Qed.

(** The literal [numberToString] writes, part by part. *)
Lemma numberToString_parts (x : number) :
  wfNumber x -> finiteNumber x = true ->
  exists neg int frac expo,
    numberToString x = signText neg ++ int ++ fracText frac ++ expText expo /\
    allDigits int = true /\ falsy int = false /\
    startsWith "0" int && negb (String.eqb int "0") = false /\
    allDigits frac = true /\
    mkNumber neg int frac (match expo with Some e => e | None => 0 end) = x.
Proof.
  intros Hwf Hfin. destruct x as [|neg s n|neg]; [| |discriminate].
  - exists false, "0", "", None. repeat apply conj; reflexivity.
  - destruct Hwf as (Hd & Hne & H0 & Ht & Ho & Hu).
    assert (Hf : falsy s = false) by (destruct s; [congruence | reflexivity]).
    pose proof (proj1 (falsy_length s) Hf) as Hlen.
    cbn [numberToString]. set (k := Z.of_nat (String.length s)).
    change (if neg then "-" else "") with (signText neg).
    destruct ((k <=? n) && (n <=? 21)) eqn:C1.
    { apply andb_true_iff in C1 as [A B]. apply Z.leb_le in A, B.
      exists neg, (s ++ zeros (Z.to_nat (n - k))), "", None. repeat apply conj.
      - cbn [fracText expText falsy]. now rewrite !append_nil_r.
      - rewrite allDigits_app, Hd, allDigits_zeros; reflexivity.
      - destruct s; [discriminate | reflexivity].
      - rewrite startsWith0_app, H0 by exact Hf; reflexivity.
      - reflexivity.
      - rewrite (mkNumber_dec neg _ "" 0 0 (s ++ zeros (Z.to_nat (n - k))) s).
        + f_equal. rewrite length_append, length_zeros. lia.
        + rewrite append_nil_r. apply stripLeading_none.
          rewrite startsWith0_app, H0 by exact Hf; reflexivity.
        + rewrite stripTrailing_app, stripTrailing_zeros. exact Ht.
        + exact Hf.
        + rewrite length_append, length_zeros.
          replace (_ + 0 - 0) with n by lia. exact Ho.
        + rewrite length_append, length_zeros.
          replace (_ + 0 - 0) with n by lia. exact Hu. }
    destruct ((0 <? n) && (n <=? 21)) eqn:C2.
    { apply andb_true_iff in C2 as [A B]. apply Z.ltb_lt in A. apply Z.leb_le in B.
      apply andb_false_iff in C1 as [C1|C1]; [apply Z.leb_gt in C1 | apply Z.leb_gt in C1; lia].
      exists neg, (takeS (Z.to_nat n) s), (dropS (Z.to_nat n) s), None. repeat apply conj.
      - unfold fracText. rewrite falsy_dropS by lia. cbn [expText].
        now rewrite append_nil_r.
      - now apply allDigits_takeS.
      - apply falsy_length; rewrite length_takeS; lia.
      - rewrite startsWith0_takeS, H0 by lia; reflexivity.
      - now apply allDigits_dropS.
      - rewrite (mkNumber_dec neg _ _ 0 0 s s).
        + f_equal. rewrite length_takeS; lia.
        + rewrite take_drop. now apply stripLeading_none.
        + exact Ht.
        + exact Hf.
        + rewrite length_takeS by lia. replace (_ + 0 - 0) with n by lia. exact Ho.
        + rewrite length_takeS by lia. replace (_ + 0 - 0) with n by lia. exact Hu. }
    destruct ((-6 <? n) && (n <=? 0)) eqn:C3.
    { apply andb_true_iff in C3 as [A B]. apply Z.ltb_lt in A. apply Z.leb_le in B.
      assert (Hfr : falsy (zeros (Z.to_nat (- n)) ++ s) = false).
      { apply falsy_length. rewrite length_append. lia. }
      exists neg, "0", (zeros (Z.to_nat (- n)) ++ s), None. repeat apply conj.
      - unfold fracText. rewrite Hfr. cbn [expText]. now rewrite append_nil_r.
      - reflexivity.
      - reflexivity.
      - reflexivity.
      - rewrite allDigits_app, Hd, allDigits_zeros; reflexivity.
      - rewrite (mkNumber_dec neg "0" _ 0 (Z.of_nat (S (Z.to_nat (- n)))) s s).
        + f_equal. simpl String.length. lia.
        + change ("0" ++ zeros (Z.to_nat (- n)) ++ s) with (zeros (S (Z.to_nat (- n))) ++ s).
          now apply stripLeading_zeros.
        + exact Ht.
        + exact Hf.
        + simpl String.length. replace (_ + 0 - _) with n by lia. exact Ho.
        + simpl String.length. replace (_ + 0 - _) with n by lia. exact Hu. }
    destruct (k =? 1) eqn:C4.
    { apply Z.eqb_eq in C4.
      exists neg, s, "", (Some (n - 1)). repeat apply conj.
      - reflexivity.
      - exact Hd.
      - exact Hf.
      - rewrite H0; reflexivity.
      - reflexivity.
      - rewrite (mkNumber_dec neg s "" (n - 1) 0 s s).
        + f_equal. lia.
        + rewrite append_nil_r. now apply stripLeading_none.
        + exact Ht.
        + exact Hf.
        + replace (_ + (n - 1) - 0) with n by lia. exact Ho.
        + replace (_ + (n - 1) - 0) with n by lia. exact Hu. }
    { apply Z.eqb_neq in C4.
      exists neg, (takeS 1 s), (dropS 1 s), (Some (n - 1)). repeat apply conj.
      - unfold fracText. rewrite falsy_dropS by lia. cbn [expText].
        now rewrite !append_assoc.
      - now apply allDigits_takeS.
      - apply falsy_length; rewrite length_takeS; lia.
      - rewrite startsWith0_takeS, H0 by lia; reflexivity.
      - now apply allDigits_dropS.
      - rewrite (mkNumber_dec neg _ _ (n - 1) 0 s s).
        + f_equal. rewrite length_takeS; lia.
        + rewrite take_drop. now apply stripLeading_none.
        + exact Ht.
        + exact Hf.
        + rewrite length_takeS by lia. replace (_ + (n - 1) - 0) with n by lia. exact Ho.
        + rewrite length_takeS by lia. replace (_ + (n - 1) - 0) with n by lia. exact Hu. }
Qed.

Lemma parseNumber_toString (x : number) (rest : string) :
  wfNumber x -> finiteNumber x = true -> numEnd rest = true ->
  parseNumber (numberToString x ++ rest) = Some (x, rest).
Proof.
  intros Hwf Hfin Hrest.
  destruct (numberToString_parts x Hwf Hfin)
    as (neg & int & frac & expo & Ht & Hi & Hn & Hz & Hf & Hx).
  now apply (parseNumber_parts _ neg int frac expo).
Qed.

(** ** Quoting a string and reading it back *)

Lemma parseChars_quoteChar (c : ascii) (tail : string) :
  parseChars (quoteChar c ++ tail)
  = match parseChars tail with
    | Some (t, rest) => Some (String c t, rest)
    | None => None
    end.
Proof.
  destruct c as [[] [] [] [] [] [] [] []]; reflexivity.
Qed.

Lemma parseChars_quote (s rest : string) :
  parseChars (quoteChars s ++ String dquote rest) = Some (s, rest).
Proof.
  induction s as [|c s IH]; [reflexivity|].
  cbn [quoteChars]. rewrite append_assoc, parseChars_quoteChar, IH. reflexivity.
Qed.

(** ** Printing a value and reading it back *)

Lemma value_induction (P : value -> Prop) :
  P JNull -> (forall b, P (JBool b)) -> (forall x, P (JNumber x)) ->
  (forall s, P (JString s)) ->
  (forall l, Forall P l -> P (JArray l)) ->
  (forall m, Forall (fun kv => P (snd kv)) m -> P (JObject m)) ->
  forall v, P v.
Proof.
  intros Hn Hb Hx Hs Ha Ho.
  refine (fix rec (v : value) : P v :=
            match v with
            | JNull => Hn
            | JBool b => Hb b
            | JNumber x => Hx x
            | JString s => Hs s
            | JArray l =>
                Ha l ((fix elements (l : list value) : Forall P l :=
                         match l with
                         | [] => List.Forall_nil P
                         | e :: l' => List.Forall_cons P e l' (rec e) (elements l')
                         end) l)
            | JObject m =>
                Ho m ((fix members (m : list (string * value))
                         : Forall (fun kv => P (snd kv)) m :=
                         match m with
                         | [] => List.Forall_nil _
                         | kv :: m' => List.Forall_cons _ kv m' (rec (snd kv)) (members m')
                         end) m)
            end).
Qed.

Lemma valueStart_facts (c : ascii) :
  isValueStart c = true ->
  isJsonWs c = false /\ Ascii.eqb "]" c = false /\ Ascii.eqb "}" c = false.
Proof.
  destruct c as [[] [] [] [] [] [] [] []]; vm_compute; intros H;
    first [discriminate H | repeat split].
Qed.

Lemma parseValue_number (f : nat) (c : ascii) (r : string) :
  Ascii.eqb c "-" || isDigit c = true ->
  parseValue (S f) (String c r)
  = match parseNumber (String c r) with
    | Some (x, rest) => Some (JNumber x, rest)
    | None => None
    end.
Proof.
  destruct c as [[] [] [] [] [] [] [] []]; intros H;
    first [discriminate H | reflexivity].
Qed.

Lemma number_head (x : number) :
  wfNumber x -> finiteNumber x = true ->
  exists c t, numberToString x = String c t /\ Ascii.eqb c "-" || isDigit c = true.
Proof.
  intros Hwf Hfin.
  destruct (numberToString_parts x Hwf Hfin)
    as (neg & int & frac & expo & -> & Hi & Hn & _).
  destruct int as [|c int]; [discriminate|].
  destruct neg.
  - eexists _, _. split; reflexivity.
  - exists c. eexists. split; [reflexivity|].
    simpl in Hi. apply andb_true_iff in Hi as [-> _]. apply orb_true_r.
Qed.

Lemma stringify_head (v : value) :
  wf v -> finite v = true ->
  exists c t, stringify v = String c t /\ isValueStart c = true.
Proof.
  destruct v as [| [] | x | s | l | m]; intros Hwf Hfin;
    try (eexists _, _; split; reflexivity).
  cbn [stringify]. destruct x as [| neg s n | neg]; [| |discriminate].
  - eexists _, _; split; reflexivity.
  - destruct (number_head (Dec neg s n) Hwf Hfin) as (c & t & -> & H).
    exists c, t. split; [reflexivity|]. unfold isValueStart.
    apply orb_true_iff in H as [->| ->]; rewrite ?orb_true_r; reflexivity.
Qed.

Lemma parseElements_join (l : list value) :
  l <> [] ->
  Forall (fun v => roundtrips v) l ->
  forall fuel rest,
    (needElements l <= fuel)%nat ->
    parseElements fuel (join "," (map stringify l) ++ "]" ++ rest) = Some (l, rest).
Proof.
  induction l as [|v l IH]; [congruence|]. intros _ Hall fuel rest Hfuel.
  inversion Hall as [|? ? Hv Hl]; subst.
  cbn [needElements fold_right] in Hfuel. fold (needElements l) in Hfuel.
  destruct fuel as [|f]; [lia|]. cbn [parseElements].
  destruct l as [|v' l'].
  - cbn [map join]. rewrite Hv by (simpl; lia || reflexivity). reflexivity.
  - change (join "," (map stringify (v :: v' :: l')))
      with (stringify v ++ "," ++ join "," (map stringify (v' :: l'))).
    rewrite !append_assoc. rewrite Hv by (try reflexivity; lia).
    change (skipWs ("," ++ join "," (map stringify (v' :: l')) ++ "]" ++ rest))
      with ("," ++ join "," (map stringify (v' :: l')) ++ "]" ++ rest).
    cbn [startsWith Ascii.eqb Bool.eqb]. 
    change (substring1 ("," ++ join "," (map stringify (v' :: l')) ++ "]" ++ rest))
      with (join "," (map stringify (v' :: l')) ++ "]" ++ rest).
    rewrite IH; [reflexivity | discriminate | exact Hl | lia].
Qed.

Lemma parseMembers_join (m : list (string * value)) :
  m <> [] ->
  Forall (fun kv => roundtrips (snd kv)) m ->
  forall fuel rest,
    (needMembers m <= fuel)%nat ->
    parseMembers fuel (join "," (map memberText m) ++ "}" ++ rest) = Some (m, rest).
Proof.
  induction m as [|[k v] m IH]; [congruence|]. intros _ Hall fuel rest Hfuel.
  inversion Hall as [|? ? Hv Hl]; subst. cbn [snd] in Hv.
  cbn [needMembers fold_right snd] in Hfuel. fold (needMembers m) in Hfuel.
  destruct fuel as [|f]; [lia|].
  assert (Hstep : forall tail,
    parseMembers (S f) (memberText (k, v) ++ tail)
    = match parseValue f (stringify v ++ tail) with
      | Some (v0, r3) =>
          if startsWith "," (skipWs r3) then
            match parseMembers f (substring1 (skipWs r3)) with
            | Some (m0, rest0) => Some ((k, v0) :: m0, rest0)
            | None => None
            end
          else if startsWith "}" (skipWs r3) then Some ([(k, v0)], substring1 (skipWs r3))
          else None
      | None => None
      end).
  { intros tail. unfold memberText, quote. cbn [fst snd].
    change (String dquote (quoteChars k ++ String dquote "") ++ ":" ++ stringify v)
      with (String dquote ((quoteChars k ++ String dquote "") ++ ":" ++ stringify v)).
    change (String dquote ((quoteChars k ++ String dquote "") ++ ":" ++ stringify v) ++ tail)
      with (String dquote (((quoteChars k ++ String dquote "") ++ ":" ++ stringify v) ++ tail)).
    cbn [parseMembers skipWs]. change (isJsonWs dquote) with false. cbv iota.
    change (Ascii.eqb dquote dquote) with true. cbv iota.
    rewrite !append_assoc.
    change (String dquote "" ++ ":" ++ stringify v ++ tail)
      with (String dquote (":" ++ stringify v ++ tail)).
    rewrite parseChars_quote. reflexivity. }
  destruct m as [|kv' m'].
  - cbn [map join]. rewrite Hstep, Hv by (try reflexivity; lia). reflexivity.
  - change (join "," (map memberText ((k, v) :: kv' :: m')))
      with (memberText (k, v) ++ "," ++ join "," (map memberText (kv' :: m'))).
    rewrite !append_assoc. rewrite Hstep, Hv by (try reflexivity; lia).
    change (skipWs ("," ++ join "," (map memberText (kv' :: m')) ++ "}" ++ rest))
      with ("," ++ join "," (map memberText (kv' :: m')) ++ "}" ++ rest).
    cbn [startsWith Ascii.eqb Bool.eqb].
    change (substring1 ("," ++ join "," (map memberText (kv' :: m')) ++ "}" ++ rest))
      with (join "," (map memberText (kv' :: m')) ++ "}" ++ rest).
    rewrite IH; [reflexivity | discriminate | exact Hl | lia].
Qed.

Lemma wf_elements (l : list value) :
  fold_right (fun e P => wf e /\ P) True l <-> Forall wf l.
Proof.
  induction l as [|e l IH]; simpl; [split; constructor|].
  rewrite IH. split; [intros [? ?]; constructor; assumption | now inversion 1].
Qed.

Lemma wf_members (m : list (string * value)) :
  fold_right (fun kv P => wf (snd kv) /\ P) True m <-> Forall (fun kv => wf (snd kv)) m.
Proof.
  induction m as [|e m IH]; simpl; [split; constructor|].
  rewrite IH. split; [intros [? ?]; constructor; assumption | now inversion 1].
Qed.

Lemma finite_elements (l : list value) :
  forallb finite l = true <-> Forall (fun e => finite e = true) l.
Proof.
  induction l as [|e l IH]; simpl; [split; constructor|].
  rewrite andb_true_iff, IH. split; [intros [? ?]; constructor; assumption | now inversion 1].
Qed.

Lemma finite_members (m : list (string * value)) :
  forallb (fun kv => finite (snd kv)) m = true
  <-> Forall (fun kv => finite (snd kv) = true) m.
Proof.
  induction m as [|e m IH]; simpl; [split; constructor|].
  rewrite andb_true_iff, IH. split; [intros [? ?]; constructor; assumption | now inversion 1].
Qed.

Lemma parseValue_stringify (v : value) : wf v -> finite v = true -> roundtrips v.
Proof.
  induction v as [| b | x | s | l IH | m IH] using value_induction;
    intros Hwf Hfin fuel rest Hfuel Hrest;
    (destruct fuel as [|f]; [simpl in Hfuel; lia|]).
  - reflexivity.
  - destruct b; reflexivity.
  - cbn [wf finite] in *.
    replace (stringify (JNumber x)) with (numberToString x)
      by (destruct x; [reflexivity | reflexivity | discriminate]).
    destruct (number_head x Hwf Hfin) as (c & t & E & Hc).
    pose proof (parseNumber_toString x rest Hwf Hfin Hrest) as Hp.
    rewrite E in *. change (String c t ++ rest) with (String c (t ++ rest)) in *.
    rewrite parseValue_number by exact Hc. now rewrite Hp.
  - cbn [stringify]. unfold quote.
    change (String dquote (quoteChars s ++ String dquote "") ++ rest)
      with (String dquote ((quoteChars s ++ String dquote "") ++ rest)).
    rewrite append_assoc.
    change (String dquote "" ++ rest) with (String dquote rest).
    change (parseValue (S f) (String dquote (quoteChars s ++ String dquote rest)))
      with (match parseChars (quoteChars s ++ String dquote rest) with
            | Some (t, rest0) => Some (JString t, rest0)
            | None => None
            end).
    now rewrite parseChars_quote.
  - cbn [wf finite need] in *. fold (needElements l) in Hfuel.
    apply wf_elements in Hwf. apply finite_elements in Hfin.
    cbn [stringify].
    change (("[" ++ join "," (map stringify l) ++ "]") ++ rest)
      with (String "[" ((join "," (map stringify l) ++ "]") ++ rest)).
    rewrite append_assoc.
    change (parseValue (S f) (String "[" (join "," (map stringify l) ++ "]" ++ rest)))
      with (if startsWith "]" (skipWs (join "," (map stringify l) ++ "]" ++ rest))
            then Some (JArray [], substring1 (skipWs (join "," (map stringify l) ++ "]" ++ rest)))
            else match parseElements f (join "," (map stringify l) ++ "]" ++ rest) with
                 | Some (l0, rest0) => Some (JArray l0, rest0)
                 | None => None
                 end).
    destruct l as [|e l']; [reflexivity|].
    assert (Hhead : exists c t, join "," (map stringify (e :: l')) = String c t
                                /\ isValueStart c = true).
    { inversion Hwf; inversion Hfin; subst.
      destruct (stringify_head e) as (c & t & E & Hc); [assumption..|].
      exists c. destruct l'; cbn [map join]; rewrite E; eexists; split; eauto. }
    destruct Hhead as (c & t & E & Hc).
    destruct (valueStart_facts c Hc) as (Hws & Hb & _).
    assert (Hskip : skipWs (join "," (map stringify (e :: l')) ++ "]" ++ rest)
                    = join "," (map stringify (e :: l')) ++ "]" ++ rest).
    { rewrite E. change (String c t ++ "]" ++ rest) with (String c (t ++ "]" ++ rest)).
      cbn [skipWs]. now rewrite Hws. }
    assert (Hstart : startsWith "]" (join "," (map stringify (e :: l')) ++ "]" ++ rest) = false).
    { rewrite E. change (String c t ++ "]" ++ rest) with (String c (t ++ "]" ++ rest)).
      cbn [startsWith]. now rewrite Hb. }
    rewrite Hskip, Hstart.
    rewrite parseElements_join; [reflexivity | discriminate | | lia].
    clear - IH Hwf Hfin. induction IH as [|a l Ha _ IHl]; [constructor|].
    inversion Hwf; inversion Hfin; subst. constructor; auto.
  - cbn [wf finite need] in *. fold (needMembers m) in Hfuel.
    destruct Hwf as [Hobj Hwf].
    apply wf_members in Hwf. apply finite_members in Hfin.
    cbn [stringify]. fold (memberText).
    change (map (fun kv => quote (fst kv) ++ ":" ++ stringify (snd kv)) m)
      with (map memberText m).
    change (("{" ++ join "," (map memberText m) ++ "}") ++ rest)
      with (String "{" ((join "," (map memberText m) ++ "}") ++ rest)).
    rewrite append_assoc.
    change (parseValue (S f) (String "{" (join "," (map memberText m) ++ "}" ++ rest)))
      with (if startsWith "}" (skipWs (join "," (map memberText m) ++ "}" ++ rest))
            then Some (JObject [], substring1 (skipWs (join "," (map memberText m) ++ "}" ++ rest)))
            else match parseMembers f (join "," (map memberText m) ++ "}" ++ rest) with
                 | Some (m0, rest0) => Some (JObject (objectOf m0), rest0)
                 | None => None
                 end).
    destruct m as [|kv m']; [reflexivity|].
    assert (Hhead : exists t, join "," (map memberText (kv :: m')) = String dquote t).
    { destruct m'; cbn [map join]; unfold memberText, quote; eexists; reflexivity. }
    destruct Hhead as (t & E).
    assert (Hskip : skipWs (join "," (map memberText (kv :: m')) ++ "}" ++ rest)
                    = join "," (map memberText (kv :: m')) ++ "}" ++ rest).
    { rewrite E. reflexivity. }
    assert (Hstart : startsWith "}" (join "," (map memberText (kv :: m')) ++ "}" ++ rest) = false).
    { rewrite E. reflexivity. }
    rewrite Hskip, Hstart.
    rewrite parseMembers_join; [now rewrite Hobj | discriminate | | lia].
    clear - IH Hwf Hfin. induction IH as [|a l Ha _ IHl]; [constructor|].
    inversion Hwf; inversion Hfin; subst. constructor; auto.
Qed.

Lemma length_join_elements (l : list value) :
  Forall (fun v => (need v <= String.length (stringify v))%nat) l ->
  (needElements l <= String.length (join "," (map stringify l)) + 1)%nat.
Proof.
  induction 1 as [|v l Hv _ IH]; [simpl; lia|].
  cbn [needElements fold_right]. fold (needElements l).
  destruct l as [|v' l'].
  - cbn [map join needElements fold_right]. lia.
  - change (join "," (map stringify (v :: v' :: l')))
      with (stringify v ++ "," ++ join "," (map stringify (v' :: l'))).
    rewrite !length_append. cbn [String.length]. lia.
Qed.

Lemma length_join_members (m : list (string * value)) :
  Forall (fun kv => (need (snd kv) <= String.length (stringify (snd kv)))%nat) m ->
  (needMembers m <= String.length (join "," (map memberText m)) + 1)%nat.
Proof.
  induction 1 as [|kv m Hv _ IH]; [simpl; lia|].
  cbn [needMembers fold_right]. fold (needMembers m).
  assert (Hm : (String.length (stringify (snd kv)) <= String.length (memberText kv))%nat).
  { unfold memberText. rewrite !length_append. lia. }
  destruct m as [|kv' m'].
  - cbn [map join needMembers fold_right]. lia.
  - change (join "," (map memberText (kv :: kv' :: m')))
      with (memberText kv ++ "," ++ join "," (map memberText (kv' :: m'))).
    rewrite !length_append. cbn [String.length]. lia.
Qed.

Lemma need_length (v : value) :
  wf v -> finite v = true -> (need v <= String.length (stringify v))%nat.
Proof.
  induction v as [| b | x | s | l IH | m IH] using value_induction; intros Hwf Hfin.
  - simpl. lia.
  - destruct b; simpl; lia.
  - destruct (stringify_head (JNumber x) Hwf Hfin) as (c & t & -> & _). simpl. lia.
  - simpl. lia.
  - cbn [wf finite need stringify] in *. fold (needElements l).
    apply wf_elements in Hwf. apply finite_elements in Hfin.
    assert (H : Forall (fun v => (need v <= String.length (stringify v))%nat) l).
    { clear - IH Hwf Hfin. induction IH; [constructor|].
      inversion Hwf; inversion Hfin; subst. constructor; auto. }
    apply length_join_elements in H.
    rewrite !length_append. cbn [String.length]. lia.
  - cbn [wf finite need stringify] in *. fold (needMembers m).
    destruct Hwf as [_ Hwf]. apply wf_members in Hwf. apply finite_members in Hfin.
    change (map (fun kv => quote (fst kv) ++ ":" ++ stringify (snd kv)) m)
      with (map memberText m).
    assert (H : Forall (fun kv => (need (snd kv) <= String.length (stringify (snd kv)))%nat) m).
    { clear - IH Hwf Hfin. induction IH; [constructor|].
      inversion Hwf; inversion Hfin; subst. constructor; auto. }
    apply length_join_members in H.
    rewrite !length_append. cbn [String.length]. lia.
Qed.

(** A value in normal form without infinities is what its text parses to. *)
Lemma parse_stringify (v : value) :
  wf v -> finite v = true -> parse (stringify v) = Ok v.
Proof.
  intros Hwf Hfin. unfold parse.
  pose proof (parseValue_stringify v Hwf Hfin (S (String.length (stringify v))) "") as H.
  rewrite append_nil_r in H. rewrite H; [reflexivity | | reflexivity].
  pose proof (need_length v Hwf Hfin). lia.
Qed.

(** ** What the parser returns is in normal form *)


Lemma stripLeading_spec (s : string) :
  allDigits s = true ->
  allDigits (snd (stripLeadingZeros s)) = true /\
  startsWith "0" (snd (stripLeadingZeros s)) = false.
Proof.
  induction s as [|c s IH]; [split; reflexivity|]. intros H.
  cbn [allDigits] in H. apply andb_true_iff in H as [Hc Hs].
  cbn [stripLeadingZeros]. destruct (Ascii.eqb c "0") eqn:E.
  - destruct (stripLeadingZeros s) as [z t]. cbn [snd] in *. now apply IH.
  - cbn [snd allDigits startsWith]. rewrite Hc, Hs, (Ascii.eqb_sym "0" c), E. split; reflexivity.
Qed.

Lemma stripTrailing_digits (d : string) :
  allDigits d = true -> allDigits (stripTrailingZeros d) = true.
Proof.
  induction d as [|c d IH]; [reflexivity|]. intros H.
  cbn [allDigits] in H. apply andb_true_iff in H as [Hc Hd].
  cbn [stripTrailingZeros]. specialize (IH Hd). destruct (stripTrailingZeros d) as [|x t].
  - destruct (Ascii.eqb c "0"); [reflexivity|]. cbn [allDigits]. now rewrite Hc.
  - cbn [allDigits] in *. now rewrite Hc, IH.
Qed.

Lemma stripTrailing_idem (d : string) :
  stripTrailingZeros (stripTrailingZeros d) = stripTrailingZeros d.
Proof.
  induction d as [|c d IH]; [reflexivity|]. cbn [stripTrailingZeros].
  destruct (stripTrailingZeros d) as [|x t] eqn:E.
  - destruct (Ascii.eqb c "0") eqn:Ec; [reflexivity|].
    cbn [stripTrailingZeros]. now rewrite Ec.
  - cbn [stripTrailingZeros]. cbn [stripTrailingZeros] in IH. now rewrite IH.
Qed.

Lemma stripTrailing_head (d : string) :
  startsWith "0" d = false -> startsWith "0" (stripTrailingZeros d) = false.
Proof.
  destruct d as [|c d]; [reflexivity|]. cbn [startsWith stripTrailingZeros].
  destruct (Ascii.eqb "0" c) eqn:E; [destruct d; discriminate|]. intros _.
  destruct (stripTrailingZeros d).
  - rewrite (Ascii.eqb_sym c "0"), E. cbn [startsWith]. now rewrite E.
  - cbn [startsWith]. now rewrite E.
Qed.

Lemma mkNumber_wf (neg : bool) (int frac : string) (e : Z) :
  allDigits int = true -> allDigits frac = true -> wfNumber (mkNumber neg int frac e).
Proof.
  intros Hi Hf. unfold mkNumber.
  assert (Hd : allDigits (int ++ frac) = true) by now rewrite allDigits_app, Hi, Hf.
  destruct (stripLeading_spec _ Hd) as [Ha Hz].
  destruct (stripLeadingZeros (int ++ frac)) as [z d]. cbn [snd] in *.
  pose proof (stripTrailing_digits d Ha) as Hs.
  pose proof (stripTrailing_head d Hz) as Hh.
  pose proof (stripTrailing_idem d) as Hidem.
  destruct (stripTrailingZeros d) as [|c s]; [exact I|].
  destruct (overflows _ _) eqn:Ho; [exact I|].
  destruct (underflows _ _) eqn:Hu; [exact I|].
  repeat split; auto; discriminate.
Qed.


(** ** Array indices *)











(** ** Property order *)





















End JsonFacts.

(** ** The extractor *)

Module ExtractorFacts.
Import Js JSON DocumentParserService StringFacts.

Section Platform.

Context {Buffer : Type}.
Variable Buffer_from : string -> Encoding -> Buffer.
Variable Buffer_toString : Buffer -> string.
Variable pdfParse : Buffer -> Res PdfData.
Variable Papa_parse : string -> Papa.ParseConfig -> Res Papa.ParseResult.
Variable readFile : string -> Res Buffer.

Local Abbreviation fromString := (parseContentFromString Buffer_from pdfParse Papa_parse).
Local Abbreviation fromPath := (parseDocument Buffer_toString pdfParse Papa_parse readFile).

Lemma unsupported_eqb (ext : string) :
  ext ∉ supportedExtensions ->
  String.eqb ext ".pdf" = false /\ String.eqb ext ".csv" = false /\
  String.eqb ext ".txt" = false /\ String.eqb ext ".json" = false.
Proof.
  unfold supportedExtensions. intros H.
  repeat split; apply eqb_false_of_neq; intros ->; apply H; set_solver.
Qed.


(** The CSV case never touches [source]. *)
Lemma csvDocument_source (csvData : Papa.ParseResult) (m : gmap string value) :
  metadata (csvDocument csvData m) !! "source" = m !! "source".
Proof.
  unfold csvDocument. simpl.
  destruct (0 <? length (Papa.errors csvData))%nat;
    repeat (rewrite lookup_insert_ne by discriminate); reflexivity.
Qed.

(** C5, as the code has it. For a file name whose extension is outside the
    supported set, the path-based extractor fails hard: it reads the file
    before it looks at the extension, so it fails with the error of the read
    when the file cannot be read and with UnsupportedFormat once it has been
    read. The string-based extractor returns the raw content unchanged with
    [source] as its only metadata. *)
Theorem unsupported_extension_asymmetry (filePath fileName content : string) :
  toLowerCase (path.extname filePath) ∉ supportedExtensions ->
  toLowerCase (path.extname fileName) ∉ supportedExtensions ->
  isOk (fromPath filePath) = false /\
  (forall error, readFile filePath = Throw error -> fromPath filePath = Throw error) /\
  (forall fileBuffer, readFile filePath = Ok fileBuffer ->
     fromPath filePath = Throw (UnsupportedFormat (toLowerCase (path.extname filePath)))) /\
  fromString content fileName
    = Ok (mkParsed content {[ "source" := JString fileName ]}).
Proof.
  intros Hp Hn.
  destruct (unsupported_eqb _ Hp) as (P1 & P2 & P3 & P4).
  destruct (unsupported_eqb _ Hn) as (N1 & N2 & N3 & N4).
  unfold parseDocument, parseContentFromString.
  rewrite P1, P2, P3, P4, N1, N2, N3, N4.
  repeat split.
  - destruct (readFile filePath); reflexivity.
  - intros error ->. reflexivity.
  - intros fileBuffer ->. reflexivity.
Qed.

Lemma fromString_source (content fileName : string) (doc : ParsedDocument) :
  fromString content fileName = Ok doc ->
  metadata doc !! "source" = Some (JString fileName).
Proof.
  unfold parseContentFromString.
  repeat match goal with
         | |- context [if ?b then _ else _] => destruct b
         | |- context [match ?r with Ok _ => _ | Throw _ => _ end] => destruct r
         end;
    intros [= <-]; rewrite ?csvDocument_source; simpl;
    repeat (rewrite lookup_insert_ne by discriminate);
    apply lookup_singleton_eq.
Qed.

Lemma fromPath_source (filePath : string) (doc : ParsedDocument) :
  fromPath filePath = Ok doc ->
  metadata doc !! "source" = Some (JString (path.basename filePath)).
Proof.
  unfold parseDocument.
  repeat match goal with
         | |- context [if ?b then _ else _] => destruct b
         | |- context [match ?r with Ok _ => _ | Throw _ => _ end] => destruct r
         end;
    try discriminate;
    intros [= <-]; rewrite ?csvDocument_source; simpl;
    repeat (rewrite lookup_insert_ne by discriminate);
    apply lookup_singleton_eq.
Qed.

(** The metadata of an extracted document is never empty. *)
Lemma fromString_metadata_not_empty (content fileName : string) (doc : ParsedDocument) :
  fromString content fileName = Ok doc -> metadata doc <> ∅.
Proof.
  intros H E. apply fromString_source in H. rewrite E in H.
  rewrite lookup_empty in H. discriminate.
Qed.

(** C6. Whenever either extractor returns a document, its metadata has
    [source] set to the file name: the [fileName] argument of the
    string-based variant, the base name of the path of the path-based one. *)
Theorem metadata_source_is_file_name :
  (forall content fileName doc,
     fromString content fileName = Ok doc ->
     metadata doc !! "source" = Some (JString fileName)) /\
  (forall filePath doc,
     fromPath filePath = Ok doc ->
     metadata doc !! "source" = Some (JString (path.basename filePath))).
Proof.
  split; [exact fromString_source | exact fromPath_source].
Qed.



(** C7. On the CSV text with header [a,b] and rows [1,2] and [3,4], read by
    papaparse, the extractor counts two rows, lists the fields [a] and [b],
    and writes two lines joined by a line feed, each the JSON object of its
    row. *)
Theorem csv_example :
  exists doc,
    parseContentFromString Buffer_from pdfParse Papa.parse
      ("a,b" ++ lf ++ "1,2" ++ lf ++ "3,4") "f.csv" = Ok doc /\
    metadata doc !! "rowCount" = Some (JNumber (ofZ 2)) /\
    metadata doc !! "fields" = Some (JArray [JString "a"; JString "b"]) /\
    DocumentParserService.content doc
      = stringify (JObject [("a", JString "1"); ("b", JString "2")]) ++ lf ++
        stringify (JObject [("a", JString "3"); ("b", JString "4")]) /\
    Papa.split Papa.newline (DocumentParserService.content doc)
      = [ "{" ++ quote "a" ++ ":" ++ quote "1" ++ "," ++ quote "b" ++ ":" ++ quote "2" ++ "}";
          "{" ++ quote "a" ++ ":" ++ quote "3" ++ "," ++ quote "b" ++ ":" ++ quote "4" ++ "}" ].
Proof.
  eexists. split; [vm_compute; reflexivity|].
  repeat split; vm_compute; reflexivity.
Qed.


End Platform.

(** C5 on the sample platform: [/data/notes.md] is read and refused,
    [notes.md] as a string passes through. *)
Lemma unsupported_extension_witness :
  isOk (parseDocument Sample.Buffer_toString Sample.pdfParse Papa.parse Sample.readFile
          "/data/notes.md") = false /\
  (forall error, Sample.readFile "/data/notes.md" = Throw error ->
     parseDocument Sample.Buffer_toString Sample.pdfParse Papa.parse Sample.readFile
       "/data/notes.md" = Throw error) /\
  (forall fileBuffer, Sample.readFile "/data/notes.md" = Ok fileBuffer ->
     parseDocument Sample.Buffer_toString Sample.pdfParse Papa.parse Sample.readFile
       "/data/notes.md" = Throw (UnsupportedFormat ".md")) /\
  parseContentFromString Sample.Buffer_from Sample.pdfParse Papa.parse "# notes" "notes.md"
    = Ok (mkParsed "# notes" {[ "source" := JString "notes.md" ]}).
Proof.
  apply (unsupported_extension_asymmetry Sample.Buffer_from Sample.Buffer_toString
           Sample.pdfParse Papa.parse Sample.readFile "/data/notes.md" "notes.md" "# notes");
    apply (bool_decide_unpack _); vm_compute; exact I.
Defined.

(** C5 as the specification words it fails on a file that cannot be read:
    [/data/missing.md] has an extension outside the supported set and is not
    on the sample disk, so the path-based extractor fails with the error of
    the read, which is not UnsupportedFormat. *)
Lemma unreadable_file_is_not_unsupported_format :
  toLowerCase (path.extname "/data/missing.md") = ".md" /\
  (".md" ∉ supportedExtensions) /\
  parseDocument Sample.Buffer_toString Sample.pdfParse Papa.parse Sample.readFile
    "/data/missing.md"
  = Throw (Error "ENOENT: no such file or directory, open '/data/missing.md'") /\
  Error "ENOENT: no such file or directory, open '/data/missing.md'"
  <> UnsupportedFormat ".md".
Proof.
  split; [vm_compute; reflexivity|].
  split; [apply (bool_decide_unpack _); vm_compute; exact I|].
  split; [vm_compute; reflexivity | discriminate].
Qed.





End ExtractorFacts.

(** ** The embedding batch builder *)

Module EmbeddingFacts.
Import Js Async EmbeddingService.

Section Provider.

Variable embeddingModel : string -> M (list Q).

Local Abbreviation loop := (embedLoop embeddingModel).
Local Abbreviation embedBatch := (getEmbeddingsForDocuments embeddingModel).

Lemma embedLoop_blank (doc : Document.t) (rest : list Document.t) acc w :
  nonBlank doc = false -> loop (doc :: rest) acc w = loop rest acc w.
Proof.
  unfold nonBlank. intros H. apply negb_false_iff in H.
  simpl. unfold getEmbedding, bind, ret. rewrite H. reflexivity.
Qed.

Lemma embedLoop_filter (docs : list Document.t) acc w :
  loop docs acc w = loop (List.filter nonBlank docs) acc w.
Proof.
  revert acc w. induction docs as [|doc rest IH]; intros acc w; [reflexivity|].
  cbn [List.filter]. destruct (nonBlank doc) eqn:E.
  - simpl. unfold bind. destruct (getEmbedding embeddingModel (Document.content doc) w) as [[l|e] w'];
      [|reflexivity].
    destruct (0 <? length l)%nat; apply IH.
  - rewrite embedLoop_blank by exact E. apply IH.
Qed.

Lemma embedLoop_app (pre post : list Document.t) acc w :
  loop (pre ++ post) acc w
  = match loop pre acc w with
    | (Ok acc', w') => loop post acc' w'
    | (Throw e, w') => (Throw e, w')
    end.
Proof.
  revert acc w. induction pre as [|doc pre IH]; intros acc w; [reflexivity|].
  simpl. unfold bind.
  destruct (getEmbedding embeddingModel (Document.content doc) w) as [[l|e] w']; [|reflexivity].
  destruct (0 <? length l)%nat; apply IH.
Qed.

(** C4. The batch builder gives the same outcome with the blank documents
    taken out, so they produce no record, and a batch of blank documents
    gives the empty list without calling the model. When the model fails on
    a document the batch rejects with the model's error, in the state the
    failed call left: no record is returned and no later document is
    embedded. *)
Theorem embedBatch_skips_blank_and_aborts :
  (forall docs w, embedBatch docs w = embedBatch (List.filter nonBlank docs) w) /\
  (forall docs w, forallb (fun d => isBlank (Document.content d)) docs = true ->
     embedBatch docs w = (Ok [], w)) /\
  (forall pre doc post w records w1 e w2,
     embedBatch pre w = (Ok records, w1) ->
     nonBlank doc = true ->
     embeddingModel (Document.content doc) w1 = (Throw e, w2) ->
     embedBatch (pre ++ doc :: post) w = (Throw e, w2)).
Proof.
  unfold getEmbeddingsForDocuments. repeat split.
  - intros docs w. apply embedLoop_filter.
  - intros docs w H. rewrite embedLoop_filter.
    replace (List.filter nonBlank docs) with (@nil Document.t); [reflexivity|].
    induction docs as [|d docs IH]; [reflexivity|].
    simpl in H. apply andb_true_iff in H as [Hd Hr].
    cbn [List.filter]. unfold nonBlank at 1. rewrite Hd. simpl. apply IH, Hr.
  - intros pre doc post w records w1 e w2 Hpre Hdoc Hfail.
    rewrite embedLoop_app, Hpre. simpl. unfold bind, getEmbedding.
    unfold nonBlank in Hdoc. apply negb_true_iff in Hdoc. rewrite Hdoc.
    unfold tryCatch. rewrite Hfail. reflexivity.
Qed.

End Provider.

(** C4 on the sample model: a blank document is dropped, and the failure on
    the second document of three rejects the batch before the third. *)
Lemma embedBatch_witness :
  getEmbeddingsForDocuments Sample.embeddingModel
    [Document.mk "blank" "   " ∅] Sample.world = (Ok [], Sample.world) /\
  getEmbeddingsForDocuments Sample.embeddingModel
    ([Document.mk "a" "first" ∅] ++ Document.mk "b" "too long" ∅ :: [Document.mk "c" "third" ∅])
    Sample.world
  = (Throw (Error "maximum context length exceeded"), mkWorld 1536 (Some "knowledge") ∅).
Proof.
  destruct (embedBatch_skips_blank_and_aborts Sample.embeddingModel) as (_ & Hblank & Habort).
  split.
  - apply Hblank. reflexivity.
  - eapply Habort; [vm_compute; reflexivity | reflexivity | reflexivity].
Defined.

(** The shipped loop, run from any list of earlier records: it resolves,
    adding one record of 1536 numbers for each document that is not blank. *)
Lemma placeholder_loop (random : nat -> Q) (docs : list Document.t) acc w :
  exists records w',
    embedLoop (placeholderEmbedding random) docs acc w = (Ok (acc ++ records)%list, w') /\
    Forall2 (fun r d =>
               PineconeRecord.id r = Document.id d /\
               PineconeRecord.metadata r = Document.metadata d /\
               length (PineconeRecord.values r) = 1536%nat)
            records (List.filter nonBlank docs).
Proof.
  revert acc w. induction docs as [|doc rest IH]; intros acc w.
  - exists [], w. rewrite app_nil_r. split; [reflexivity | constructor].
  - cbn [List.filter]. destruct (nonBlank doc) eqn:E.
    + unfold nonBlank in E. apply negb_true_iff in E.
      cbn [embedLoop]. unfold bind, getEmbedding. rewrite E.
      unfold tryCatch, placeholderEmbedding at 1.
      set (v := map random (seq (draws w) placeholderDimension)).
      assert (Hv : length v = 1536%nat).
      { unfold v. rewrite length_map, length_seq. reflexivity. }
      rewrite Hv. cbn [Nat.ltb Nat.leb].
      destruct (IH (acc ++ [recordOf doc v])%list
                   (mkWorld (draws w + placeholderDimension) (index w) (vectors w)))
        as (records & w' & Hrun & Hrec).
      exists (recordOf doc v :: records), w'. split.
      * rewrite Hrun. f_equal. f_equal. now rewrite <- app_assoc.
      * constructor; [|exact Hrec]. split; [reflexivity|]. split; [reflexivity|exact Hv].
    + rewrite embedLoop_blank by exact E. apply IH.
Qed.

(** C9. The batch builder as shipped resolves on every batch; each record it
    returns carries 1536 numbers, the dimension the index is created with,
    so any two records of any two batches have vectors of one length; and
    the records are those of the documents that are not blank, in order, each
    with the id and the metadata of its document. *)
Theorem records_have_index_dimension (random : nat -> Q) (indexName : string) :
  (forall docs w, exists records w',
     getEmbeddingsForDocuments (placeholderEmbedding random) docs w = (Ok records, w') /\
     Forall (fun r => length (PineconeRecord.values r)
                      = PineconeService.dimension (PineconeService.createIndexOptions indexName))
            records /\
     Forall2 (fun r d => PineconeRecord.id r = Document.id d /\
                         PineconeRecord.metadata r = Document.metadata d)
             records (List.filter nonBlank docs)) /\
  (forall docs1 w1 docs2 w2 records1 w1' records2 w2' r1 r2,
     getEmbeddingsForDocuments (placeholderEmbedding random) docs1 w1 = (Ok records1, w1') ->
     getEmbeddingsForDocuments (placeholderEmbedding random) docs2 w2 = (Ok records2, w2') ->
     In r1 records1 -> In r2 records2 ->
     length (PineconeRecord.values r1) = length (PineconeRecord.values r2)).
Proof.
  assert (A : forall docs w, exists records w',
     getEmbeddingsForDocuments (placeholderEmbedding random) docs w = (Ok records, w') /\
     Forall (fun r => length (PineconeRecord.values r) = 1536%nat) records /\
     Forall2 (fun r d => PineconeRecord.id r = Document.id d /\
                         PineconeRecord.metadata r = Document.metadata d)
             records (List.filter nonBlank docs)).
  { intros docs w. destruct (placeholder_loop random docs [] w) as (records & w' & Hrun & Hrec).
    exists records, w'. split; [exact Hrun|]. split.
    - clear Hrun. induction Hrec as [|r d rs ds (_ & _ & Hl) _ IH]; constructor; assumption.
    - clear Hrun. induction Hrec as [|r d rs ds (Hi & Hm & _) _ IH]; constructor; auto. }
  split; [exact A|].
  intros docs1 w1 docs2 w2 records1 w1' records2 w2' r1 r2 H1 H2 I1 I2.
  destruct (A docs1 w1) as (x1 & y1 & E1 & F1 & _).
  destruct (A docs2 w2) as (x2 & y2 & E2 & F2 & _).
  rewrite H1 in E1. rewrite H2 in E2. injection E1 as <- <-. injection E2 as <- <-.
  rewrite List.Forall_forall in F1, F2.
  rewrite (F1 r1 I1), (F2 r2 I2). reflexivity.
Qed.

End EmbeddingFacts.

(** ** The vector index *)

Module PineconeFacts.
Import Js Async PineconeService.

(** C10. With the index handle not initialised, [upsertVectors] resolves
    without a value and leaves the state as it was: the remote index is not
    called and holds what it held. A successful upsert resolves without a
    value too, so the result does not tell the two apart. *)
Theorem upsertVectors_uninitialised_is_silent
  (Index_upsert : string -> list PineconeRecord.t -> M unit) :
  (forall records w, index w = None ->
     upsertVectors Index_upsert records w = (Ok tt, w)) /\
  (forall records w handle w',
     index w = Some handle ->
     Index_upsert handle records w = (Ok tt, w') ->
     fst (upsertVectors Index_upsert records w)
     = fst (upsertVectors Index_upsert records (mkWorld (draws w) None (vectors w)))).
Proof.
  split.
  - intros records w H. unfold upsertVectors. rewrite H. reflexivity.
  - intros records w handle w' H Hup. unfold upsertVectors, tryCatch.
    rewrite H, Hup. reflexivity.
Qed.

(** C10 on the sample platform: the same batch is stored when the handle is
    there, dropped when it is not, and answers alike. *)
Lemma upsertVectors_witness :
  upsertVectors Sample.Index_upsert [PineconeRecord.mk "k" [1 # 2] ∅] (mkWorld 0 None ∅)
    = (Ok tt, mkWorld 0 None ∅) /\
  fst (upsertVectors Sample.Index_upsert [PineconeRecord.mk "k" [1 # 2] ∅] Sample.world) = Ok tt /\
  vectors (snd (upsertVectors Sample.Index_upsert [PineconeRecord.mk "k" [1 # 2] ∅] Sample.world))
    !! "k" = Some (PineconeRecord.mk "k" [1 # 2] ∅).
Proof.
  split; [|split].
  - apply (proj1 (upsertVectors_uninitialised_is_silent Sample.Index_upsert)). reflexivity.
  - reflexivity.
  - vm_compute. reflexivity.
Defined.

End PineconeFacts.

(** ** Locators *)

Module LocatorFacts.
Import Js S3Service.

Section Storage.

Context {Buffer : Type}.
Variable Buffer_toString : Buffer -> string.
Variable s3BucketName : string.
Variable s3_getObject : string -> string -> Res (GetObjectOutput Buffer).

Local Abbreviation download :=
  (downloadFileContentFromUrl Buffer_toString s3BucketName s3_getObject).
Local Abbreviation fetch :=
  (getFileContentAsString Buffer_toString s3BucketName s3_getObject).

(** C2. Each of the three locator shapes is parsed to the key
    [path/to/file.pdf], which is then the key fetched and the key returned;
    and every locator that parses to a URL with no key in it is rejected with
    InvalidLocator, before storage is asked. *)
Theorem locator_parsing :
  (forall s3Url,
     In s3Url ["https://bucket.s3.us-east-1.domain/path/to/file.pdf";
               "s3://bucket/path/to/file.pdf";
               "https://custom.domain/path/to/file.pdf"] ->
     exists parsedUrl,
       URL.new s3Url = Ok parsedUrl /\
       keyOfUrl parsedUrl = "path/to/file.pdf" /\
       download s3Url
       = match fetch "path/to/file.pdf" with
         | Ok content => Ok (mkDownload content "path/to/file.pdf" "file.pdf")
         | Throw e => Throw e
         end) /\
  (forall s3Url parsedUrl,
     URL.new s3Url = Ok parsedUrl ->
     keyOfUrl parsedUrl = "" ->
     download s3Url = Throw InvalidLocator).
Proof.
  split.
  - intros s3Url H. simpl in H.
    destruct H as [<-|[<-|[<-|[]]]]; eexists;
      (split; [vm_compute; reflexivity|]); (split; [vm_compute; reflexivity|]);
      unfold downloadFileContentFromUrl;
      match goal with
      | |- context [URL.new ?u] =>
          let r := eval vm_compute in (URL.new u) in
          change (URL.new u) with r
      end;
      cbv beta iota;
      match goal with
      | |- context [keyOfUrl ?u] =>
          let r := eval vm_compute in (keyOfUrl u) in
          change (keyOfUrl u) with r
      end;
      cbn [falsy]; destruct (fetch "path/to/file.pdf"); reflexivity.
  - intros s3Url parsedUrl Hurl Hkey. unfold downloadFileContentFromUrl.
    rewrite Hurl, Hkey. reflexivity.
Qed.

(** A locator that is a bare key is not a URL: the platform rejects it
    before any key is looked for. *)
Lemma bare_key_is_not_a_url :
  download "path/to/file.pdf" = Throw (TypeError "Invalid URL").
Proof. reflexivity. Qed.

End Storage.

(** C2 on the sample bucket: the scheme-prefixed locator is fetched under
    its key, a locator with no path is rejected. *)
Lemma locator_parsing_witness :
  downloadFileContentFromUrl Sample.Buffer_toString "docs" Sample.s3_getObject
    "s3://bucket/path/to/file.pdf"
    = Ok (mkDownload "%PDF" "path/to/file.pdf" "file.pdf") /\
  downloadFileContentFromUrl Sample.Buffer_toString "docs" Sample.s3_getObject
    "https://bucket.s3.amazonaws.com/" = Throw InvalidLocator.
Proof.
  destruct (locator_parsing Sample.Buffer_toString "docs" Sample.s3_getObject) as [Hkey Hnone].
  split.
  - destruct (Hkey "s3://bucket/path/to/file.pdf") as (u & _ & _ & ->);
      [simpl; auto | reflexivity].
  - eapply Hnone; reflexivity.
Defined.

End LocatorFacts.

(** ** The orchestrator *)

Module IngestionFacts.
Import Js Async KnowledgeIngestionService.

Section Collaborators.

Variable downloadFileContentFromUrl : string -> M S3Service.Download.
Variable parseContentFromString :
  string -> string -> M DocumentParserService.ParsedDocument.
Variable upsertVectors : list PineconeRecord.t -> M unit.
Variable random : nat -> Q.

Local Abbreviation ingest :=
  (processDocumentFromS3 downloadFileContentFromUrl parseContentFromString
     (EmbeddingService.getEmbeddingsForDocuments
        (EmbeddingService.placeholderEmbedding random))
     upsertVectors).


End Collaborators.



End IngestionFacts.

(** ** The characters of the texts the services build *)

Module TextFacts.
Import Js JSON DocumentParserService Charset.

Lemma allChars_app (p : ascii -> bool) (a b : string) :
  allChars p (a ++ b) = allChars p a && allChars p b.
Proof.
  induction a as [|c a IH]; [reflexivity|].
  change (String c a ++ b) with (String c (a ++ b)). cbn [allChars].
  now rewrite IH, andb_assoc.
Qed.

Lemma allChars_impl (p q : ascii -> bool) (s : string) :
  (forall c, p c = true -> q c = true) -> allChars p s = true -> allChars q s = true.
Proof.
  intros Hpq. induction s as [|c s IH]; [reflexivity|]. cbn [allChars].
  intros H. apply andb_true_iff in H as [Hc Hs]. now rewrite (Hpq c Hc), IH.
Qed.

Lemma allDigits_allChars (s : string) : allChars isDigit s = allDigits s.
Proof. induction s as [|c s IH]; [reflexivity|]. cbn [allChars allDigits]. now rewrite IH. Qed.

Lemma digits_numberChar (s : string) : allDigits s = true -> allChars numberChar s = true.
Proof.
  rewrite <- allDigits_allChars. apply allChars_impl.
  intros c H. unfold numberChar. now rewrite H.
Qed.

(** No character of [s] is [x] exactly when [s] does not include [x]. *)
Lemma notChar_includes (x : ascii) (s : string) :
  allChars (notChar x) s = negb (includes (String x "") s).
Proof.
  induction s as [|c s IH]; [reflexivity|].
  cbn [allChars includes startsWith]. rewrite IH. unfold notChar.
  rewrite (Ascii.eqb_sym c x). now destruct (Ascii.eqb x c).
Qed.

(** Number::toString writes digits, a sign, a point, an exponent mark or
    the letters of Infinity. *)
Lemma numberToString_chars (x : number) :
  wfNumber x -> allChars numberChar (numberToString x) = true.
Proof.
  destruct x as [|neg s n|neg]; [reflexivity | | now destruct neg].
  intros (Hs & _). unfold numberToString.
  assert (Hsign : forall b : bool, allChars numberChar (if b then "-" else "") = true)
    by now intros [].
  rewrite allChars_app, Hsign. cbn [andb].
  repeat match goal with
         | |- context [if ?b then _ else _] => destruct b
         end;
    repeat rewrite allChars_app;
    rewrite ?(digits_numberChar _ (JsonFacts.digitsOf_digits _)),
      ?(digits_numberChar _ Hs),
      ?(digits_numberChar _ (JsonFacts.allDigits_zeros _)),
      ?(digits_numberChar _ (JsonFacts.allDigits_takeS _ _ Hs)),
      ?(digits_numberChar _ (JsonFacts.allDigits_dropS _ _ Hs));
    reflexivity.
Qed.

Lemma numberChar_notChar (x : ascii) (s : string) :
  numberChar x = false -> allChars numberChar s = true -> allChars (notChar x) s = true.
Proof.
  intros Hx. apply allChars_impl. intros c Hc. unfold notChar.
  destruct (Ascii.eqb_spec c x) as [->|]; [congruence | reflexivity].
Qed.

Lemma quoteChar_oneLine (c : ascii) : allChars (notChar Papa.newline) (quoteChar c) = true.
Proof. destruct c as [[] [] [] [] [] [] [] []]; reflexivity. Qed.

Lemma quote_oneLine (s : string) : allChars (notChar Papa.newline) (quote s) = true.
Proof.
  unfold quote. cbn [allChars]. rewrite allChars_app. cbn [allChars andb].
  rewrite andb_true_r. change (notChar Papa.newline dquote) with true. cbn [andb].
  induction s as [|c s IH]; [reflexivity|].
  cbn [quoteChars]. now rewrite allChars_app, quoteChar_oneLine, IH.
Qed.

Lemma join_chars (p : ascii -> bool) (sep : string) (l : list string) :
  allChars p sep = true -> Forall (fun x => allChars p x = true) l ->
  allChars p (join sep l) = true.
Proof.
  intros Hsep. induction 1 as [|x l Hx Hl IH]; [reflexivity|].
  destruct l as [|y l]; [exact Hx|].
  change (join sep (x :: y :: l)) with (x ++ sep ++ join sep (y :: l)).
  now rewrite !allChars_app, Hx, Hsep, IH.
Qed.

(** [JSON.stringify] writes no raw line feed. *)
Lemma stringify_oneLine (v : value) :
  wf v -> allChars (notChar Papa.newline) (stringify v) = true.
Proof.
  induction v as [|b|x|s|l IH|m IH] using JsonFacts.value_induction; intros Hwf.
  - reflexivity.
  - now destruct b.
  - cbn [stringify]. destruct x as [|neg s n|neg]; try reflexivity.
    apply numberChar_notChar; [reflexivity|]. now apply numberToString_chars.
  - apply quote_oneLine.
  - cbn [stringify wf] in *. apply JsonFacts.wf_elements in Hwf.
    rewrite !allChars_app. cbn [allChars andb]. rewrite andb_true_r.
    change (notChar Papa.newline "[") with true. change (notChar Papa.newline "]") with true.
    cbn [andb]. rewrite andb_true_r. apply join_chars; [reflexivity|].
    apply List.Forall_map. revert Hwf. induction IH as [|e l He _ IHl]; intros Hwf;
      [constructor|].
    inversion Hwf; subst. constructor; auto.
  - cbn [stringify wf] in *. destruct Hwf as [_ Hwf]. apply JsonFacts.wf_members in Hwf.
    rewrite !allChars_app. cbn [allChars andb]. rewrite andb_true_r.
    change (notChar Papa.newline "{") with true. change (notChar Papa.newline "}") with true.
    cbn [andb]. rewrite andb_true_r. apply join_chars; [reflexivity|].
    apply List.Forall_map. revert Hwf. induction IH as [|e l He _ IHl]; intros Hwf;
      [constructor|].
    inversion Hwf; subst. constructor; [|auto].
    rewrite !allChars_app, quote_oneLine, He by assumption. reflexivity.
Qed.

(** Splitting at a character the first piece does not hold. *)
Lemma split_line (sep : ascii) (a b : string) :
  allChars (notChar sep) a = true ->
  Papa.split sep (a ++ String sep b) = a :: Papa.split sep b.
Proof.
  induction a as [|c a IH]; intros H.
  - cbn [Papa.split]. change ("" ++ String sep b) with (String sep b). cbn [Papa.split].
    now rewrite Ascii.eqb_refl.
  - cbn [allChars] in H. apply andb_true_iff in H as [Hc Ha].
    change (String c a ++ String sep b) with (String c (a ++ String sep b)).
    cbn [Papa.split]. unfold notChar in Hc. apply negb_true_iff in Hc. rewrite Hc.
    now rewrite (IH Ha).
Qed.

Lemma split_single (sep : ascii) (a : string) :
  allChars (notChar sep) a = true -> Papa.split sep a = [a].
Proof.
  induction a as [|c a IH]; intros H; [reflexivity|].
  cbn [allChars] in H. apply andb_true_iff in H as [Hc Ha].
  cbn [Papa.split]. unfold notChar in Hc. apply negb_true_iff in Hc. rewrite Hc.
  now rewrite (IH Ha).
Qed.

(** Lines joined by a line feed are split into the same lines. *)
Lemma split_join (l : list string) :
  l <> [] -> Forall (fun x => allChars (notChar Papa.newline) x = true) l ->
  Papa.split Papa.newline (join lf l) = l.
Proof.
  intros Hne H. induction H as [|x l Hx Hl IH]; [contradiction|].
  destruct l as [|y l]; [now apply split_single|].
  change (join lf (x :: y :: l)) with (x ++ String Papa.newline (join lf (y :: l))).
  rewrite (split_line _ _ _ Hx). f_equal. apply IH. discriminate.
Qed.

End TextFacts.

(** ** Base names *)

Module PathFacts.
Import Js Charset DocumentParserService.

(** A string none of whose characters has the code of the slash does not
    include a slash. *)
Lemma includes_slash_get (s : string) :
  (forall j, path.charCodeAt s j <> path.CHAR_FORWARD_SLASH) -> includes "/" s = false.
Proof.
  unfold path.charCodeAt. induction s as [|c s IH]; intros H; [reflexivity|].
  cbn [includes startsWith]. rewrite IH.
  - pose proof (H 0%nat) as H0. cbn [String.get] in H0.
    destruct (Ascii.eqb_spec "/" c) as [<-|]; [now contradiction H0 | reflexivity].
  - intros j. exact (H (S j)).
Qed.

Lemma charCodeAt_substring (s : string) (a m j : nat) :
  path.charCodeAt (String.substring a m s) j
  = if (j <? m)%nat then path.charCodeAt s (j + a) else -1.
Proof.
  unfold path.charCodeAt. destruct (Nat.ltb_spec j m) as [H|H].
  - now rewrite String.substring_correct1.
  - now rewrite String.substring_correct2.
Qed.

(** What the loop of [basename] keeps true: the characters between the
    position reached and [end] are not slashes. *)
Lemma basename_loop_spec (p : string) (n : nat) (e : Z) (matched : bool) :
  (e = -1 \/
   (Z.of_nat n <= e /\
    forall j, (n <= j)%nat -> Z.of_nat j < e -> path.charCodeAt p j <> path.CHAR_FORWARD_SLASH)) ->
  (e = -1 -> matched = true) -> (matched = true -> e = -1) ->
  let '(start', e', _) := path.basename_loop p n (0, e, matched) in
  e' = -1 \/
  (0 <= start' <= e' /\
   forall j, start' <= Z.of_nat j < e' -> path.charCodeAt p j <> path.CHAR_FORWARD_SLASH).
Proof.
  revert e matched. induction n as [|i IH]; intros e matched Hinv Hm1 Hm2.
  - cbn [path.basename_loop]. destruct Hinv as [->|[Hle Hin]]; [now left|]. right.
    split; [lia|]. intros j Hj. apply Hin; lia.
  - cbn [path.basename_loop].
    destruct (path.charCodeAt p i =? path.CHAR_FORWARD_SLASH) eqn:Ec.
    + destruct matched; cbn [negb].
      * apply IH; [left; now apply Hm2 | auto | auto].
      * destruct Hinv as [->|[Hle Hin]]; [now specialize (Hm1 eq_refl)|]. right.
        split; [lia|]. intros j Hj. apply Hin; lia.
    + apply Z.eqb_neq in Ec. destruct (e =? -1) eqn:Ee.
      * apply IH; [|lia|discriminate]. right. split; [lia|].
        intros j Hj1 Hj2. replace j with i by lia. exact Ec.
      * apply Z.eqb_neq in Ee. destruct Hinv as [->|[Hle Hin]]; [contradiction|].
        apply IH; auto. right. split; [lia|].
        intros j Hj1 Hj2. destruct (Nat.eq_dec j i) as [->|]; [exact Ec|]. apply Hin; lia.
Qed.

(** [path.basename] returns no slash. *)
Lemma basename_no_slash (p : string) : includes "/" (path.basename p) = false.
Proof.
  unfold path.basename.
  pose proof (basename_loop_spec p (String.length p) (-1) true) as H.
  destruct (path.basename_loop p (String.length p) (0, -1, true)) as [[start' e'] m'].
  destruct (e' =? -1) eqn:Ee; [reflexivity|]. apply Z.eqb_neq in Ee.
  destruct H as [H|[Hle Hin]]; auto; [contradiction|].
  apply includes_slash_get. intros j. unfold path.slice. rewrite charCodeAt_substring.
  destruct (Nat.ltb_spec j (Z.to_nat (e' - start'))) as [Hj|Hj]; [|discriminate].
  apply Hin. lia.
Qed.

Lemma includes_char_app (c : ascii) (a b : string) :
  includes (String c "") (a ++ b) = includes (String c "") a || includes (String c "") b.
Proof.
  rewrite <- (negb_involutive (includes _ (a ++ b))), <- TextFacts.notChar_includes.
  rewrite TextFacts.allChars_app, !TextFacts.notChar_includes.
  now destruct (includes (String c "") a), (includes (String c "") b).
Qed.

End PathFacts.

(** ** Directory batches *)

Module DirectoryFacts.
Import Js JSON DocumentParserService.

Section Platform.

Context {Buffer : Type}.
Variable Buffer_toString : Buffer -> string.
Variable pdfParse : Buffer -> Res PdfData.
Variable Papa_parse : string -> Papa.ParseConfig -> Res Papa.ParseResult.
Variable readFile : string -> Res Buffer.
Variable stat : string -> Res Stats.
Variable path_join : string -> string -> string.

Local Abbreviation fromPath := (parseDocument Buffer_toString pdfParse Papa_parse readFile).
Local Abbreviation loop :=
  (processFiles Buffer_toString pdfParse Papa_parse readFile stat path_join).
Local Abbreviation entry := (entryOf Buffer_toString pdfParse Papa_parse readFile stat).
Local Abbreviation good := (accepted Buffer_toString pdfParse Papa_parse readFile stat).
Local Abbreviation batch readdir :=
  (processDirectory Buffer_toString pdfParse Papa_parse readFile readdir stat path_join).

(** The loop adds to what it was given the entries of the files, in the
    order of the listing. *)
Lemma processFiles_flat (dir : string) (files : list string) (acc : list Processed.t) :
  loop dir files acc = (acc ++ flat_map (fun file => entry (path_join dir file)) files)%list.
Proof.
  revert acc. induction files as [|file rest IH]; intros acc.
  - simpl. now rewrite app_nil_r.
  - cbn [processFiles flat_map]. rewrite IH. unfold entryOf.
    destruct (stat (path_join dir file)) as [st|e]; [|reflexivity].
    destruct (isFile st); [|reflexivity].
    destruct (fromPath (path_join dir file)); [|reflexivity].
    now rewrite <- app_assoc.
Qed.

Lemma entryOf_rejected (filePath : string) : good filePath = false -> entry filePath = [].
Proof.
  unfold accepted, entryOf. destruct (stat filePath) as [st|e]; [|reflexivity].
  destruct (isFile st); [|reflexivity].
  destruct (fromPath filePath); [discriminate | reflexivity].
Qed.

Lemma entryOf_accepted (filePath : string) :
  good filePath = true ->
  exists doc, fromPath filePath = Ok doc /\
    entry filePath = [Processed.mk filePath (content doc) (metadata doc)].
Proof.
  unfold accepted, entryOf. destruct (stat filePath) as [st|e]; [|discriminate].
  destruct (isFile st); [|discriminate].
  destruct (fromPath filePath) as [doc|]; [|discriminate]. eauto.
Qed.

Lemma length_entryOf (filePath : string) : (length (entry filePath) <= 1)%nat.
Proof.
  unfold entryOf. destruct (stat filePath) as [st|e]; [|simpl; lia].
  destruct (isFile st); [|simpl; lia].
  destruct (fromPath filePath); simpl; lia.
Qed.

(** X1. [processDirectory] rejects only when the directory cannot be listed,
    and then with the error of [fs.readdir]. Once the listing is there it
    resolves, with at most one entry for each name; and a name whose
    [fs.stat] rejects, which is not a regular file, or whose [parseDocument]
    rejects, is passed over: the outcome is the one of the listing without
    that name. *)
Theorem processDirectory_skips_failures
  (readdir readdir' : string -> Res (list string)) (dir : string) :
  (forall e, readdir dir = Throw e -> batch readdir dir = Throw e) /\
  (forall files, readdir dir = Ok files ->
     exists docs, batch readdir dir = Ok docs /\ (length docs <= length files)%nat) /\
  (forall pre file post,
     readdir dir = Ok (pre ++ file :: post)%list ->
     readdir' dir = Ok (pre ++ post)%list ->
     good (path_join dir file) = false ->
     batch readdir dir = batch readdir' dir).
Proof.
  unfold processDirectory. split; [|split].
  - intros e ->. reflexivity.
  - intros files ->. eexists. split; [reflexivity|].
    rewrite processFiles_flat. cbn [app].
    induction files as [|file rest IH]; [simpl; lia|].
    cbn [flat_map]. rewrite length_app. pose proof (length_entryOf (path_join dir file)).
    simpl. lia.
  - intros pre file post -> -> Hbad. f_equal.
    rewrite !processFiles_flat. cbn [app].
    rewrite !flat_map_app. cbn [flat_map]. now rewrite (entryOf_rejected _ Hbad).
Qed.

(** X2. Once the directory is listed, the entries [processDirectory] returns
    are those of the names that are regular files and that [parseDocument]
    reads, in the order of the listing: the id of an entry is the joined path
    of its file, its content and metadata are what [parseDocument] returns
    for that path, and its [source] is the base name of its id. *)
Theorem processDirectory_entries
  (readdir : string -> Res (list string)) (dir : string) (files : list string) :
  readdir dir = Ok files ->
  exists docs,
    batch readdir dir = Ok docs /\
    map Processed.id docs = List.filter good (map (path_join dir) files) /\
    Forall (fun d =>
              fromPath (Processed.id d)
                = Ok (mkParsed (Processed.content d) (Processed.metadata d)) /\
              Processed.metadata d !! "source"
                = Some (JString (path.basename (Processed.id d))))
           docs.
Proof.
  intros Hls. unfold processDirectory. rewrite Hls. eexists. split; [reflexivity|].
  rewrite processFiles_flat. cbn [app]. clear Hls.
  induction files as [|file rest [IHid IHdoc]]; [split; [reflexivity | apply List.Forall_nil]|].
  cbn [flat_map map List.filter]. rewrite map_app.
  destruct (good (path_join dir file)) eqn:E.
  - destruct (entryOf_accepted _ E) as (doc & Hdoc & ->). split.
    + cbn [map app Processed.id]. now rewrite IHid.
    + cbn [app]. constructor; [|exact IHdoc]. cbn [Processed.id Processed.content Processed.metadata].
      split.
      * rewrite Hdoc. now destruct doc.
      * eapply ExtractorFacts.fromPath_source, Hdoc.
  - rewrite (entryOf_rejected _ E). split; [exact IHid | exact IHdoc].
Qed.

End Platform.

(** X1 on the sample directory: the folder and the vanished name are passed
    over, so is the Markdown file, which [parseDocument] refuses. *)
Lemma processDirectory_skips_witness :
  processDirectory Sample.Buffer_toString Sample.pdfParse Papa.parse Sample.readData
    Sample.readdir Sample.stat Sample.path_join "/data"
  = processDirectory Sample.Buffer_toString Sample.pdfParse Papa.parse Sample.readData
      (fun _ => Ok ["a.txt"; "notes.md"; "gone.txt"]) Sample.stat Sample.path_join "/data" /\
  processDirectory Sample.Buffer_toString Sample.pdfParse Papa.parse Sample.readData
    Sample.readdir Sample.stat Sample.path_join "/data"
  = Ok [Processed.mk "/data/a.txt" "alpha" {[ "source" := JString "a.txt" ]}].
Proof.
  split.
  - apply (proj2 (proj2 (processDirectory_skips_failures Sample.Buffer_toString Sample.pdfParse
                           Papa.parse Sample.readData Sample.stat Sample.path_join
                           Sample.readdir (fun _ => Ok ["a.txt"; "notes.md"; "gone.txt"]) "/data"))
             ["a.txt"; "notes.md"] "sub" ["gone.txt"]); reflexivity.
  - reflexivity.
Defined.

(** X2 on the sample directory. *)
Lemma processDirectory_entries_witness :
  exists docs,
    processDirectory Sample.Buffer_toString Sample.pdfParse Papa.parse Sample.readData
      Sample.readdir Sample.stat Sample.path_join "/data" = Ok docs /\
    map Processed.id docs = ["/data/a.txt"].
Proof.
  destruct (processDirectory_entries Sample.Buffer_toString Sample.pdfParse Papa.parse
              Sample.readData Sample.stat Sample.path_join Sample.readdir "/data"
              ["a.txt"; "notes.md"; "sub"; "gone.txt"] eq_refl) as (docs & Hrun & Hid & _).
  exists docs. split; [exact Hrun | exact Hid].
Defined.

End DirectoryFacts.

(** ** The two entry points of the extractor *)

Module EntryPointFacts.
Import Js JSON DocumentParserService StringFacts.

Lemma eqb_cases (ext : string) :
  (String.eqb ext ".pdf" = true /\ ext = ".pdf") \/
  (String.eqb ext ".pdf" = false /\ String.eqb ext ".csv" = true /\ ext = ".csv") \/
  (String.eqb ext ".pdf" = false /\ String.eqb ext ".csv" = false /\
   String.eqb ext ".txt" = true /\ ext = ".txt") \/
  (String.eqb ext ".pdf" = false /\ String.eqb ext ".csv" = false /\
   String.eqb ext ".txt" = false /\ String.eqb ext ".json" = true /\ ext = ".json") \/
  (String.eqb ext ".pdf" = false /\ String.eqb ext ".csv" = false /\
   String.eqb ext ".txt" = false /\ String.eqb ext ".json" = false /\
   ext ∉ supportedExtensions).
Proof.
  destruct (String.eqb ext ".pdf") eqn:E1;
    [apply String.eqb_eq in E1; left; split; [reflexivity | exact E1]|].
  destruct (String.eqb ext ".csv") eqn:E2;
    [apply String.eqb_eq in E2; right; left; repeat split; exact E2|].
  destruct (String.eqb ext ".txt") eqn:E3;
    [apply String.eqb_eq in E3; do 2 right; left; repeat split; exact E3|].
  destruct (String.eqb ext ".json") eqn:E4;
    [apply String.eqb_eq in E4; do 3 right; left; repeat split; exact E4|].
  do 4 right. repeat split.
  apply String.eqb_neq in E1, E2, E3, E4. unfold supportedExtensions.
  rewrite !elem_of_cons, elem_of_nil. tauto.
Qed.

Section Platform.

Context {Buffer : Type}.
Variable Buffer_from : string -> Encoding -> Buffer.
Variable Buffer_toString : Buffer -> string.
Variable pdfParse : Buffer -> Res PdfData.
Variable Papa_parse : string -> Papa.ParseConfig -> Res Papa.ParseResult.
Variable readFile : string -> Res Buffer.

Local Abbreviation fromString := (parseContentFromString Buffer_from pdfParse Papa_parse).
Local Abbreviation fromPath := (parseDocument Buffer_toString pdfParse Papa_parse readFile).

(** X3. [parseDocument] rejects in three cases and no other: [fs.readFile]
    rejects, and its error is passed on; the extension is [.json] and the
    text of the file does not parse, and the error of [JSON.parse] is passed
    on; the extension has no case of its own, and the error is
    UnsupportedFormat. A failure of the PDF or of the CSV library never makes
    it reject. *)
Theorem parseDocument_rejections (filePath : string) (e : exn) :
  fromPath filePath = Throw e <->
  readFile filePath = Throw e \/
  (exists fileBuffer,
     readFile filePath = Ok fileBuffer /\
     ((toLowerCase (path.extname filePath) = ".json" /\
       JSON.parse (Buffer_toString fileBuffer) = Throw e) \/
      ((toLowerCase (path.extname filePath) ∉ supportedExtensions) /\
       e = UnsupportedFormat (toLowerCase (path.extname filePath))))).
Proof.
  unfold parseDocument.
  destruct (readFile filePath) as [fileBuffer|e0].
  - destruct (eqb_cases (toLowerCase (path.extname filePath)))
      as [(-> & Hx)|[(-> & -> & Hx)|[(-> & -> & -> & Hx)|[(-> & -> & -> & -> & Hx)
         |(-> & -> & -> & -> & Hx)]]]].
    + split.
      * destruct (pdfParse fileBuffer); discriminate.
      * intros [H|(b & [= <-] & [[H _]|[H _]])]; [discriminate | |].
        -- rewrite Hx in H. discriminate.
        -- exfalso. apply H. rewrite Hx. unfold supportedExtensions.
           rewrite !elem_of_cons. tauto.
    + split.
      * destruct (Papa_parse _ _); discriminate.
      * intros [H|(b & [= <-] & [[H _]|[H _]])]; [discriminate | |].
        -- rewrite Hx in H. discriminate.
        -- exfalso. apply H. rewrite Hx. unfold supportedExtensions.
           rewrite !elem_of_cons. tauto.
    + split; [discriminate|].
      intros [H|(b & [= <-] & [[H _]|[H _]])]; [discriminate | |].
      * rewrite Hx in H. discriminate.
      * exfalso. apply H. rewrite Hx. unfold supportedExtensions.
           rewrite !elem_of_cons. tauto.
    + split.
      * destruct (JSON.parse (Buffer_toString fileBuffer)) as [v|e1] eqn:E; [discriminate|].
        intros [= <-]. right. exists fileBuffer. auto.
      * intros [H|(b & [= <-] & [[_ H]|[H _]])]; [discriminate | |].
        -- now rewrite H.
        -- exfalso. apply H. rewrite Hx. unfold supportedExtensions.
           rewrite !elem_of_cons. tauto.
    + split.
      * intros [= <-]. right. exists fileBuffer. auto.
      * intros [H|(b & [= <-] & [[H _]|[_ ->]])]; [discriminate | |reflexivity].
        exfalso. apply Hx. rewrite H. unfold supportedExtensions.
        rewrite !elem_of_cons. tauto.
  - split.
    + intros [= <-]. now left.
    + intros [[= <-]|(b & H & _)]; [reflexivity | discriminate].
Qed.

(** The CSV case writes the same properties over any [source]. *)
Lemma csvDocument_rename (csvData : Papa.ParseResult) (a b : value) :
  <["source" := b]> (metadata (csvDocument csvData {[ "source" := a ]}))
  = metadata (csvDocument csvData {[ "source" := b ]}).
Proof.
  unfold csvDocument. cbn [metadata].
  destruct (0 <? length (Papa.errors csvData))%nat;
    repeat (rewrite (insert_insert_ne _ "source") by discriminate);
    now rewrite insert_singleton_eq.
Qed.

(** X4. On the bytes of a file and under a name with the extension of its
    path, the string-based entry point extracts what the path-based one
    extracts, whenever the latter resolves, the extension is not [.pdf] and,
    for [.csv], the CSV library returns: the same text, and the same
    metadata once [source] is set to the base name of the path. *)
Theorem entry_points_agree (filePath fileName : string) (fileBuffer : Buffer)
  (docP : ParsedDocument) :
  readFile filePath = Ok fileBuffer ->
  toLowerCase (path.extname fileName) = toLowerCase (path.extname filePath) ->
  toLowerCase (path.extname filePath) <> ".pdf" ->
  (toLowerCase (path.extname filePath) = ".csv" ->
   isOk (Papa_parse (Buffer_toString fileBuffer) (Papa.mkConfig true true)) = true) ->
  fromPath filePath = Ok docP ->
  exists docS,
    fromString (Buffer_toString fileBuffer) fileName = Ok docS /\
    content docS = content docP /\
    <["source" := JString (path.basename filePath)]> (metadata docS) = metadata docP.
Proof.
  intros Hread Hext Hpdf Hcsv. unfold parseDocument, parseContentFromString.
  rewrite Hread, Hext.
  destruct (eqb_cases (toLowerCase (path.extname filePath)))
    as [(_ & Hx)|[(-> & -> & Hx)|[(-> & -> & -> & Hx)|[(-> & -> & -> & -> & Hx)
       |(-> & -> & -> & -> & Hx)]]]].
  - contradiction.
  - specialize (Hcsv Hx).
    destruct (Papa_parse _ _) as [csvData|]; [|discriminate].
    intros [= <-]. eexists. split; [reflexivity|]. split; [reflexivity|].
    apply csvDocument_rename.
  - intros [= <-]. eexists. split; [reflexivity|]. split; [reflexivity|].
    cbn [metadata]. apply insert_singleton_eq.
  - destruct (JSON.parse (Buffer_toString fileBuffer)) as [v|]; [|discriminate].
    intros [= <-]. eexists. split; [reflexivity|]. split; [reflexivity|].
    cbn [metadata]. apply insert_singleton_eq.
  - discriminate.
Qed.


(** The properties the string-based entry point can set. *)
Lemma fromString_keys (content0 fileName : string) (doc : ParsedDocument) (k : string) :
  fromString content0 fileName = Ok doc ->
  is_Some (metadata doc !! k) ->
  k ∈ ["source"; "pageCount"; "info"; "rowCount"; "fields"; "delimiter"; "parseErrors"].
Proof.
  unfold parseContentFromString, csvDocument.
  repeat match goal with
         | |- context [if ?b then _ else _] => destruct b
         | |- context [match ?r with Ok _ => _ | Throw _ => _ end] => destruct r
         end;
    intros [= <-]; cbn [metadata];
    rewrite ?lookup_insert_is_Some, lookup_singleton_is_Some, !elem_of_cons;
    intros H; repeat (destruct H as [<-|[_ H]]; [auto 10|]); subst; auto 10.
Qed.

(** X6. What the orchestrator writes over the extracted metadata. The
    string-based entry point sets no property other than [source],
    [pageCount], [info], [rowCount], [fields], [delimiter] and [parseErrors];
    so adding [s3_url] and [original_filename] overwrites nothing: every
    extracted property is in the metadata of the record with its value,
    [source] is still the file name, and the record has two properties
    more. *)
Theorem extracted_metadata_is_kept (content0 fileName s3ObjectUrl originalFileName : string)
  (doc : ParsedDocument) :
  fromString content0 fileName = Ok doc ->
  (forall k, is_Some (metadata doc !! k) ->
     k ∈ ["source"; "pageCount"; "info"; "rowCount"; "fields"; "delimiter"; "parseErrors"]) /\
  metadata doc
    ⊆ <["original_filename" := JString originalFileName]>
        (<["s3_url" := JString s3ObjectUrl]> (metadata doc)) /\
  <["original_filename" := JString originalFileName]>
    (<["s3_url" := JString s3ObjectUrl]> (metadata doc)) !! "source"
    = Some (JString fileName) /\
  size (<["original_filename" := JString originalFileName]>
          (<["s3_url" := JString s3ObjectUrl]> (metadata doc)))
    = S (S (size (metadata doc))).
Proof.
  intros Hdoc.
  assert (Hnone : forall k, k ∉ ["source"; "pageCount"; "info"; "rowCount"; "fields";
                                 "delimiter"; "parseErrors"] -> metadata doc !! k = None).
  { intros k Hk. destruct (metadata doc !! k) eqn:E; [|reflexivity].
    exfalso. apply Hk. eapply fromString_keys; [exact Hdoc | now rewrite E]. }
  assert (Hurl : metadata doc !! "s3_url" = None).
  { apply Hnone. rewrite !elem_of_cons, elem_of_nil.
    intros H; repeat (destruct H as [H|H]; [discriminate|]); exact H. }
  assert (Hname : metadata doc !! "original_filename" = None).
  { apply Hnone. rewrite !elem_of_cons, elem_of_nil.
    intros H; repeat (destruct H as [H|H]; [discriminate|]); exact H. }
  assert (Hname' : <["s3_url" := JString s3ObjectUrl]> (metadata doc) !! "original_filename"
                   = None)
    by now rewrite lookup_insert_ne.
  split; [intros k; apply (fromString_keys _ _ _ _ Hdoc)|]. split; [|split].
  - etransitivity; [apply (insert_subseteq _ "s3_url" (JString s3ObjectUrl)), Hurl|].
    apply insert_subseteq, Hname'.
  - rewrite !lookup_insert_ne by discriminate.
    eapply ExtractorFacts.fromString_source, Hdoc.
  - rewrite map_size_insert_None by exact Hname'.
    now rewrite map_size_insert_None by exact Hurl.
Qed.

End Platform.

(** X4 on the sample platform: the text file of the sample directory, read
    from its path and handed over as a string under another name. *)
Lemma entry_points_agree_witness :
  exists docS,
    parseContentFromString Sample.Buffer_from Sample.pdfParse Papa.parse
      (Sample.Buffer_toString "alpha") "copy of a.TXT" = Ok docS /\
    content docS = content (mkParsed "alpha" {[ "source" := JString "a.txt" ]}) /\
    <["source" := JString (path.basename "/data/a.txt")]> (metadata docS)
      = metadata (mkParsed "alpha" {[ "source" := JString "a.txt" ]}).
Proof.
  apply (entry_points_agree Sample.Buffer_from Sample.Buffer_toString Sample.pdfParse
           Papa.parse Sample.readData "/data/a.txt" "copy of a.TXT" "alpha"
           (mkParsed "alpha" {[ "source" := JString "a.txt" ]}));
    try (vm_compute; reflexivity); vm_compute; discriminate.
Defined.


(** X6 on the sample platform. *)
Lemma extracted_metadata_witness :
  <["original_filename" := JString "a.txt"]>
    (<["s3_url" := JString "s3://bucket/notes/a.txt"]>
       (metadata (mkParsed "alpha" {[ "source" := JString "a.txt" ]}))) !! "source"
  = Some (JString "a.txt").
Proof.
  assert (H : parseContentFromString Sample.Buffer_from Sample.pdfParse Papa.parse
                "alpha" "a.txt" = Ok (mkParsed "alpha" {[ "source" := JString "a.txt" ]}))
    by (vm_compute; reflexivity).
  exact (proj1 (proj2 (proj2 (extracted_metadata_is_kept Sample.Buffer_from Sample.pdfParse
                                Papa.parse "alpha" "a.txt" "s3://bucket/notes/a.txt" "a.txt"
                                (mkParsed "alpha" {[ "source" := JString "a.txt" ]}) H)))).
Defined.

End EntryPointFacts.

(** ** CSV documents *)

Module CsvFacts.
Import Js JSON DocumentParserService.

Section Platform.

Context {Buffer : Type}.
Variable Buffer_from : string -> Encoding -> Buffer.
Variable pdfParse : Buffer -> Res PdfData.
Variable Papa_parse : string -> Papa.ParseConfig -> Res Papa.ParseResult.

Local Abbreviation fromString := (parseContentFromString Buffer_from pdfParse Papa_parse).

(** X7. The text of a CSV document is made of one line for each row. When
    the CSV library returns at least one row, splitting the text at its line
    feeds gives back the JSON texts of the rows, in order, [JSON.stringify]
    escaping every line feed of a cell; so [rowCount] is the number of lines,
    and each line parses to its row when the row holds no infinity. *)
Theorem csv_text_is_json_lines (content0 fileName : string) (csvData : Papa.ParseResult) :
  toLowerCase (path.extname fileName) = ".csv" ->
  Papa_parse content0 (Papa.mkConfig true true) = Ok csvData ->
  Papa.data csvData <> [] ->
  Forall wf (Papa.data csvData) ->
  exists doc,
    fromString content0 fileName = Ok doc /\
    Papa.split Papa.newline (content doc) = map stringify (Papa.data csvData) /\
    metadata doc !! "rowCount"
      = Some (JNumber (ofZ (Z.of_nat (length (Papa.split Papa.newline (content doc)))))) /\
    (forallb finite (Papa.data csvData) = true ->
     Forall2 (fun line row => JSON.parse line = Ok row)
       (Papa.split Papa.newline (content doc)) (Papa.data csvData)).
Proof.
  intros Hext Hparse Hne Hwf. unfold parseContentFromString.
  rewrite Hext, Hparse. cbn [String.eqb Ascii.eqb Bool.eqb].
  eexists. split; [reflexivity|].
  assert (Hsplit : Papa.split Papa.newline (content (csvDocument csvData {[ "source" := JString fileName ]}))
                   = map stringify (Papa.data csvData)).
  { unfold csvDocument. cbn [content]. apply TextFacts.split_join.
    - destruct (Papa.data csvData); [contradiction | discriminate].
    - apply List.Forall_map. eapply List.Forall_impl; [|exact Hwf].
      intros v. apply TextFacts.stringify_oneLine. }
  split; [exact Hsplit|]. split.
  - rewrite Hsplit, length_map. unfold csvDocument. cbn [metadata].
    destruct (0 <? length (Papa.errors csvData))%nat;
      repeat (rewrite lookup_insert_ne by discriminate); apply lookup_insert_eq.
  - intros Hfin. rewrite Hsplit. apply JsonFacts.finite_elements in Hfin.
    clear Hsplit Hne Hparse. induction Hwf as [|row rows Hrow Hrows IH]; [constructor|].
    inversion Hfin; subst. cbn [map]. constructor; [|auto].
    now apply JsonFacts.parse_stringify.
Qed.

End Platform.

(** X7 on the CSV text with header [a,b] and rows [1,2] and [3,4]. *)
Lemma csv_text_witness :
  exists doc,
    parseContentFromString Sample.Buffer_from Sample.pdfParse Papa.parse
      ("a,b" ++ lf ++ "1,2" ++ lf ++ "3,4") "f.csv" = Ok doc /\
    length (Papa.split Papa.newline (content doc)) = 2%nat.
Proof.
  destruct (csv_text_is_json_lines Sample.Buffer_from Sample.pdfParse Papa.parse
              ("a,b" ++ lf ++ "1,2" ++ lf ++ "3,4") "f.csv"
              (Papa.mkResult
                 [JObject [("a", JString "1"); ("b", JString "2")];
                  JObject [("a", JString "3"); ("b", JString "4")]]
                 [] (Papa.mkMeta "," lf ["a"; "b"])))
    as (doc & Hdoc & Hsplit & _).
  - vm_compute. reflexivity.
  - vm_compute. reflexivity.
  - discriminate.
  - repeat constructor.
  - exists doc. split; [exact Hdoc|]. now rewrite Hsplit.
Defined.

End CsvFacts.

(** ** The batch builder: composition and the placeholder model *)

Module EmbeddingBatchFacts.
Import Js Async EmbeddingService.

Lemma trimEnd_keeps (c : ascii) (s : string) :
  isWhiteSpace c = false -> trimEnd (String c s) <> "".
Proof.
  intros H. cbn [trimEnd]. rewrite H. destruct (trimEnd s); discriminate.
Qed.

Lemma trim_white_space (s : string) :
  (String.length (trim s) =? 0)%nat = DocumentParserService.allChars isWhiteSpace s.
Proof.
  unfold trim. induction s as [|c s IH]; [reflexivity|].
  cbn [trimStart DocumentParserService.allChars]. destruct (isWhiteSpace c) eqn:E.
  - exact IH.
  - pose proof (trimEnd_keeps c s E) as H.
    destruct (trimEnd (String c s)); [contradiction | reflexivity].
Qed.

(** X8. The documents the batch builder passes over are exactly those
    whose text is made of white space only, the empty text among them: the
    test [!text || text.trim().length === 0] holds if and only if every
    character of the text is white space or a line terminator. *)
Theorem blank_iff_white_space (text : string) :
  isBlank text = DocumentParserService.allChars isWhiteSpace text.
Proof.
  unfold isBlank. rewrite trim_white_space. now destruct text.
Qed.

Section Provider.

Variable embeddingModel : string -> M (list Q).

Local Abbreviation loop := (embedLoop embeddingModel).
Local Abbreviation embedBatch := (getEmbeddingsForDocuments embeddingModel).

(** The loop run from earlier records is the loop run from none, with the
    earlier records in front. *)
Lemma embedLoop_acc (docs : list Document.t) (acc : list PineconeRecord.t) (w : World) :
  loop docs acc w
  = match loop docs [] w with
    | (Ok records, w') => (Ok (acc ++ records)%list, w')
    | (Throw e, w') => (Throw e, w')
    end.
Proof.
  revert acc w. induction docs as [|doc rest IH]; intros acc w.
  - simpl. unfold ret. now rewrite app_nil_r.
  - cbn [embedLoop]. unfold bind.
    destruct (getEmbedding embeddingModel (Document.content doc) w) as [[l|e] w']; [|reflexivity].
    destruct (0 <? length l)%nat; [|apply IH].
    rewrite IH. rewrite (IH ([] ++ _)%list).
    destruct (loop rest [] w') as [[records|e] w'']; [|reflexivity].
    cbn [app]. now rewrite <- app_assoc.
Qed.

(** X9. Embedding a batch made of two parts is embedding the first part and
    then, from the state it left, the second: the records are those of the
    first part followed by those of the second, and a failure in either part
    is the failure of the whole. *)
Theorem embedBatch_app (pre post : list Document.t) (w : World) :
  embedBatch (pre ++ post) w
  = match embedBatch pre w with
    | (Ok records, w') =>
        match embedBatch post w' with
        | (Ok records', w'') => (Ok (records ++ records')%list, w'')
        | (Throw e, w'') => (Throw e, w'')
        end
    | (Throw e, w') => (Throw e, w')
    end.
Proof.
  unfold getEmbeddingsForDocuments. rewrite EmbeddingFacts.embedLoop_app.
  destruct (loop pre [] w) as [[records|e] w']; [|reflexivity].
  apply embedLoop_acc.
Qed.

(** X10. A document that is not blank and for which the model resolves with
    an empty vector is dropped without an error: the batch goes on with the
    documents after it, and returns the records of the others. *)
Theorem empty_embedding_is_dropped
  (pre post : list Document.t) (doc : Document.t) (w w1 w2 : World)
  (records : list PineconeRecord.t) :
  embedBatch pre w = (Ok records, w1) ->
  nonBlank doc = true ->
  embeddingModel (Document.content doc) w1 = (Ok [], w2) ->
  embedBatch (pre ++ doc :: post) w
  = match embedBatch post w2 with
    | (Ok records', w') => (Ok (records ++ records')%list, w')
    | (Throw e, w') => (Throw e, w')
    end.
Proof.
  unfold getEmbeddingsForDocuments. intros Hpre Hdoc Hempty.
  rewrite EmbeddingFacts.embedLoop_app, Hpre. cbn [embedLoop]. unfold bind, getEmbedding.
  unfold nonBlank in Hdoc. apply negb_true_iff in Hdoc. rewrite Hdoc.
  unfold tryCatch. rewrite Hempty. cbn [length Nat.ltb Nat.leb].
  apply embedLoop_acc.
Qed.

End Provider.

(** X11. On the placeholder model a batch always resolves, and its records do
    not depend on the text of the documents beyond its being blank or not:
    the record of the [i]-th document that is not blank carries the id and
    the metadata of that document and the 1536 numbers [Math.random] hands
    out from its call number [draws + i * 1536] on. The batch leaves
    [Math.random] advanced by 1536 calls for each such document and touches
    nothing else. *)
Theorem placeholder_batch (random : nat -> Q) (docs : list Document.t) (w : World) :
  getEmbeddingsForDocuments (placeholderEmbedding random) docs w
  = (Ok (imap (fun i doc =>
                 PineconeRecord.mk (Document.id doc)
                   (map random (seq (draws w + i * 1536) 1536))
                   (Document.metadata doc))
              (List.filter nonBlank docs)),
     mkWorld (draws w + length (List.filter nonBlank docs) * 1536) (index w) (vectors w)).
Proof.
  assert (H : forall docs acc w,
             embedLoop (placeholderEmbedding random) docs acc w
             = (Ok (acc ++ imap (fun i doc =>
                                   recordOf doc
                                     (map random (seq (draws w + i * placeholderDimension)
                                                      placeholderDimension)))
                                (List.filter nonBlank docs))%list,
                mkWorld (draws w + length (List.filter nonBlank docs) * placeholderDimension)
                  (index w) (vectors w))).
  { clear docs w. induction docs as [|doc rest IH]; intros acc w.
    - simpl. unfold ret. rewrite app_nil_r, Nat.add_0_r. now destruct w.
    - cbn [List.filter]. destruct (nonBlank doc) eqn:E.
      + unfold nonBlank in E. apply negb_true_iff in E.
        cbn [embedLoop]. unfold bind, getEmbedding. rewrite E.
        unfold tryCatch, placeholderEmbedding at 1.
        rewrite length_map, length_seq. change (0 <? placeholderDimension)%nat with true.
        cbv iota. rewrite IH. cbn [draws index vectors imap length].
        rewrite <- app_assoc. cbn [app]. rewrite Nat.add_0_r. f_equal.
        * do 3 f_equal. apply imap_ext. intros i d _. cbn [compose].
          do 3 f_equal. cbn [Nat.mul]. lia.
        * f_equal. cbn [Nat.mul]. lia.
      + rewrite EmbeddingFacts.embedLoop_blank by exact E. apply IH. }
  apply (H docs [] w).
Qed.

(** X10 on a model that answers the text [void] with no number at all. *)
Lemma empty_embedding_witness :
  getEmbeddingsForDocuments
    (fun text => if String.eqb text "void" then ret [] else Sample.embeddingModel text)
    ([] ++ Document.mk "v" "void" ∅ :: [Document.mk "blank" " " ∅]) Sample.world
  = match getEmbeddingsForDocuments
            (fun text => if String.eqb text "void" then ret [] else Sample.embeddingModel text)
            [Document.mk "blank" " " ∅] Sample.world with
    | (Ok records', w') => (Ok ([] ++ records')%list, w')
    | (Throw e, w') => (Throw e, w')
    end.
Proof.
  apply (empty_embedding_is_dropped
           (fun text => if String.eqb text "void" then ret [] else Sample.embeddingModel text)
           [] [Document.mk "blank" " " ∅] (Document.mk "v" "void" ∅)
           Sample.world Sample.world Sample.world []);
    reflexivity.
Defined.

End EmbeddingBatchFacts.

(** ** The vector index: start-up and queries *)

Module IndexFacts.
Import Js Async PineconeService.

(** X12. Start-up of the index service. Without an API key [onModuleInit]
    resolves and leaves the state as it was, so a handle that was unset stays
    unset. With a key, it resolves with the handle set to the configured name
    when [describeIndex] resolves, without calling [createIndex], or when
    [describeIndex] rejects and [createIndex], called with dimension 1536 and
    the cosine metric, resolves; when both reject it rejects with the error
    of [createIndex] and the handle is not assigned. *)
Theorem onModuleInit_outcomes (apiKey indexName : string)
  (describeIndex : string -> M unit) (createIndex : CreateIndexOptions -> M unit)
  (w : World) :
  (falsy apiKey = true ->
   onModuleInit apiKey indexName describeIndex createIndex w = (Ok tt, w)) /\
  (falsy apiKey = false ->
   (forall w1,
      describeIndex indexName w = (Ok tt, w1) ->
      onModuleInit apiKey indexName describeIndex createIndex w
      = (Ok tt, mkWorld (draws w1) (Some indexName) (vectors w1))) /\
   (forall e w1 w2,
      describeIndex indexName w = (Throw e, w1) ->
      createIndex (mkCreate indexName EmbeddingService.placeholderDimension "cosine"
                     "aws" "us-east-1") w1 = (Ok tt, w2) ->
      onModuleInit apiKey indexName describeIndex createIndex w
      = (Ok tt, mkWorld (draws w2) (Some indexName) (vectors w2))) /\
   (forall e w1 createError w2,
      describeIndex indexName w = (Throw e, w1) ->
      createIndex (mkCreate indexName EmbeddingService.placeholderDimension "cosine"
                     "aws" "us-east-1") w1 = (Throw createError, w2) ->
      onModuleInit apiKey indexName describeIndex createIndex w
      = (Throw createError, w2))).
Proof.
  unfold onModuleInit. split.
  - intros ->. reflexivity.
  - intros ->. unfold bind, tryCatch, setIndex, createIndexOptions.
    change EmbeddingService.placeholderDimension with 1536%nat.
    split; [|split].
    + intros w1 ->. reflexivity.
    + intros e w1 w2 -> ->. reflexivity.
    + intros e w1 createError w2 -> ->. reflexivity.
Qed.

(** X13. [queryVectors] answers [undefined] exactly when the index handle
    is not initialised, and then without asking the index or touching the
    state; with the handle set it asks the index for the metadata and not for
    the values, and resolves or rejects as the index does. *)
Theorem queryVectors_outcomes {QueryResponse : Type}
  (Index_query : string -> QueryRequest.t -> M QueryResponse)
  (vector : list Q) (topK : Z) (filter : option (gmap string JSON.value)) (w : World) :
  (fst (queryVectors Index_query vector topK filter w) = Ok None <-> index w = None) /\
  (index w = None -> queryVectors Index_query vector topK filter w = (Ok None, w)) /\
  (forall handle,
     index w = Some handle ->
     queryVectors Index_query vector topK filter w
     = match Index_query handle (QueryRequest.mk vector topK filter true false) w with
       | (Ok queryResponse, w') => (Ok (Some queryResponse), w')
       | (Throw error, w') => (Throw error, w')
       end).
Proof.
  unfold queryVectors, tryCatch, bind, ret, throw.
  destruct (index w) as [handle|] eqn:E.
  - split; [|split].
    + destruct (Index_query handle _ w) as [[r|e] w']; split; discriminate.
    + discriminate.
    + intros h [= <-]. destruct (Index_query handle _ w) as [[r|e] w']; reflexivity.
  - split; [|split].
    + split; reflexivity.
    + reflexivity.
    + discriminate.
Qed.

End IndexFacts.

(** ** The configuration and the guards that read it *)

Module ConfigFacts.
Import Js Async Config.

Lemma envOr_not_empty (env : string -> option string) (name fallback : string) :
  falsy fallback = false -> falsy (envOr env name fallback) = false.
Proof.
  intros H. unfold envOr. destruct (env name) as [v|]; [|exact H].
  destruct (falsy v) eqn:E; [exact H | exact E].
Qed.

(** X14. The guards against a missing configuration, with the
    configuration as the repository reads it. The API key falls back to a
    placeholder, so it is never empty: [onModuleInit] never leaves by its
    missing-key exit, and whenever it resolves the index handle is set to the
    configured name. The bucket name falls back to its placeholder too:
    [getObject] refuses as not configured when [S3_BUCKET_NAME] is unset,
    empty or the placeholder itself, and with any other value it asks the SDK
    in that bucket and answers as the SDK does. *)
Theorem configuration_guards (env : string -> option string) :
  falsy (apiKey (pineconeConfig env)) = false /\
  (forall describeIndex createIndex w w',
     PineconeService.onModuleInit (apiKey (pineconeConfig env))
       (indexName (pineconeConfig env)) describeIndex createIndex w = (Ok tt, w') ->
     index w' = Some (indexName (pineconeConfig env))) /\
  (forall (Buffer : Type)
          (s3_getObject : string -> string -> Res (S3Service.GetObjectOutput Buffer)) key,
     env "S3_BUCKET_NAME" = None \/ env "S3_BUCKET_NAME" = Some ""
     \/ env "S3_BUCKET_NAME" = Some "your-s3-bucket-name" ->
     S3Service.getObject (s3BucketName (awsConfig env)) s3_getObject key
     = Throw (Error "S3 service not configured for getObject operation.")) /\
  (forall (Buffer : Type)
          (s3_getObject : string -> string -> Res (S3Service.GetObjectOutput Buffer)) key
          bucket,
     env "S3_BUCKET_NAME" = Some bucket ->
     bucket <> "" -> bucket <> "your-s3-bucket-name" ->
     S3Service.getObject (s3BucketName (awsConfig env)) s3_getObject key
     = s3_getObject bucket key).
Proof.
  assert (Hkey : falsy (apiKey (pineconeConfig env)) = false)
    by (apply envOr_not_empty; reflexivity).
  split; [exact Hkey|]. split; [|split].
  - intros describeIndex createIndex w w'. unfold PineconeService.onModuleInit.
    rewrite Hkey. unfold bind, tryCatch, PineconeService.setIndex, throw.
    destruct (describeIndex _ w) as [[[]|e] w1].
    + intros [= <-]. reflexivity.
    + destruct (createIndex _ w1) as [[[]|e'] w2]; [|discriminate].
      intros [= <-]. reflexivity.
  - intros Buffer s3_getObject key H. unfold S3Service.getObject.
    cbn [s3BucketName awsConfig]. unfold envOr.
    destruct H as [H1 | [H2 | H3]]; [rewrite H1 | rewrite H2 | rewrite H3]; reflexivity.
  - intros Buffer s3_getObject key bucket H Hne Hph. unfold S3Service.getObject.
    cbn [s3BucketName awsConfig]. unfold envOr. rewrite H.
    destruct bucket as [|c bucket]; [contradiction|]. cbn [falsy orb].
    apply String.eqb_neq in Hph. rewrite Hph.
    destruct (s3_getObject (String c bucket) key); reflexivity.
Qed.

End ConfigFacts.

(** ** Object storage *)

Module StorageFacts.
Import Js S3Service.

Section Storage.

Context {Buffer : Type}.
Variable Buffer_toString : Buffer -> string.
Variable s3BucketName : string.
Variable s3_getObject : string -> string -> Res (GetObjectOutput Buffer).
Variable s3_getSignedUrlPromise : string -> PresignParams -> Res string.

Local Abbreviation download :=
  (downloadFileContentFromUrl Buffer_toString s3BucketName s3_getObject).
Local Abbreviation fetch :=
  (getFileContentAsString Buffer_toString s3BucketName s3_getObject).

(** X15. With the bucket name missing or left at its placeholder, no method
    of the storage service reaches the SDK: [getPresignedUrl] and [getObject]
    reject with their configuration errors, [getFileContentAsString] rejects
    with that of [getObject], and no locator is downloaded. *)
Theorem unconfigured_bucket_is_refused :
  falsy s3BucketName || String.eqb s3BucketName "your-s3-bucket-name" = true ->
  (forall fileName fileType,
     getPresignedUrl s3BucketName s3_getSignedUrlPromise fileName fileType
     = Throw (Error "S3 service not configured for pre-signed URL generation.")) /\
  (forall key,
     getObject s3BucketName s3_getObject key
     = Throw (Error "S3 service not configured for getObject operation.")) /\
  (forall key,
     fetch key = Throw (Error "S3 service not configured for getObject operation.")) /\
  (forall s3Url, isOk (download s3Url) = false).
Proof.
  intros H. unfold downloadFileContentFromUrl, getFileContentAsString, getObject, getPresignedUrl.
  rewrite H. repeat split.
  intros s3Url. destruct (URL.new s3Url) as [parsedUrl|]; [|reflexivity].
  destruct (falsy (keyOfUrl parsedUrl)); reflexivity.
Qed.

(** X16. A download that resolves carries a key that is not empty, the base
    name of that key as file name, which holds no slash, and the text of the
    body the SDK returned for that key in the configured bucket. When the SDK returns an object
    without a body the download rejects with the error naming the key, and
    an error of the SDK is passed on as it is. *)
Theorem download_outcomes (s3Url : string) (parsedUrl : URL.t) :
  URL.new s3Url = Ok parsedUrl ->
  falsy (keyOfUrl parsedUrl) = false ->
  falsy s3BucketName || String.eqb s3BucketName "your-s3-bucket-name" = false ->
  download s3Url
  = match s3_getObject s3BucketName (keyOfUrl parsedUrl) with
    | Ok s3Object =>
        match Body s3Object with
        | Some body =>
            Ok (mkDownload (Buffer_toString body) (keyOfUrl parsedUrl)
                  (path.basename (keyOfUrl parsedUrl)))
        | None =>
            Throw (Error ("S3 object Body is empty for key: " ++ keyOfUrl parsedUrl))
        end
    | Throw error => Throw error
    end /\
  (forall d, download s3Url = Ok d ->
     s3Key d <> "" /\ originalFileName d = path.basename (s3Key d) /\
     includes "/" (originalFileName d) = false /\
     exists body,
       s3_getObject s3BucketName (s3Key d) = Ok (mkOutput (Some body)) /\
       content d = Buffer_toString body).
Proof.
  intros Hurl Hkey Hcfg.
  unfold downloadFileContentFromUrl, getFileContentAsString, getObject.
  rewrite Hurl, Hkey, Hcfg.
  destruct (s3_getObject s3BucketName (keyOfUrl parsedUrl)) as [[[body|]]|e] eqn:Hget.
  - split; [reflexivity|]. intros d [= <-]. cbn [s3Key originalFileName content].
    split; [|split; [reflexivity|split]].
    + intros E. rewrite E in Hkey. discriminate.
    + apply PathFacts.basename_no_slash.
    + exists body. split; [exact Hget | reflexivity].
  - split; [reflexivity | discriminate].
  - split; [reflexivity | discriminate].
Qed.

End Storage.

(** X15 on the placeholder bucket name. *)
Lemma unconfigured_bucket_witness :
  isOk (downloadFileContentFromUrl Sample.Buffer_toString "your-s3-bucket-name"
          Sample.s3_getObject "s3://bucket/path/to/file.pdf") = false.
Proof.
  apply (unconfigured_bucket_is_refused Sample.Buffer_toString "your-s3-bucket-name"
           Sample.s3_getObject (fun _ _ => Ok "https://signed") eq_refl).
Defined.

(** X16 on the sample bucket. *)
Lemma download_outcomes_witness :
  downloadFileContentFromUrl Sample.Buffer_toString "docs" Sample.s3_getObject
    "s3://bucket/missing.txt" = Throw (Error "NoSuchKey").
Proof.
  apply (proj1 (download_outcomes Sample.Buffer_toString "docs" Sample.s3_getObject
                  "s3://bucket/missing.txt" (URL.mk "s3:" "bucket" "/missing.txt")
                  eq_refl eq_refl eq_refl)).
Defined.

End StorageFacts.

(** ** Upload keys *)

Module UploadKeyFacts.
Import Js Charset DocumentParserService.

(** The time stamp of a key holds no slash. *)
Lemma timestamp_no_slash (now : Z) :
  includes "/" (JSON.numberToString (JSON.ofZ now)) = false.
Proof.
  apply negb_true_iff. rewrite <- TextFacts.notChar_includes.
  apply TextFacts.numberChar_notChar; [reflexivity|].
  apply TextFacts.numberToString_chars. unfold JSON.ofZ.
  apply JsonFacts.mkNumber_wf; [apply JsonFacts.digitsOf_digits | reflexivity].
Qed.

(** X17. The key of an upload. The earlier [generatePresignedUrl] asks for
    a key [uploads/] followed by a name that holds no slash, whatever file
    name the client sends: the object is always a direct child of [uploads/].
    The later one appends the file name and the file type as they come, so
    the name after [uploads/] holds a slash exactly when one of them does.
    Wired to the storage service with a configured bucket, the later one asks
    the SDK for a [putObject] URL on that key in that bucket, with the file
    type as content type and an expiry of 300 seconds, and answers as the
    SDK does. *)
Theorem upload_key_confinement (Date_now : Z) (fileName fileType : string) :
  (forall getPresignedUrl, exists name,
     KnowledgeIngestionServiceV1.generatePresignedUrl Date_now getPresignedUrl fileName fileType
     = getPresignedUrl ("uploads/" ++ name) fileType /\
     includes "/" name = false) /\
  (forall getPresignedUrl, exists name,
     KnowledgeIngestionService.generatePresignedUrl getPresignedUrl Date_now fileName fileType
     = getPresignedUrl ("uploads/" ++ name) fileType /\
     includes "/" name = includes "/" fileName || includes "/" fileType) /\
  (forall s3BucketName s3_getSignedUrlPromise w,
     falsy s3BucketName || String.eqb s3BucketName "your-s3-bucket-name" = false ->
     App.generatePresignedUrl s3BucketName s3_getSignedUrlPromise Date_now fileName fileType w
     = (s3_getSignedUrlPromise "putObject"
          (S3Service.mkParams s3BucketName
             ("uploads/" ++ JSON.numberToString (JSON.ofZ Date_now) ++ "-" ++ fileName
              ++ "." ++ fileType)
             300 fileType),
        w)).
Proof.
  split; [|split].
  - intros getPresignedUrl.
    exists (JSON.numberToString (JSON.ofZ Date_now) ++ "-" ++ path.basename fileName).
    split; [reflexivity|].
    now rewrite !PathFacts.includes_char_app, timestamp_no_slash, PathFacts.basename_no_slash.
  - intros getPresignedUrl.
    exists (JSON.numberToString (JSON.ofZ Date_now) ++ "-" ++ fileName ++ "." ++ fileType).
    split; [reflexivity|].
    rewrite !PathFacts.includes_char_app, timestamp_no_slash. reflexivity.
  - intros s3BucketName s3_getSignedUrlPromise w Hcfg.
    unfold App.generatePresignedUrl, KnowledgeIngestionService.generatePresignedUrl,
      Async.lift, S3Service.getPresignedUrl.
    rewrite Hcfg. change (60 * 5) with 300.
    destruct (s3_getSignedUrlPromise "putObject" _); reflexivity.
Qed.

End UploadKeyFacts.

(** ** The orchestrator: how the stages compose *)

Module PipelineFacts.
Import Js Async KnowledgeIngestionService.

Section Collaborators.

Variable downloadFileContentFromUrl : string -> M S3Service.Download.
Variable parseContentFromString :
  string -> string -> M DocumentParserService.ParsedDocument.
Variable getEmbeddingsForDocuments : list Document.t -> M (list PineconeRecord.t).
Variable upsertVectors : list PineconeRecord.t -> M unit.

Local Abbreviation ingest :=
  (processDocumentFromS3 downloadFileContentFromUrl parseContentFromString
     getEmbeddingsForDocuments upsertVectors).

(** X18. A failure of the download or of the extraction is the failure of
    the ingestion: the orchestrator rejects with the same error, in the state
    the failed stage left, so that nothing is embedded or stored. *)
Theorem early_failures_propagate (s3ObjectUrl : string) (w : World) :
  (forall e w1,
     downloadFileContentFromUrl s3ObjectUrl w = (Throw e, w1) ->
     ingest s3ObjectUrl w = (Throw e, w1)) /\
  (forall download w1 e w2,
     downloadFileContentFromUrl s3ObjectUrl w = (Ok download, w1) ->
     parseContentFromString (S3Service.content download)
       (S3Service.originalFileName download) w1 = (Throw e, w2) ->
     ingest s3ObjectUrl w = (Throw e, w2)).
Proof.
  unfold processDocumentFromS3, parseDocumentContent, tryCatch, bind, throw. split.
  - intros e w1 ->. reflexivity.
  - intros download w1 e w2 -> ->. reflexivity.
Qed.

(** X19. When the batch builder returns records for the one document the
    orchestrator hands it (the key as id, the extracted text, the extracted
    metadata with [s3_url] and [original_filename] written over it), the
    records are upserted as they are; the ingestion resolves with the key
    when the upsert resolves and rejects with its error when it rejects. *)
Theorem ingestion_stores_then_returns_key
  (s3ObjectUrl : string) (w w1 w2 w3 : World) (download : S3Service.Download)
  (doc : DocumentParserService.ParsedDocument) (records : list PineconeRecord.t) :
  downloadFileContentFromUrl s3ObjectUrl w = (Ok download, w1) ->
  parseContentFromString (S3Service.content download)
    (S3Service.originalFileName download) w1 = (Ok doc, w2) ->
  getEmbeddingsForDocuments
    [Document.mk (S3Service.s3Key download) (DocumentParserService.content doc)
       (<["original_filename" := JSON.JString (S3Service.originalFileName download)]>
          (<["s3_url" := JSON.JString s3ObjectUrl]> (DocumentParserService.metadata doc)))]
    w2 = (Ok records, w3) ->
  records <> [] ->
  ingest s3ObjectUrl w
  = match upsertVectors records w3 with
    | (Ok _, w4) => (Ok (S3Service.s3Key download), w4)
    | (Throw e, w4) => (Throw e, w4)
    end.
Proof.
  intros Hd Hp He Hne.
  unfold processDocumentFromS3, parseDocumentContent, generateAndStoreEmbeddings.
  unfold tryCatch, bind, throw, ret. rewrite Hd, Hp, He.
  destruct records as [|r records]; [contradiction|]. cbn [length Nat.eqb].
  destruct (upsertVectors (r :: records) w3) as [[[]|e] w4]; reflexivity.
Qed.

End Collaborators.

Section Wiring.

Context {Buffer : Type}.
Variable Buffer_from : string -> DocumentParserService.Encoding -> Buffer.
Variable Buffer_toString : Buffer -> string.
Variable pdfParse : Buffer -> Res DocumentParserService.PdfData.
Variable Papa_parse : string -> Papa.ParseConfig -> Res Papa.ParseResult.
Variable s3BucketName : string.
Variable s3_getObject : string -> string -> Res (S3Service.GetObjectOutput Buffer).
Variable random : nat -> Q.
Variable Index_upsert : string -> list PineconeRecord.t -> M unit.

Local Abbreviation ingest :=
  (App.processDocumentFromS3 Buffer_from Buffer_toString pdfParse Papa_parse s3BucketName
     s3_getObject random Index_upsert).

(** X20. The services wired as the application wires them. For a locator
    that is downloaded and whose extracted text is not blank, one record is
    handed to the index service: the key as id, 1536 fresh random numbers,
    and the extracted metadata with [s3_url] and [original_filename]. When the
    index handle is not initialised the ingestion still resolves with the key,
    although nothing was stored. *)
Theorem ingestion_on_the_wired_services
  (s3ObjectUrl : string) (w : World) (download : S3Service.Download)
  (doc : DocumentParserService.ParsedDocument) :
  S3Service.downloadFileContentFromUrl Buffer_toString s3BucketName s3_getObject s3ObjectUrl
    = Ok download ->
  DocumentParserService.parseContentFromString Buffer_from pdfParse Papa_parse
    (S3Service.content download) (S3Service.originalFileName download) = Ok doc ->
  EmbeddingService.isBlank (DocumentParserService.content doc) = false ->
  let record :=
    PineconeRecord.mk (S3Service.s3Key download)
      (map random (seq (draws w) 1536))
      (<["original_filename" := JSON.JString (S3Service.originalFileName download)]>
         (<["s3_url" := JSON.JString s3ObjectUrl]> (DocumentParserService.metadata doc))) in
  let w' := mkWorld (draws w + 1536) (index w) (vectors w) in
  ingest s3ObjectUrl w
  = match PineconeService.upsertVectors Index_upsert [record] w' with
    | (Ok _, w'') => (Ok (S3Service.s3Key download), w'')
    | (Throw e, w'') => (Throw e, w'')
    end /\
  (index w = None -> ingest s3ObjectUrl w = (Ok (S3Service.s3Key download), w')).
Proof.
  intros Hd Hp Hb record w'.
  assert (Hrun : ingest s3ObjectUrl w
                 = match PineconeService.upsertVectors Index_upsert [record] w' with
                   | (Ok _, w'') => (Ok (S3Service.s3Key download), w'')
                   | (Throw e, w'') => (Throw e, w'')
                   end).
  { unfold App.processDocumentFromS3, processDocumentFromS3, parseDocumentContent,
      generateAndStoreEmbeddings, tryCatch, bind, lift, throw, ret.
    rewrite Hd, Hp.
    unfold App.getEmbeddingsForDocuments, EmbeddingService.getEmbeddingsForDocuments.
    cbn [EmbeddingService.embedLoop Document.content]. unfold bind, EmbeddingService.getEmbedding.
    rewrite Hb. unfold tryCatch, EmbeddingService.placeholderEmbedding, ret.
    rewrite length_map, length_seq.
    change (0 <? EmbeddingService.placeholderDimension)%nat with true.
    cbn [app length Nat.eqb]. subst record w'.
    unfold EmbeddingService.recordOf. cbn [Document.id Document.metadata].
    change EmbeddingService.placeholderDimension with 1536%nat.
    destruct (PineconeService.upsertVectors Index_upsert _ _) as [[[]|e] w4]; reflexivity. }
  split; [exact Hrun|].
  intros Hnone. rewrite Hrun. unfold PineconeService.upsertVectors.
  cbn [index w']. rewrite Hnone. reflexivity.
Qed.

End Wiring.

(** X18 on the sample bucket: a key the bucket does not hold. *)
Lemma early_failure_witness :
  App.processDocumentFromS3 Sample.Buffer_from Sample.Buffer_toString Sample.pdfParse
    Papa.parse "docs" Sample.s3_getObject Sample.random Sample.Index_upsert
    "s3://bucket/missing.txt" Sample.world
  = (Throw (Error "NoSuchKey"), Sample.world).
Proof.
  apply (proj1 (early_failures_propagate _ _ _ _ "s3://bucket/missing.txt" Sample.world)).
  reflexivity.
Defined.

(** X19 on the sample bucket: the text file is embedded and its record is
    handed to the index. *)
Lemma ingestion_stores_witness :
  App.processDocumentFromS3 Sample.Buffer_from Sample.Buffer_toString Sample.pdfParse
    Papa.parse "docs" Sample.s3_getText Sample.random Sample.Index_upsert
    "s3://bucket/notes/a.txt" Sample.world
  = match PineconeService.upsertVectors Sample.Index_upsert
            [PineconeRecord.mk "notes/a.txt" (map Sample.random (seq 0 1536))
               (<["original_filename" := JSON.JString "a.txt"]>
                  (<["s3_url" := JSON.JString "s3://bucket/notes/a.txt"]>
                     {[ "source" := JSON.JString "a.txt" ]}))]
            (mkWorld 1536 (Some "knowledge") ∅) with
    | (Ok _, w4) => (Ok "notes/a.txt", w4)
    | (Throw e, w4) => (Throw e, w4)
    end.
Proof.
  apply (ingestion_stores_then_returns_key _ _ _ _ "s3://bucket/notes/a.txt"
           Sample.world Sample.world Sample.world (mkWorld 1536 (Some "knowledge") ∅)
           (S3Service.mkDownload "alpha" "notes/a.txt" "a.txt")
           (DocumentParserService.mkParsed "alpha" {[ "source" := JSON.JString "a.txt" ]}));
    try reflexivity.
  discriminate.
Defined.

(** X20 on the sample bucket, with the index handle unset: the text file is
    reported as ingested and the index holds nothing. *)
Lemma unset_index_witness :
  App.processDocumentFromS3 Sample.Buffer_from Sample.Buffer_toString Sample.pdfParse
    Papa.parse "docs" Sample.s3_getText Sample.random Sample.Index_upsert
    "s3://bucket/notes/a.txt" (mkWorld 0 None ∅)
  = (Ok "notes/a.txt", mkWorld 1536 None ∅).
Proof.
  apply (proj2 (ingestion_on_the_wired_services Sample.Buffer_from Sample.Buffer_toString
                  Sample.pdfParse Papa.parse "docs" Sample.s3_getText Sample.random
                  Sample.Index_upsert "s3://bucket/notes/a.txt" (mkWorld 0 None ∅)
                  (S3Service.mkDownload "alpha" "notes/a.txt" "a.txt")
                  (DocumentParserService.mkParsed "alpha" {[ "source" := JSON.JString "a.txt" ]})
                  eq_refl eq_refl eq_refl)).
  reflexivity.
Defined.

End PipelineFacts.

(** ** The endpoints *)

Module ControllerFacts.
Import Js Async KnowledgeIngestionController.

(** X21. The endpoint [process-document] never rejects. It answers with the
    key as [documentId] when the ingestion resolves; when the ingestion
    rejects, whatever the error, it answers with the one message
    [Failed to start document processing.] and no [documentId]. The endpoint
    [presigned-upload-url] has no such guard: it resolves and rejects as the
    service does. *)
Theorem processS3Document_never_rejects
  (generatePresignedUrl : string -> string -> M string)
  (processDocumentFromS3 : string -> M string) (w : World) :
  (forall s3ObjectUrl,
     exists response,
       processS3Document processDocumentFromS3 s3ObjectUrl w
       = (Ok response, snd (processDocumentFromS3 s3ObjectUrl w)) /\
       (forall documentId,
          fst (processDocumentFromS3 s3ObjectUrl w) = Ok documentId ->
          response = ProcessResponse.mk "Document processing started." (Some documentId)) /\
       (forall e,
          fst (processDocumentFromS3 s3ObjectUrl w) = Throw e ->
          response = ProcessResponse.mk "Failed to start document processing." None)) /\
  (forall fileName fileType,
     getPresignedUploadUrl generatePresignedUrl fileName fileType w
     = generatePresignedUrl fileName fileType w).
Proof.
  split.
  - intros s3ObjectUrl. unfold processS3Document, tryCatch, bind, ret.
    destruct (processDocumentFromS3 s3ObjectUrl w) as [[documentId|e] w']; eexists;
      (split; [reflexivity|]); split; intros x [= <-]; reflexivity.
  - intros fileName fileType. unfold getPresignedUploadUrl, bind, ret.
    destruct (generatePresignedUrl fileName fileType w) as [[url|e] w']; reflexivity.
Qed.

End ControllerFacts.

(** ** The earlier revisions *)

Module EarlierRevisionFacts.
Import Js JSON DocumentParserService.

(** X22. The parser before and after the PDF and CSV libraries came in.
    Outside [.pdf] and [.csv] the two revisions of [parseDocument] agree on
    every path, errors included; on a readable [.pdf] or [.csv] file the
    earlier one returns a fixed notice, whatever the file holds. *)
Theorem earlier_parser_agrees {Buffer : Type}
  (Buffer_toString : Buffer -> string) (pdfParse : Buffer -> Res PdfData)
  (Papa_parse : string -> Papa.ParseConfig -> Res Papa.ParseResult)
  (readFile : string -> Res Buffer) (filePath : string) :
  (toLowerCase (path.extname filePath) <> ".pdf" ->
   toLowerCase (path.extname filePath) <> ".csv" ->
   DocumentParserServiceV1.parseDocument Buffer_toString readFile filePath
   = parseDocument Buffer_toString pdfParse Papa_parse readFile filePath) /\
  (forall fileBuffer,
     readFile filePath = Ok fileBuffer ->
     (toLowerCase (path.extname filePath) = ".pdf" ->
      DocumentParserServiceV1.parseDocument Buffer_toString readFile filePath
      = Ok (mkParsed "PDF parsing not implemented yet. Requires pdf-parse library."
              {[ "source" := JString (path.basename filePath) ]})) /\
     (toLowerCase (path.extname filePath) = ".csv" ->
      DocumentParserServiceV1.parseDocument Buffer_toString readFile filePath
      = Ok (mkParsed "CSV parsing not implemented yet. Requires papaparse library."
              {[ "source" := JString (path.basename filePath) ]}))).
Proof.
  unfold DocumentParserServiceV1.parseDocument, parseDocument. split.
  - intros Hpdf Hcsv. apply String.eqb_neq in Hpdf, Hcsv. now rewrite Hpdf, Hcsv.
  - intros fileBuffer ->. split; intros ->; reflexivity.
Qed.

(** The earlier parser sets [source] as the later one does. *)
Lemma earlier_parser_source {Buffer : Type}
  (Buffer_toString : Buffer -> string) (readFile : string -> Res Buffer)
  (filePath : string) (doc : ParsedDocument) :
  DocumentParserServiceV1.parseDocument Buffer_toString readFile filePath = Ok doc ->
  metadata doc !! "source" = Some (JString (path.basename filePath)).
Proof.
  unfold DocumentParserServiceV1.parseDocument.
  repeat match goal with
         | |- context [if ?b then _ else _] => destruct b
         | |- context [match ?r with Ok _ => _ | Throw _ => _ end] => destruct r
         end;
    try discriminate;
    intros [= <-]; apply lookup_singleton_eq.
Qed.

End EarlierRevisionFacts.

Module TempFileFacts.
Import Js KnowledgeIngestionServiceV1.

Section Service.

Context {Buffer : Type}.
Variable Buffer_from : string -> DocumentParserService.Encoding -> Buffer.
Variable Buffer_toString : Buffer -> string.
Variable writeFault : string -> option exn.
Variable tmpdir : string.
Variable path_join : string -> string -> string.
Variable Date_now : Z.
Variable getObject : string -> Res (S3Service.GetObjectOutput Buffer).
Variable parseDocument :
  (string -> Res Buffer) -> string -> Res DocumentParserService.ParsedDocument.
Variable getEmbeddingsForDocuments : list Document.t -> Async.M (list PineconeRecord.t).
Variable upsertVectors : list PineconeRecord.t -> Async.M unit.

Local Abbreviation run unlinkFault :=
  (processDocumentFromS3 Buffer_from Buffer_toString writeFault unlinkFault tmpdir path_join
     Date_now getObject parseDocument getEmbeddingsForDocuments upsertVectors).
Local Abbreviation rest :=
  (parseEmbedStore Buffer_from Buffer_toString writeFault parseDocument
     getEmbeddingsForDocuments upsertVectors).
Local Abbreviation tempOf := (tempFilePathOf tmpdir path_join Date_now).

(** [locate] reads the state and leaves it as it is. *)
Lemma locate_state (s3ObjectUrl : string) (s : State) :
  snd (locate getObject s3ObjectUrl s) = s.
Proof.
  unfold locate, bind, lift, throw, ret.
  destruct (URL.new s3ObjectUrl) as [parsedUrl|]; [|reflexivity].
  destruct (falsy (keyOfUrl parsedUrl)); [reflexivity|].
  destruct (getObject (keyOfUrl parsedUrl)) as [s3Object|]; [|reflexivity].
  destruct (S3Service.Body s3Object); reflexivity.
Qed.

(** The orchestrator in two steps. *)
Lemma run_steps (unlinkFault : string -> option exn) (s3ObjectUrl : string) (s : State) :
  run unlinkFault s3ObjectUrl s
  = match locate getObject s3ObjectUrl s with
    | (Ok (s3Key, body), s1) =>
        match rest s3ObjectUrl s3Key body (path.basename s3Key)
                (tempOf (path.basename s3Key)) s1 with
        | (r, s2) =>
            match cleanup unlinkFault (tempOf (path.basename s3Key)) s2 with
            | (Ok _, s3) => (r, s3)
            | (Throw e, s3) => (Throw e, s3)
            end
        end
    | (Throw error, s1) => (Throw error, s1)
    end.
Proof.
  unfold processDocumentFromS3, tryFinally, tryCatch, throw.
  destruct (locate getObject s3ObjectUrl s) as [[[s3Key body]|e] s1]; [|reflexivity].
  destruct (rest s3ObjectUrl s3Key body _ _ s1) as [[documentId|e] s2]; reflexivity.
Qed.

(** From [fs.writeFile] on, the only file touched is the temporary one. *)
Lemma parseEmbedStore_files (s3ObjectUrl s3Key : string) (body : Buffer)
  (originalFileName tempFilePath : string) (s : State) :
  files (snd (rest s3ObjectUrl s3Key body originalFileName tempFilePath s)) = files s \/
  files (snd (rest s3ObjectUrl s3Key body originalFileName tempFilePath s))
  = <[tempFilePath := Buffer_toString body]> (files s).
Proof.
  unfold parseEmbedStore, bind, writeFile.
  destruct (writeFault tempFilePath); [left; reflexivity|]. right.
  unfold lift. cbn [files].
  destruct (parseDocument _ tempFilePath) as [parsed|]; [|reflexivity].
  destruct (falsy (DocumentParserService.content parsed)
            || (String.length (trim (DocumentParserService.content parsed)) =? 0)%nat);
    [destruct (size (DocumentParserService.metadata parsed) =? 0)%nat; [reflexivity|]|];
    unfold ret, liftWorld, throw; cbn [world files];
    destruct (getEmbeddingsForDocuments _ _) as [[vectorsToUpsert|] w1]; try reflexivity;
    (destruct (length vectorsToUpsert =? 0)%nat; [reflexivity|]);
    cbn [world files]; destruct (upsertVectors _ _) as [[|] w2]; reflexivity.
Qed.

(** X23. The temporary file. When the disk does not refuse to delete, the
    orchestrator leaves the disk as it found it, apart from the temporary
    path, which holds no file afterwards: on success, on a failure of the
    write, of the parser, of the batch builder or of the index alike. Before
    the download has returned a body nothing is written at all. *)
Theorem temp_file_is_removed (unlinkFault : string -> option exn)
  (s3ObjectUrl : string) (s : State) :
  (forall p, unlinkFault p = None) ->
  (forall a b, falsy (path_join a b) = false) ->
  match fst (locate getObject s3ObjectUrl s) with
  | Ok (s3Key, _) =>
      files (snd (run unlinkFault s3ObjectUrl s))
      = delete (tempOf (path.basename s3Key)) (files s)
  | Throw _ => files (snd (run unlinkFault s3ObjectUrl s)) = files s
  end.
Proof.
  intros Hunlink Hjoin. rewrite run_steps.
  pose proof (locate_state s3ObjectUrl s) as Hs.
  destruct (locate getObject s3ObjectUrl s) as [[[s3Key body]|e] s1]; cbn [snd fst] in *;
    subst s1; [|reflexivity].
  set (t := tempOf (path.basename s3Key)).
  pose proof (parseEmbedStore_files s3ObjectUrl s3Key body (path.basename s3Key) t s) as Hf.
  destruct (rest s3ObjectUrl s3Key body (path.basename s3Key) t s) as [r s2].
  cbn [snd] in Hf.
  assert (Hclean : cleanup unlinkFault t s2 = (Ok tt, mkState (world s2) (delete t (files s)))).
  { unfold cleanup. unfold t at 1, tempFilePathOf. rewrite Hjoin.
    unfold tryCatch, unlink, ret. rewrite Hunlink.
    destruct Hf as [Hf|Hf]; rewrite Hf.
    - destruct (files s !! t) eqn:E; [reflexivity|].
      rewrite delete_id by exact E. destruct s2 as [w2 f2]. cbn [files] in Hf. now subst f2.
    - rewrite lookup_insert_eq. now rewrite delete_insert_eq. }
  rewrite Hclean. reflexivity.
Qed.

(** X24. A failure of the clean-up never replaces the outcome. With any two
    behaviours of [fs.unlink], the orchestrator resolves with the same key or
    rejects with the same error, and leaves the same process state. *)
Theorem cleanup_never_overrides (unlinkFault unlinkFault' : string -> option exn)
  (s3ObjectUrl : string) (s : State) :
  fst (run unlinkFault s3ObjectUrl s) = fst (run unlinkFault' s3ObjectUrl s) /\
  world (snd (run unlinkFault s3ObjectUrl s)) = world (snd (run unlinkFault' s3ObjectUrl s)).
Proof.
  assert (Hc : forall fault t s0,
             fst (cleanup fault t s0) = Ok tt /\ world (snd (cleanup fault t s0)) = world s0).
  { intros fault t s0. unfold cleanup, tryCatch, unlink, ret.
    destruct (falsy t); [split; reflexivity|].
    destruct (fault t); [split; reflexivity|].
    destruct (files s0 !! t); split; reflexivity. }
  rewrite !run_steps.
  destruct (locate getObject s3ObjectUrl s) as [[[s3Key body]|e] s1]; [|split; reflexivity].
  destruct (rest s3ObjectUrl s3Key body _ _ s1) as [r s2].
  destruct (Hc unlinkFault (tempOf (path.basename s3Key)) s2) as [H1 H2].
  destruct (Hc unlinkFault' (tempOf (path.basename s3Key)) s2) as [H1' H2'].
  destruct (cleanup unlinkFault _ s2) as [[[]|] s3]; [|discriminate].
  destruct (cleanup unlinkFault' _ s2) as [[[]|] s3']; [|discriminate].
  cbn [fst snd] in *. split; [reflexivity | congruence].
Qed.

(** The clean-up resolves whatever [fs.unlink] does, and leaves the process
    state alone. *)
Lemma cleanup_resolves (unlinkFault : string -> option exn) (t : string) (s : State) :
  fst (cleanup unlinkFault t s) = Ok tt /\ world (snd (cleanup unlinkFault t s)) = world s.
Proof.
  unfold cleanup, tryCatch, unlink, ret.
  destruct (falsy t); [split; reflexivity|].
  destruct (unlinkFault t); [split; reflexivity|].
  destruct (files s !! t); split; reflexivity.
Qed.

End Service.

Section BlankDocuments.

Context {Buffer : Type}.
Variable Buffer_from : string -> DocumentParserService.Encoding -> Buffer.
Variable Buffer_toString : Buffer -> string.
Variable writeFault unlinkFault : string -> option exn.
Variable tmpdir : string.
Variable path_join : string -> string -> string.
Variable Date_now : Z.
Variable getObject : string -> Res (S3Service.GetObjectOutput Buffer).
Variable parseDocument :
  (string -> Res Buffer) -> string -> Res DocumentParserService.ParsedDocument.
Variable embeddingModel : string -> Async.M (list Q).
Variable upsertVectors : list PineconeRecord.t -> Async.M unit.

Local Abbreviation run :=
  (processDocumentFromS3 Buffer_from Buffer_toString writeFault unlinkFault tmpdir path_join
     Date_now getObject parseDocument
     (EmbeddingService.getEmbeddingsForDocuments embeddingModel) upsertVectors).
Local Abbreviation tempOf := (tempFilePathOf tmpdir path_join Date_now).

(** X25. Blank documents in the earlier orchestrator. When the parser
    returns a text that is empty or blank for the temporary file, the
    orchestrator rejects with EmptyDocument if the metadata has no key at all,
    and otherwise with EmbeddingFailed for the key, the batch builder having
    returned no record. Both revisions of the parser always set [source], so
    with either of them a blank document ends in EmbeddingFailed. *)
Theorem blank_document_in_the_earlier_revision :
  (forall s3ObjectUrl s s3Key body doc,
     locate getObject s3ObjectUrl s = (Ok (s3Key, body), s) ->
     writeFault (tempOf (path.basename s3Key)) = None ->
     parseDocument
       (readFile Buffer_from
          (<[tempOf (path.basename s3Key) := Buffer_toString body]> (files s)))
       (tempOf (path.basename s3Key)) = Ok doc ->
     EmbeddingService.isBlank (DocumentParserService.content doc) = true ->
     fst (run s3ObjectUrl s)
     = Throw (if (size (DocumentParserService.metadata doc) =? 0)%nat
              then KnowledgeIngestionService.EmptyDocument
              else KnowledgeIngestionService.EmbeddingFailed s3Key)) /\
  (forall pdfParse Papa_parse readFile filePath doc,
     DocumentParserService.parseDocument Buffer_toString pdfParse Papa_parse readFile filePath
       = Ok doc ->
     (size (DocumentParserService.metadata doc) =? 0)%nat = false) /\
  (forall readFile filePath doc,
     DocumentParserServiceV1.parseDocument Buffer_toString readFile filePath = Ok doc ->
     (size (DocumentParserService.metadata doc) =? 0)%nat = false).
Proof.
  assert (Hsize : forall (m : gmap string JSON.value) v,
             m !! "source" = Some v -> (size m =? 0)%nat = false).
  { intros m v Hm. apply Nat.eqb_neq. apply map_size_ne_0_lookup. exists "source". now rewrite Hm. }
  split; [|split].
  - intros s3ObjectUrl s s3Key body doc Hloc Hwrite Hparse Hblank.
    rewrite run_steps, Hloc.
    set (t := tempOf (path.basename s3Key)) in *.
    pose proof (cleanup_resolves unlinkFault t) as Hc.
    unfold parseEmbedStore, bind, writeFile. rewrite Hwrite.
    unfold lift. cbn [files]. rewrite Hparse.
    unfold EmbeddingService.isBlank in Hblank. rewrite Hblank.
    destruct (size (DocumentParserService.metadata doc) =? 0)%nat.
    + unfold throw.
      match goal with
      | |- context [cleanup unlinkFault t ?s0] =>
          destruct (Hc s0) as [Hok _]; destruct (cleanup unlinkFault t s0) as [[[]|] s3]
      end; [reflexivity | discriminate].
    + unfold ret, liftWorld, EmbeddingService.getEmbeddingsForDocuments.
      cbn [EmbeddingService.embedLoop Document.content world files].
      unfold Async.bind, EmbeddingService.getEmbedding, EmbeddingService.isBlank.
      rewrite Hblank. unfold Async.ret. cbn [length Nat.ltb Nat.leb Nat.eqb]. unfold throw.
      match goal with
      | |- context [cleanup unlinkFault t ?s0] =>
          destruct (Hc s0) as [Hok _]; destruct (cleanup unlinkFault t s0) as [[[]|] s3]
      end; [reflexivity | discriminate].
  - intros pdfParse Papa_parse readFile filePath doc Hdoc.
    eapply Hsize, ExtractorFacts.fromPath_source, Hdoc.
  - intros readFile filePath doc Hdoc.
    eapply Hsize, EarlierRevisionFacts.earlier_parser_source, Hdoc.
Qed.

End BlankDocuments.

(** X23 on the sample bucket and an empty disk: the text file is ingested
    and the disk is empty again. *)
Lemma temp_file_witness :
  files (snd (processDocumentFromS3 Sample.Buffer_from Sample.Buffer_toString
                Sample.noFault Sample.noFault "/tmp" Sample.path_join Sample.Date_now
                (S3Service.getObject "docs" Sample.s3_getText)
                (DocumentParserService.parseDocument Sample.Buffer_toString Sample.pdfParse
                   Papa.parse)
                (EmbeddingService.getEmbeddingsForDocuments Sample.embeddingModel)
                (PineconeService.upsertVectors Sample.Index_upsert)
                "s3://bucket/notes/a.txt" (mkState Sample.world ∅)))
  = delete (tempFilePathOf "/tmp" Sample.path_join Sample.Date_now (path.basename "notes/a.txt"))
      (files (mkState Sample.world ∅)).
Proof.
  assert (Hjoin : forall a b, falsy (Sample.path_join a b) = false)
    by (intros [|c a] b; reflexivity).
  exact (temp_file_is_removed Sample.Buffer_from Sample.Buffer_toString Sample.noFault
           "/tmp" Sample.path_join Sample.Date_now
           (S3Service.getObject "docs" Sample.s3_getText)
           (DocumentParserService.parseDocument Sample.Buffer_toString Sample.pdfParse
              Papa.parse)
           (EmbeddingService.getEmbeddingsForDocuments Sample.embeddingModel)
           (PineconeService.upsertVectors Sample.Index_upsert)
           Sample.noFault "s3://bucket/notes/a.txt" (mkState Sample.world ∅)
           (fun p => eq_refl) Hjoin).
Defined.

(** X25 on the sample bucket: the empty text file, under the later
    parser. *)
Lemma blank_document_earlier_witness :
  fst (processDocumentFromS3 Sample.Buffer_from Sample.Buffer_toString
         Sample.noFault Sample.noFault "/tmp" Sample.path_join Sample.Date_now
         (S3Service.getObject "docs" Sample.s3_getObject)
         (DocumentParserService.parseDocument Sample.Buffer_toString Sample.pdfParse
            Papa.parse)
         (EmbeddingService.getEmbeddingsForDocuments Sample.embeddingModel)
         (PineconeService.upsertVectors Sample.Index_upsert)
         "s3://bucket/path/to/empty.txt" (mkState Sample.world ∅))
  = Throw (KnowledgeIngestionService.EmbeddingFailed "path/to/empty.txt").
Proof.
  refine (proj1 (blank_document_in_the_earlier_revision Sample.Buffer_from
                  Sample.Buffer_toString Sample.noFault Sample.noFault "/tmp"
                  Sample.path_join Sample.Date_now
                  (S3Service.getObject "docs" Sample.s3_getObject)
                  (DocumentParserService.parseDocument Sample.Buffer_toString Sample.pdfParse
                     Papa.parse)
                  Sample.embeddingModel (PineconeService.upsertVectors Sample.Index_upsert))
           "s3://bucket/path/to/empty.txt" (mkState Sample.world ∅) "path/to/empty.txt" ""
           (DocumentParserService.mkParsed ""
              {[ "source" := JSON.JString "doc-1700000000000-empty.txt" ]}) _ _ _ _);
    vm_compute; reflexivity.
Defined.

End TempFileFacts.
